(** * whatsapp-msg-sender: the webhook router and its collaborators

    A shallow embedding of [src/routes/webhook.js], of the module
    [whatsappclient] it imports, of [src/utils/imageUtils.js]
    ([htmlToImage] and the image cleanup) and of the parts of
    [src/index.js] that start the session and report its status,
    followed by the properties of the retry policy, the batch
    scheduler, the media resolver, the health and status endpoints, the
    image cleanup and the start of the process.

    Modelling conventions.
    - A JavaScript string is a [string]; every character is a code unit
      below 256.
    - A request field that holds a string is an [option string], [None]
      standing for [undefined]; a numeric field is an [option Z].
    - An asynchronous function is a state transformer that returns an
      ECMAScript completion (normal, throw, break, continue, return).
      The state carries the outside world (the session, the browser, the
      network), the chronological trace of the observable calls, and the
      mutable variables of the running handler.
    - [await new Promise(resolve => setTimeout(resolve, ms))] is the
      event [Sleep site ms]: the timer was armed with [ms] at the call
      site [site], and the world moved on meanwhile.
    - The middleware [apiKeyAuth] runs before the handlers of [POST
      /send] and [POST /send-batch]; the handlers are modelled from the
      point where it has called [next()], and the middleware as the
      decision it takes. *)

From Stdlib Require Import String Ascii List ZArith Lia Bool Arith.
Import ListNotations.
Local Open Scope string_scope.
Local Open Scope Z_scope.

(** ** JavaScript strings *)

Module Js.

(** [hay.includes(needle)] *)
Fixpoint includes (hay needle : string) {struct hay} : bool :=
  String.prefix needle hay
  || match hay with
     | EmptyString => false
     | String _ rest => includes rest needle
     end.

(** [s.startsWith(p)] *)
Definition startsWith (s p : string) : bool := String.prefix p s.

(** Truthiness of a value that is a string or [undefined]. *)
Definition truthy (v : option string) : bool :=
  match v with
  | Some s => negb (s =? EmptyString)%string
  | None => false
  end.

(** [v ? v : d] for a value that is a number or [undefined]. *)
Definition orDefault (v : option Z) (d : Z) : Z :=
  match v with
  | Some n => if n =? 0 then d else n
  | None => d
  end.

(** [v || ''] for a value that is a string or [undefined]; on a truthy
    value, the string itself. *)
Definition orEmpty (v : option string) : string :=
  match v with
  | Some s => s
  | None => EmptyString
  end.

(** A thrown value. [Error m] is an object whose [message] is the string
    [m]; [NotAnError] is an object without a string [message], on which
    [.message.includes(...)] raises a [TypeError]. A thrown [null] or
    [undefined] is left out. *)
Inductive Thrown : Type :=
| Error (message : string)
| NotAnError.

(** [error.message], as it is serialised into a JSON body. *)
Definition messageOf (e : Thrown) : option string :=
  match e with
  | Error m => Some m
  | NotAnError => None
  end.

(** The messages of the [TypeError]s the handlers can raise (V8 wording). *)
Definition typeErrorIncludes : Thrown :=
  Error "Cannot read properties of undefined (reading 'includes')".
Definition typeErrorConstAssign : Thrown :=
  Error "Assignment to constant variable.".
Definition typeErrorDestructure : Thrown :=
  Error "Cannot destructure property 'groupId' of 'messageData' as it is null.".

End Js.

(** ** The data-URI pattern

    [/^data:([A-Za-z-+/]+);base64,(.+)$/], the regular expression both
    handlers apply to base64 media content. *)

Module DataUri.

(** The character class [[A-Za-z-+/]]. *)
Definition mimeChar (c : ascii) : bool :=
  let n := nat_of_ascii c in
  ((65 <=? n) && (n <=? 90))%nat
  || ((97 <=? n) && (n <=? 122))%nat
  || Ascii.eqb c "-" || Ascii.eqb c "+" || Ascii.eqb c "/".

(** [.] without the [s] flag: any code unit but a line terminator. Of the
    four line terminators only line feed and carriage return are below
    256. *)
Definition dotChar (c : ascii) : bool :=
  negb (Ascii.eqb c "010" || Ascii.eqb c "013").

Fixpoint allChars (p : ascii -> bool) (s : string) : bool :=
  match s with
  | EmptyString => true
  | String c rest => p c && allChars p rest
  end.

(** The longest prefix of [s] whose characters satisfy [p], and what
    follows it. *)
Fixpoint takeWhile (p : ascii -> bool) (s : string) : string :=
  match s with
  | EmptyString => EmptyString
  | String c rest => if p c then String c (takeWhile p rest) else EmptyString
  end.

Fixpoint dropWhile (p : ascii -> bool) (s : string) : string :=
  match s with
  | EmptyString => EmptyString
  | String c rest => if p c then dropWhile p rest else s
  end.

(** [stripPrefix p s] is [Some r] when [s = p ++ r]. *)
Fixpoint stripPrefix (p s : string) : option string :=
  match p, s with
  | EmptyString, _ => Some s
  | String a p', String b s' => if Ascii.eqb a b then stripPrefix p' s' else None
  | String _ _, EmptyString => None
  end.

(** [s.match(/^data:([A-Za-z-+/]+);base64,(.+)$/)]: the two capture
    groups, or [None] for [null]. The class excludes [;], so the greedy
    first group can only end at the first character outside the class. *)
Definition matchDataUri (s : string) : option (string * string) :=
  match stripPrefix "data:" s with
  | None => None
  | Some r =>
      let mime := takeWhile mimeChar r in
      if (mime =? EmptyString)%string then None
      else
        match stripPrefix ";base64," (dropWhile mimeChar r) with
        | None => None
        | Some payload =>
            if negb (payload =? EmptyString)%string && allChars dotChar payload
            then Some (mime, payload)
            else None
        end
  end.

End DataUri.

(** ** Values exchanged with the collaborators *)

(** [new MessageMedia(mimetype, data)] *)
Record MessageMedia : Type := mkMedia { mimetype : string; data : string }.

(** The third argument of [client.sendMessage]: absent, the empty object
    [{}], or the object [{ caption, sendVideoAsGif }] of a media send. *)
Inductive SendOptions : Type :=
| OptionsUndefined
| OptionsEmpty
| OptionsMedia (caption : string) (sendVideoAsGif : bool).

(** The second argument of [client.sendMessage]. *)
Inductive Content : Type :=
| Text (body : string)
| Media (media : MessageMedia).

(** What [htmlToImage] resolves to. *)
Record RenderedFile : Type := mkFile { filePath : string; fileName : string }.

(** The body of [POST /send] and an element of [messages] in
    [POST /send-batch]. *)
Record MessageData : Type := mkMessage {
  groupId : option string;
  message : option string;
  mediaType : option string;
  mediaContent : option string;
  html : option string;
  vh : option Z;
  vw : option Z
}.

(** [req.body.messages]: an array, whose elements are objects or [null],
    or anything else. *)
Inductive Messages : Type :=
| NotAnArray
| ArrayOf (items : list (option MessageData)).

(** The argument [htmlToImage] receives: the string [POST /send] passes,
    or the object [POST /send-batch] passes. *)
Inductive HtmlToImageArg : Type :=
| ArgString (s : string)
| ArgObject (htmlContent : option string) (vw vh : option Z).

(** [parseInt(process.env.MAX_BATCH_SIZE || '1000')] and
    [parseInt(process.env.MESSAGE_DELAY_MS || '5000')]. *)
Record Config : Type := mkConfig { MAX_BATCH_SIZE : Z; MESSAGE_DELAY_MS : Z }.

Definition defaultConfig : Config :=
  {| MAX_BATCH_SIZE := 1000; MESSAGE_DELAY_MS := 5000 |}.

(** ** Observable events *)

(** The call sites of [setTimeout]: line 35 (settle delay before a
    send), line 52 (retry backoff), line 332 (cooldown after a
    WidFactory failure), line 339 (delay between two messages). *)
Inductive Timer : Type := Settle | Backoff | Cooldown | InterMessage.

(** The JSON bodies the handlers answer with. *)
Inductive Body : Type :=
| GroupIdRequired
| ContentRequired
| ClientNotReady
| HtmlConversionFailed (error : option string)
| InvalidMediaType
| MediaProcessingFailed (error : option string)
| MessageSent (groupId : string)
| SendFailed (error : option string)
| MustBeArray
| EmptyArray
| BatchTooLarge (max : Z)
| Processing (totalMessages : nat) (delay : Z)
| Health (status : string).

(** The lines written through [logger] and [console]. *)
Inductive LogLine : Type :=
| WarnAttemptFailed (attempt max : Z) (msg : option string)
| InfoWaitingBeforeRetry (retryDelay : Z)
| WarnRefreshFailed (msg : option string)
| InfoImageSaved (path : string)
| ErrorHtmlToImage (e : Js.Thrown)
| LogPaths (path name : string)
| InfoHtmlConverted (name : string)
| ErrorConvertingHtml (e : Js.Thrown)
| ErrorProcessingMedia (e : Js.Thrown)
| InfoMediaSent (groupId : string)
| InfoTextSent (groupId : string)
| ErrorWebhook (e : Js.Thrown)
| ErrorInvalidMessages
| ErrorEmptyMessages
| ErrorBatchSize (size : nat)
| ErrorClientNotReady
| WarnMissingGroupId (index total : nat)
| WarnMissingContent (index total : nat) (groupId : string)
| ErrorConvertingHtmlAt (index total : nat) (e : Js.Thrown)
| WarnInvalidMediaType (index total : nat) (groupId mediaType : string)
| ErrorProcessingMediaAt (index total : nat) (e : Js.Thrown)
| InfoBatchMediaSent (index total : nat) (groupId : string)
| InfoBatchTextSent (index total : nat) (groupId : string)
| ErrorAllRetriesFailed (index total : nat) (e : Js.Thrown)
| InfoIncreasingDelay
| InfoWaitingBeforeNext (delay : Z)
| InfoProgress (index total successful failed : nat)
| ErrorUnexpected (index total : nat) (e : Js.Thrown)
| InfoCompleted (successful failed : nat)
| LogError (e : Js.Thrown)
| ErrorFatal (e : Js.Thrown)
| WarnClientUndefined.

Inductive Event : Type :=
| Sleep (site : Timer) (ms : Z)
| SendMessage (groupId : string) (content : Content) (options : SendOptions)
| RefreshState
| Puppeteer (htmlContent : option string) (width height : Z)
| FromFilePath (path : string)
| FromUrl (url : string)
| Respond (status : Z) (body : Body)
| Log (line : LogLine).

(** ** The session, the other collaborators and the handler state *)

(** The session object, over a world of type [World]. [pupPage],
    [pupBrowser] and [info] give the truthiness of the properties of
    these names; [refreshState] is [None] when the session has no such
    method. A method maps the world to the next world and resolves
    ([inl]) or rejects ([inr]). *)
Record Client (World : Type) : Type := mkClient {
  pupPage : World -> bool;
  pupBrowser : World -> bool;
  info : World -> bool;
  sendMessage : string -> Content -> SendOptions ->
                World -> World * (unit + Js.Thrown);
  refreshState : option (World -> World * (unit + Js.Thrown))
}.
Arguments pupPage {World}.
Arguments pupBrowser {World}.
Arguments info {World}.
Arguments sendMessage {World}.
Arguments refreshState {World}.

(** What lies outside the router. [elapse ms] is what the world does
    while a timer of [ms] milliseconds runs. [puppeteer] is the browser
    [htmlToImage] drives with a content, a width and a height.
    [fromFilePath] and [fromUrl] are the two [MessageMedia] factories. *)
Record Externals (World : Type) : Type := mkExternals {
  elapse : Z -> World -> World;
  puppeteer : option string -> Z -> Z -> World -> World * (RenderedFile + Js.Thrown);
  fromFilePath : string -> World -> World * (MessageMedia + Js.Thrown);
  fromUrl : string -> World -> World * (MessageMedia + Js.Thrown)
}.
Arguments elapse {World}.
Arguments puppeteer {World}.
Arguments fromFilePath {World}.
Arguments fromUrl {World}.

(** [successCount] and [failureCount] of the batch handler. *)
Record Tally : Type := mkTally { successCount : nat; failureCount : nat }.

(** The state a handler runs in. [whatsappClient] is the variable of the
    module [whatsappclient]. [tally] is [None] until the batch handler
    declares its two counters; [lastError] is the variable of this name
    in [sendMessageWithRetry]. *)
Record State (World : Type) : Type := mkState {
  world : World;
  trace : list Event;
  whatsappClient : option (Client World);
  tally : option Tally;
  lastError : option Js.Thrown
}.
Arguments mkState {World}.
Arguments world {World}.
Arguments trace {World}.
Arguments whatsappClient {World}.
Arguments tally {World}.
Arguments lastError {World}.

(** ** Completions *)

Inductive Completion (A : Type) : Type :=
| Normal (a : A)
| Throw (e : Js.Thrown)
| Break
| Continue
| Return.
Arguments Normal {A}.
Arguments Throw {A}.
Arguments Break {A}.
Arguments Continue {A}.
Arguments Return {A}.

Definition M (World A : Type) : Type := State World -> State World * Completion A.

Declare Scope js_scope.
Delimit Scope js_scope with js.

Section Monad.

Context {World : Type}.

Definition ret {A : Type} (a : A) : M World A := fun st => (st, Normal a).

Definition bind {A B : Type} (m : M World A) (k : A -> M World B) : M World B :=
  fun st =>
    match m st with
    | (st', Normal a) => k a st'
    | (st', Throw e) => (st', Throw e)
    | (st', Break) => (st', Break)
    | (st', Continue) => (st', Continue)
    | (st', Return) => (st', Return)
    end.

(** [throw e], [break], [continue] and [return] *)
Definition throw {A : Type} (e : Js.Thrown) : M World A := fun st => (st, Throw e).
Definition break {A : Type} : M World A := fun st => (st, Break).
Definition continue {A : Type} : M World A := fun st => (st, Continue).
Definition return_ {A : Type} : M World A := fun st => (st, Return).

(** [try { m } catch (e) { handler e }]: only a throw completion enters
    the handler. *)
Definition tryCatch {A : Type} (m : M World A) (handler : Js.Thrown -> M World A)
  : M World A :=
  fun st =>
    match m st with
    | (st', Throw e) => handler e st'
    | r => r
    end.

(** The call of an async function whose value the caller drops: its
    [return] completes the call normally. *)
Definition call (body : M World unit) : M World unit :=
  fun st =>
    match body st with
    | (st', Return) => (st', Normal tt)
    | r => r
    end.

(** [for (const x of l) { body x }], with the index in [forIndexed]:
    [continue] goes on with the next element, [break] leaves the loop,
    [throw] and [return] leave the function. *)
Fixpoint forEach {A : Type} (body : A -> M World unit) (l : list A) : M World unit :=
  match l with
  | [] => ret tt
  | x :: rest =>
      fun st =>
        match body x st with
        | (st', Normal _) => forEach body rest st'
        | (st', Continue) => forEach body rest st'
        | (st', Break) => (st', Normal tt)
        | (st', Throw e) => (st', Throw e)
        | (st', Return) => (st', Return)
        end
  end.

Fixpoint forIndexed {A : Type} (body : nat -> A -> M World unit) (i : nat)
    (l : list A) : M World unit :=
  match l with
  | [] => ret tt
  | x :: rest =>
      fun st =>
        match body i x st with
        | (st', Normal _) => forIndexed body (S i) rest st'
        | (st', Continue) => forIndexed body (S i) rest st'
        | (st', Break) => (st', Normal tt)
        | (st', Throw e) => (st', Throw e)
        | (st', Return) => (st', Return)
        end
  end.

(** The values [lo], [lo + 1], ..., [hi] of a counting loop. *)
Definition range (lo hi : Z) : list Z :=
  map (fun k => lo + Z.of_nat k) (seq 0 (Z.to_nat (hi + 1 - lo))).

(** Reading and writing the state. *)
Definition emit (e : Event) : M World unit :=
  fun st =>
    (mkState (world st) (trace st ++ [e]) (whatsappClient st) (tally st) (lastError st),
     Normal tt).

Definition log (line : LogLine) : M World unit := emit (Log line).

Definition respond (status : Z) (body : Body) : M World unit :=
  emit (Respond status body).

Definition readWorld {A : Type} (f : World -> A) : M World A :=
  fun st => (st, Normal (f (world st))).

Definition readTally : M World Tally :=
  fun st =>
    (st, Normal match tally st with
                | Some t => t
                | None => mkTally 0 0
                end).

Definition setTally (t : option Tally) : M World unit :=
  fun st =>
    (mkState (world st) (trace st) (whatsappClient st) t (lastError st), Normal tt).

(** [successCount++] and [failureCount++] *)
Definition incrSuccess : M World unit :=
  fun st =>
    setTally match tally st with
             | Some t => Some (mkTally (S (successCount t)) (failureCount t))
             | None => None
             end st.

Definition incrFailure : M World unit :=
  fun st =>
    setTally match tally st with
             | Some t => Some (mkTally (successCount t) (S (failureCount t)))
             | None => None
             end st.

Definition setLastError (e : option Js.Thrown) : M World unit :=
  fun st =>
    (mkState (world st) (trace st) (whatsappClient st) (tally st) e, Normal tt).

Definition getLastError : M World (option Js.Thrown) :=
  fun st => (st, Normal (lastError st)).

(** A call into a collaborator: the event is recorded, the world moves,
    and a rejection or an exception is thrown. *)
Definition invoke {A : Type} (e : Event) (f : World -> World * (A + Js.Thrown))
  : M World A :=
  fun st =>
    let st1 := mkState (fst (f (world st))) (trace st ++ [e]) (whatsappClient st)
                 (tally st) (lastError st) in
    match snd (f (world st)) with
    | inl a => (st1, Normal a)
    | inr err => (st1, Throw err)
    end.

End Monad.

Notation "x <- m ;; k" := (bind m (fun x => k))
  (at level 61, m at next level, right associativity) : js_scope.
Notation "m ;; k" := (bind m (fun _ => k))
  (at level 61, right associativity) : js_scope.

Local Open Scope js_scope.

(** ** The module [whatsappclient] *)

Section WhatsappClient.

Context {World : Type}.

(** [let whatsappClient;] *)
Definition whatsappClientAtLoad : option (Client World) := None.

Definition setWhatsAppClient (client : option (Client World)) : M World unit :=
  fun st =>
    (mkState (world st) (trace st) client (tally st) (lastError st), Normal tt).

Definition getWhatsAppClient : M World (option (Client World)) :=
  fun st =>
    match whatsappClient st with
    | None => (log WarnClientUndefined ;; ret None) st
    | Some c => (st, Normal (Some c))
    end.

(** [module.exports = { setWhatsAppClient, whatsappClient, getWhatsAppClient }]:
    the property [whatsappClient] of the exports object is given the
    value the variable holds when the module body runs, and
    [const { getWhatsAppClient, whatsappClient } = require(...)] in the
    router copies that property once more. *)
Definition exportedWhatsAppClient : option (Client World) := whatsappClientAtLoad.

(** The state of a process whose modules have just been loaded. *)
Definition processStart (w : World) : State World :=
  mkState w [] whatsappClientAtLoad None None.

End WhatsappClient.

(** ** [src/utils/imageUtils.js] and [src/routes/webhook.js] *)

Section Router.

Context {World : Type}.
Variable ext : Externals World.

(** [await new Promise(resolve => setTimeout(resolve, ms))] *)
Definition sleep (site : Timer) (ms : Z) : M World unit :=
  fun st =>
    (mkState (elapse ext ms (world st)) (trace st ++ [Sleep site ms])
       (whatsappClient st) (tally st) (lastError st), Normal tt).

(** [htmlToImage({htmlContent, vh, vw})]. A string argument has none of
    the three properties. The browser session between [puppeteer.launch]
    and [browser.close] is the one call [puppeteer ext]. *)
Definition htmlToImage (arg : HtmlToImageArg) : M World RenderedFile :=
  let '(htmlContent, vh, vw) :=
    match arg with
    | ArgString _ => (None, None, None)
    | ArgObject c w h => (c, h, w)
    end in
  let width := Js.orDefault vw 800 in
  let height := Js.orDefault vh 800 in
  tryCatch
    (f <- invoke (Puppeteer htmlContent width height)
            (puppeteer ext htmlContent width height) ;;
     log (InfoImageSaved (filePath f)) ;;
     ret f)
    (fun error => log (ErrorHtmlToImage error) ;; throw error).

Definition MAX_RETRIES : Z := 3.

(** [error.message.includes('WidFactory') ||
     error.message.includes('undefined') ||
     error.message.includes('not fully initialized')] on a message. *)
Definition hasTransientMarker (msg : string) : bool :=
  Js.includes msg "WidFactory"
  || Js.includes msg "undefined"
  || Js.includes msg "not fully initialized".

(** The same condition on a thrown value: without a string [message],
    the first [includes] raises a [TypeError]. *)
Definition isRetryable (error : Js.Thrown) : M World bool :=
  match error with
  | Js.Error msg => ret (hasTransientMarker msg)
  | Js.NotAnError => throw Js.typeErrorIncludes
  end.

(** The [try] block of [sendMessageWithRetry], lines 29 to 39: one
    attempt. *)
Definition attemptSend (client : Client World) (groupId : string)
    (content : Content) (options : SendOptions) : M World unit :=
  page <- readWorld (pupPage client) ;;
  browser <- readWorld (pupBrowser client) ;;
  (if negb page || negb browser
   then throw (Js.Error "WhatsApp client not fully initialized")
   else ret tt) ;;
  sleep Settle 2000 ;;
  invoke (SendMessage groupId content options)
    (sendMessage client groupId content options) ;;
  return_.

(** Lines 49 to 62: the backoff and the best-effort refresh. *)
Definition backoffAndRefresh (client : Client World) (attempt : Z) : M World unit :=
  let retryDelay := 2 ^ attempt * 3000 in
  log (InfoWaitingBeforeRetry retryDelay) ;;
  sleep Backoff retryDelay ;;
  tryCatch
    match refreshState client with
    | Some refresh => invoke RefreshState refresh
    | None => ret tt
    end
    (fun refreshError => log (WarnRefreshFailed (Js.messageOf refreshError))).

(** The [catch] block of [sendMessageWithRetry], lines 40 to 67. *)
Definition onAttemptFailure (client : Client World) (attempt : Z)
    (error : Js.Thrown) : M World unit :=
  setLastError (Some error) ;;
  log (WarnAttemptFailed attempt MAX_RETRIES (Js.messageOf error)) ;;
  retryable <- isRetryable error ;;
  if retryable then backoffAndRefresh client attempt else break.

(** The loop of [sendMessageWithRetry], lines 27 to 68. *)
Definition retryLoop (client : Client World) (groupId : string)
    (content : Content) (options : SendOptions) : M World unit :=
  forEach
    (fun attempt =>
       tryCatch (attemptSend client groupId content options)
         (onAttemptFailure client attempt))
    (range 1 MAX_RETRIES).

(** [sendMessageWithRetry(client, groupId, content, options = {})]. When
    the loop ends without a [return], [lastError] holds a thrown value;
    the [null] it starts from is thrown as [NotAnError]. *)
Definition sendMessageWithRetry (client : Client World) (groupId : string)
    (content : Content) (options : SendOptions) : M World unit :=
  let options :=
    match options with
    | OptionsUndefined => OptionsEmpty
    | _ => options
    end in
  call
    (setLastError None ;;
     retryLoop client groupId content options ;;
     last <- getLastError ;;
     match last with
     | Some error => throw error
     | None => throw Js.NotAnError
     end).

(** The base64 branch of [POST /send-batch], lines 283 to 292. *)
Definition batchBase64Media (mediaContent : string) : MessageMedia :=
  let mimeType := "image/png"%string in
  let processedContent := mediaContent in
  if Js.startsWith mediaContent "data:" then
    match DataUri.matchDataUri mediaContent with
    | Some (m1, m2) => mkMedia m1 m2
    | None => mkMedia mimeType processedContent
    end
  else mkMedia mimeType processedContent.

(** The base64 branch of [POST /send], lines 127 to 135. There
    [mediaContent] is a [const] binding of the destructured body, so
    [mediaContent = matches[2]] on line 132 raises a [TypeError]. *)
Definition sendBase64Media (mediaContent : string) : M World MessageMedia :=
  let mimeType := "image/png"%string in
  if Js.startsWith mediaContent "data:" then
    match DataUri.matchDataUri mediaContent with
    | Some (m1, m2) => throw Js.typeErrorConstAssign
    | None => ret (mkMedia mimeType mediaContent)
    end
  else ret (mkMedia mimeType mediaContent).

(** Lines 103 to 155 of [POST /send]: the value of [media]. *)
Definition sendResolveMedia (body : MessageData) : M World (option MessageMedia) :=
  if Js.truthy (html body) then
    tryCatch
      (f <- htmlToImage (ArgString (Js.orEmpty (html body))) ;;
       log (LogPaths (filePath f) (fileName f)) ;;
       m <- invoke (FromFilePath ("./" ++ filePath f))
              (fromFilePath ext ("./" ++ filePath f)) ;;
       log (InfoHtmlConverted (fileName f)) ;;
       ret (Some m))
      (fun error =>
         log (ErrorConvertingHtml error) ;;
         respond 500 (HtmlConversionFailed (Js.messageOf error)) ;;
         return_)
  else if Js.truthy (mediaContent body) && Js.truthy (mediaType body) then
    let content := Js.orEmpty (mediaContent body) in
    let type := Js.orEmpty (mediaType body) in
    tryCatch
      (if (type =? "base64")%string then
         m <- sendBase64Media content ;;
         ret (Some m)
       else if (type =? "url")%string then
         m <- invoke (FromUrl content) (fromUrl ext content) ;;
         ret (Some m)
       else
         respond 400 InvalidMediaType ;;
         return_)
      (fun error =>
         log (ErrorProcessingMedia error) ;;
         respond 500 (MediaProcessingFailed (Js.messageOf error)) ;;
         return_)
  else ret None.

(** [POST /send], lines 75 to 185, behind [apiKeyAuth]. *)
Definition postSend (body : MessageData) : M World unit :=
  call
    (tryCatch
       (if negb (Js.truthy (groupId body)) then
          respond 400 GroupIdRequired ;;
          return_
        else if negb (Js.truthy (message body))
                && negb (Js.truthy (mediaContent body))
                && negb (Js.truthy (html body)) then
          respond 400 ContentRequired ;;
          return_
        else
          let g := Js.orEmpty (groupId body) in
          c <- getWhatsAppClient ;;
          match c with
          | None =>
              respond 503 ClientNotReady ;;
              return_
          | Some client =>
              hasInfo <- readWorld (info client) ;;
              if negb hasInfo then
                respond 503 ClientNotReady ;;
                return_
              else
                let captionText := Js.orEmpty (message body) in
                media <- sendResolveMedia body ;;
                match media with
                | Some m =>
                    let mediaOptions := OptionsMedia captionText false in
                    invoke (SendMessage g (Media m) mediaOptions)
                      (sendMessage client g (Media m) mediaOptions) ;;
                    log (InfoMediaSent g)
                | None =>
                    invoke (SendMessage g (Text captionText) OptionsUndefined)
                      (sendMessage client g (Text captionText) OptionsUndefined) ;;
                    log (InfoTextSent g)
                end ;;
                respond 200 (MessageSent g) ;;
                return_
          end)
       (fun error =>
          log (ErrorWebhook error) ;;
          respond 500 (SendFailed (Js.messageOf error)))).

Variable cfg : Config.

(** Lines 260 to 307 of [POST /send-batch]: the value of [media] for the
    message of index [i] among [n]. *)
Definition batchResolveMedia (n i : nat) (messageData : MessageData)
  : M World (option MessageMedia) :=
  if Js.truthy (html messageData) then
    tryCatch
      (f <- htmlToImage
              (ArgObject (html messageData) (vw messageData) (vh messageData)) ;;
       m <- invoke (FromFilePath ("./" ++ filePath f))
              (fromFilePath ext ("./" ++ filePath f)) ;;
       log (InfoHtmlConverted (fileName f)) ;;
       ret (Some m))
      (fun error =>
         incrFailure ;;
         log (ErrorConvertingHtmlAt (S i) n error) ;;
         continue)
  else if Js.truthy (mediaContent messageData)
          && Js.truthy (mediaType messageData) then
    let content := Js.orEmpty (mediaContent messageData) in
    let type := Js.orEmpty (mediaType messageData) in
    tryCatch
      (if (type =? "base64")%string then
         ret (Some (batchBase64Media content))
       else if (type =? "url")%string then
         m <- invoke (FromUrl content) (fromUrl ext content) ;;
         ret (Some m)
       else
         incrFailure ;;
         log (WarnInvalidMediaType (S i) n
                (Js.orEmpty (groupId messageData)) type) ;;
         continue)
      (fun error =>
         incrFailure ;;
         log (ErrorProcessingMediaAt (S i) n error) ;;
         continue)
  else ret None.

(** Lines 309 to 334: the send with retries and the handling of its
    failure. *)
Definition sendStage (client : Client World) (n i : nat) (g captionText : string)
    (media : option MessageMedia) : M World unit :=
  tryCatch
    (match media with
     | Some m =>
         sendMessageWithRetry client g (Media m) (OptionsMedia captionText false) ;;
         log (InfoBatchMediaSent (S i) n g)
     | None =>
         sendMessageWithRetry client g (Text captionText) OptionsUndefined ;;
         log (InfoBatchTextSent (S i) n g)
     end ;;
     incrSuccess)
    (fun sendError =>
       incrFailure ;;
       log (ErrorAllRetriesFailed (S i) n sendError) ;;
       widFactory <-
         match sendError with
         | Js.Error msg => ret (Js.includes msg "WidFactory")
         | Js.NotAnError => throw Js.typeErrorIncludes
         end ;;
       if widFactory then
         log InfoIncreasingDelay ;;
         sleep Cooldown (MESSAGE_DELAY_MS cfg * 2)
       else ret tt).

(** Lines 336 to 343: the delay before the next message and the progress
    line. *)
Definition afterSend (n i : nat) : M World unit :=
  (if Z.of_nat i <? Z.of_nat n - 1 then
     log (InfoWaitingBeforeNext (MESSAGE_DELAY_MS cfg)) ;;
     sleep InterMessage (MESSAGE_DELAY_MS cfg)
   else ret tt) ;;
  t <- readTally ;;
  log (InfoProgress (S i) n (successCount t) (failureCount t)).

(** The body of the loop of [POST /send-batch], lines 243 to 352, for
    [messages[i]] in a batch of [n]. Destructuring [null] raises a
    [TypeError]. *)
Definition processMessage (client : Client World) (n i : nat)
    (messageData : option MessageData) : M World unit :=
  tryCatch
    match messageData with
    | None => throw Js.typeErrorDestructure
    | Some md =>
        if negb (Js.truthy (groupId md)) then
          incrFailure ;;
          log (WarnMissingGroupId (S i) n) ;;
          continue
        else if negb (Js.truthy (message md))
                && negb (Js.truthy (mediaContent md))
                && negb (Js.truthy (html md)) then
          incrFailure ;;
          log (WarnMissingContent (S i) n (Js.orEmpty (groupId md))) ;;
          continue
        else
          let captionText := Js.orEmpty (message md) in
          media <- batchResolveMedia n i md ;;
          sendStage client n i (Js.orEmpty (groupId md)) captionText media ;;
          afterSend n i
    end
    (fun messageError =>
       incrFailure ;;
       log (ErrorUnexpected (S i) n messageError)).

(** [POST /send-batch], lines 187 to 360, behind [apiKeyAuth]. *)
Definition postSendBatch (messages : Messages) : M World unit :=
  call
    (tryCatch
       match messages with
       | NotAnArray =>
           log ErrorInvalidMessages ;;
           respond 400 MustBeArray ;;
           return_
       | ArrayOf items =>
           let n := List.length items in
           if (n =? 0)%nat then
             log ErrorEmptyMessages ;;
             respond 400 EmptyArray ;;
             return_
           else if Z.of_nat n >? MAX_BATCH_SIZE cfg then
             log (ErrorBatchSize n) ;;
             respond 400 (BatchTooLarge (MAX_BATCH_SIZE cfg)) ;;
             return_
           else
             c <- getWhatsAppClient ;;
             match c with
             | None =>
                 log ErrorClientNotReady ;;
                 respond 503 ClientNotReady ;;
                 return_
             | Some client =>
                 setTally (Some (mkTally 0 0)) ;;
                 respond 202 (Processing n (MESSAGE_DELAY_MS cfg)) ;;
                 forIndexed (processMessage client n) 0 items ;;
                 t <- readTally ;;
                 log (InfoCompleted (successCount t) (failureCount t))
             end
       end
       (fun error => log (LogError error) ;; log (ErrorFatal error))).

(** [GET /health], lines 363 to 370. The [whatsappClient] it reads is
    the binding imported on line 4. *)
Definition healthStatus (w : World) : string :=
  match exportedWhatsAppClient with
  | Some client => if info client w then "ready" else "initializing"
  | None => "initializing"
  end.

Definition getHealth : M World unit :=
  status <- readWorld healthStatus ;;
  respond 200 (Health status).

End Router.

(** ** Reading a trace *)

(** The durations of the timers armed at [site], in order. *)
Fixpoint timers (site : Timer) (evs : list Event) : list Z :=
  match evs with
  | [] => []
  | Sleep s ms :: rest =>
      match site, s with
      | Settle, Settle | Backoff, Backoff | Cooldown, Cooldown
      | InterMessage, InterMessage => ms :: timers site rest
      | _, _ => timers site rest
      end
  | _ :: rest => timers site rest
  end.

(** The attempts that failed, with the message logged for each. *)
Fixpoint failedAttempts (evs : list Event) : list (Z * option string) :=
  match evs with
  | [] => []
  | Log (WarnAttemptFailed attempt _ msg) :: rest =>
      (attempt, msg) :: failedAttempts rest
  | _ :: rest => failedAttempts rest
  end.

(** The calls of [client.sendMessage] and of [client.refreshState]. *)
Fixpoint sends (evs : list Event) : list (string * Content * SendOptions) :=
  match evs with
  | [] => []
  | SendMessage g c o :: rest => (g, c, o) :: sends rest
  | _ :: rest => sends rest
  end.

Fixpoint refreshCalls (evs : list Event) : nat :=
  match evs with
  | [] => 0%nat
  | RefreshState :: rest => S (refreshCalls rest)
  | _ :: rest => refreshCalls rest
  end.

(** The contents handed to the browser by [htmlToImage]. *)
Fixpoint rendered (evs : list Event) : list (option string * Z * Z) :=
  match evs with
  | [] => []
  | Puppeteer c w h :: rest => (c, w, h) :: rendered rest
  | _ :: rest => rendered rest
  end.

(** The answers given to the HTTP caller. *)
Fixpoint responses (evs : list Event) : list (Z * Body) :=
  match evs with
  | [] => []
  | Respond status body :: rest => (status, body) :: responses rest
  | _ :: rest => responses rest
  end.

(** The events recorded between the states [st] and [st']. *)
Definition since {World : Type} (st st' : State World) : list Event :=
  skipn (List.length (trace st)) (trace st').

(** [successCount + failureCount] *)
Definition counted {World : Type} (st : State World) : nat :=
  match tally st with
  | Some t => (successCount t + failureCount t)%nat
  | None => 0%nat
  end.

(** The events of one attempt: none when the session is found
    uninitialised, else the settle delay and the send. *)
Definition attemptEvents (g : string) (c : Content) (o : SendOptions)
    (evs : list Event) : Prop :=
  evs = [] \/ evs = [Sleep Settle 2000; SendMessage g c o].

(** The events of the refresh after a backoff: none without a
    [refreshState] method, else the call, followed by a warning when it
    rejects. *)
Definition refreshEvents {World : Type} (client : Client World)
    (evs : list Event) : Prop :=
  match refreshState client with
  | None => evs = []
  | Some _ => evs = [RefreshState]
              \/ exists msg, evs = [RefreshState; Log (WarnRefreshFailed msg)]
  end.

(** The events of a failed attempt whose error is retried: the warning,
    the announcement of the delay, the backoff, the refresh. *)
Definition retriedFailure {World : Type} (client : Client World) (attempt : Z)
    (msg : string) (evs : list Event) : Prop :=
  exists refresh,
    refreshEvents client refresh
    /\ evs = Log (WarnAttemptFailed attempt MAX_RETRIES (Some msg))
             :: Log (InfoWaitingBeforeRetry (2 ^ attempt * 3000))
             :: Sleep Backoff (2 ^ attempt * 3000) :: refresh.

(** ** Predicates on computations *)

(** [m] relates the state it starts from to the state it ends in,
    however it completes. *)
Definition Preserves {World : Type} (R : State World -> State World -> Prop)
    {A : Type} (m : M World A) : Prop :=
  forall st st' r, m st = (st', r) -> R st st'.

(** [m] completes normally or throws: it never breaks, continues or
    returns. *)
Definition Plain {World A : Type} (m : M World A) : Prop :=
  forall st st' r, m st = (st', r) -> (exists a, r = Normal a) \/ (exists e, r = Throw e).

(** The counters are left as they were. *)
Definition sameTally {World : Type} (st st' : State World) : Prop :=
  tally st' = tally st.

(** The trace has grown by events that all satisfy [Q]. *)
Definition appends {World : Type} (Q : Event -> bool) (st st' : State World) : Prop :=
  exists evs, trace st' = (trace st ++ evs)%list /\ forallb Q evs = true.

(** The events of the retry policy: it arms the settle and backoff
    timers only. *)
Definition retryEvent (e : Event) : bool :=
  match e with
  | Sleep Settle _ | Sleep Backoff _ | SendMessage _ _ _ | RefreshState => true
  | Log (WarnAttemptFailed _ _ _) | Log (InfoWaitingBeforeRetry _)
  | Log (WarnRefreshFailed _) => true
  | _ => false
  end.

(** Every event but the timer between two messages. *)
Definition notInterMessage (e : Event) : bool :=
  match e with
  | Sleep InterMessage _ => false
  | _ => true
  end.

(** ** A scripted world

    The world is the list of the outcomes of the coming calls of
    [client.sendMessage]; once it is used up a send resolves. The
    session is initialised and has its identity; rendering and both
    media factories succeed. *)

Module Scripted.

Definition World : Type := list (unit + Js.Thrown).

Definition scriptedSend (_ : string) (_ : Content) (_ : SendOptions) (w : World)
  : World * (unit + Js.Thrown) :=
  match w with
  | [] => ([], inl tt)
  | outcome :: rest => (rest, outcome)
  end.

Definition client : Client World :=
  mkClient World (fun _ => true) (fun _ => true) (fun _ => true) scriptedSend None.

(** The same session with a [refreshState] method that rejects. *)
Definition clientWithHook : Client World :=
  mkClient World (fun _ => true) (fun _ => true) (fun _ => true) scriptedSend
    (Some (fun w => (w, inr (Js.Error "Protocol error")))).

Definition ext : Externals World :=
  mkExternals World
    (fun _ w => w)
    (fun _ _ _ w => (w, inl (mkFile "images/1.png" "1.png")))
    (fun _ w => (w, inl (mkMedia "image/png" "iVBORw0KGgo=")))
    (fun _ w => (w, inl (mkMedia "image/jpeg" "/9j/4AAQ"))).

(** The state once [client.on('ready')] has called [setWhatsAppClient]. *)
Definition ready (c : Client World) (script : World) : State World :=
  fst (setWhatsAppClient (Some c) (processStart script)).

Definition textTo (g body : string) : MessageData :=
  mkMessage (Some g) (Some body) None None None None None.

Definition base64To (g content : string) : MessageData :=
  mkMessage (Some g) None (Some "base64") (Some content) None None None.

Definition htmlTo (g markup : string) : MessageData :=
  mkMessage (Some g) None None None (Some markup) None None.

Definition withoutGroupId (body : string) : MessageData :=
  mkMessage None (Some body) None None None None None.

End Scripted.

(** * The rest of the router and its callers *)

(** ** [apiKeyAuth], lines 12 to 20 of [src/routes/webhook.js] *)

(** [a !== b] on two values that are strings or [undefined]. *)
Definition strictlyDiffers (a b : option string) : bool :=
  match a, b with
  | Some x, Some y => negb (x =? y)%string
  | None, None => false
  | _, _ => true
  end.

(** What the middleware does with a request: it answers 401 with
    [{ success: false, message: 'Unauthorized: Invalid API Key' }], or
    it calls [next()], which runs the handler of the route. *)
Inductive AuthDecision : Type := Unauthorized | Next.

(** [apiKey] is [req.headers['x-api-key']] and [API_KEY] is
    [process.env.API_KEY]. *)
Definition apiKeyAuth (apiKey API_KEY : option string) : AuthDecision :=
  if negb (Js.truthy apiKey) || strictlyDiffers apiKey API_KEY
  then Unauthorized
  else Next.

(** ** More readings of a trace *)

(** Every timer armed, with its call site. *)
Fixpoint allTimers (evs : list Event) : list (Timer * Z) :=
  match evs with
  | [] => []
  | Sleep site ms :: rest => (site, ms) :: allTimers rest
  | _ :: rest => allTimers rest
  end.

(** Events that are not an answer to the HTTP caller. *)
Definition notRespond (e : Event) : bool :=
  match e with
  | Respond _ _ => false
  | _ => true
  end.

(** Events that are not a cooldown timer. *)
Definition notCooldown (e : Event) : bool :=
  match e with
  | Sleep Cooldown _ => false
  | _ => true
  end.

(** A message of a batch that carries a group id and a text and nothing
    else to resolve. *)
Definition plainText (md : MessageData) : bool :=
  Js.truthy (groupId md) && Js.truthy (message md)
  && negb (Js.truthy (html md))
  && negb (Js.truthy (mediaContent md) && Js.truthy (mediaType md)).

(** ** Two more worlds *)

(** A session that is initialised and whose sends all resolve. *)
Module Steady.

Definition World : Type := unit.

Definition client : Client World :=
  mkClient World (fun _ => true) (fun _ => true) (fun _ => true)
    (fun _ _ _ w => (w, inl tt)) None.

Definition ext : Externals World :=
  mkExternals World
    (fun _ w => w)
    (fun _ _ _ w => (w, inl (mkFile "images/1.png" "1.png")))
    (fun _ w => (w, inl (mkMedia "image/png" "iVBORw0KGgo=")))
    (fun _ w => (w, inl (mkMedia "image/jpeg" "/9j/4AAQ"))).

Definition ready : State World :=
  fst (setWhatsAppClient (Some client) (processStart tt)).

End Steady.

(** A session whose browser page is gone; rendering and the media
    factories fail as well. *)
Module Down.

Definition World : Type := unit.

Definition client : Client World :=
  mkClient World (fun _ => false) (fun _ => true) (fun _ => false)
    (fun _ _ _ w => (w, inl tt)) None.

Definition ext : Externals World :=
  mkExternals World
    (fun _ w => w)
    (fun _ _ _ w => (w, inr (Js.Error "Failed to launch the browser process")))
    (fun _ w => (w, inr (Js.Error "ENOENT: no such file or directory")))
    (fun _ w => (w, inr (Js.Error "fetch failed"))).

Definition stored : State World :=
  fst (setWhatsAppClient (Some client) (processStart tt)).

End Down.

(** ** The image cleanup, lines 12 and 70 to 111 of [src/utils/imageUtils.js] *)

Module Cleanup.

(** *** [parseInt(s, 10)] *)

(** White space and line terminators below 256, which [parseInt] skips
    at the start of its argument. *)
Definition isWhiteSpace (c : ascii) : bool :=
  let n := nat_of_ascii c in
  (((9 <=? n) && (n <=? 13)) || (n =? 32) || (n =? 160))%nat.

Definition isDigit (c : ascii) : bool :=
  let n := nat_of_ascii c in
  ((48 <=? n) && (n <=? 57))%nat.

Definition digitValue (c : ascii) : Z := Z.of_nat (nat_of_ascii c) - 48.

(** The number a run of decimal digits denotes, after the digits read
    so far. *)
Fixpoint decimal (acc : Z) (digits : string) : Z :=
  match digits with
  | EmptyString => acc
  | String c rest => decimal (acc * 10 + digitValue c) rest
  end.

(** [parseInt(s, 10)]: leading white space is skipped, one sign is read,
    then the longest run of decimal digits; [None] stands for [NaN],
    the result when that run is empty. Numbers are exact: the rounding
    of integers above 2^53 is left out. *)
Definition parseInt (s : string) : option Z :=
  let trimmed := DataUri.dropWhile isWhiteSpace s in
  let '(sign, unsigned) :=
    match trimmed with
    | String "-" rest => (-1, rest)
    | String "+" rest => (1, rest)
    | _ => (1, trimmed)
    end in
  let digits := DataUri.takeWhile isDigit unsigned in
  if (digits =? EmptyString)%string then None else Some (sign * decimal 0 digits).

(** [parseInt(process.env.IMAGE_RETENTION_DAYS || '1', 10)] *)
Definition IMAGE_RETENTION_DAYS (env : option string) : option Z :=
  parseInt (if Js.truthy env then Js.orEmpty env else "1").

(** *** The directory and the clock *)

(** What the cleanup calls: [fs.readdir(IMAGE_DIR)], [new Date()] in
    milliseconds, [(await fs.stat(p)).mtime] in milliseconds,
    [fs.unlink(p)], and [path.join(IMAGE_DIR, file)]. *)
Record Files (World : Type) : Type := mkFiles {
  readdir : World -> World * (list string + Js.Thrown);
  dateNow : World -> Z;
  statMtime : string -> World -> World * (Z + Js.Thrown);
  unlink : string -> World -> World * (unit + Js.Thrown);
  pathJoin : string -> string
}.
Arguments readdir {World}.
Arguments dateNow {World}.
Arguments statMtime {World}.
Arguments unlink {World}.
Arguments pathJoin {World}.

Inductive CleanupLine : Type :=
| InfoRunningCleanup
| InfoDeletedOldImage (filePath : string)
| InfoCleanupCompleted
| ErrorCleaningUp (error : Js.Thrown)
| ErrorScheduledCleanup (error : Js.Thrown).

Inductive FsEvent : Type :=
| Readdir
| Stat (filePath : string)
| Unlink (filePath : string)
| Logged (line : CleanupLine).

(** The state of a run: the outside world and the calls made so far. *)
Record Run (World : Type) : Type := mkRun {
  disk : World;
  journal : list FsEvent
}.
Arguments mkRun {World}.
Arguments disk {World}.
Arguments journal {World}.

(** An asynchronous function that resolves or rejects. *)
Definition Job (World A : Type) : Type := Run World -> Run World * (A + Js.Thrown).

Section Jobs.

Context {World : Type}.

Definition pure {A : Type} (a : A) : Job World A := fun st => (st, inl a).

Definition raise {A : Type} (e : Js.Thrown) : Job World A := fun st => (st, inr e).

Definition andThen {A B : Type} (m : Job World A) (k : A -> Job World B) : Job World B :=
  fun st =>
    match m st with
    | (st', inl a) => k a st'
    | (st', inr e) => (st', inr e)
    end.

(** [try { m } catch (error) { h error }] *)
Definition attempt {A : Type} (m : Job World A) (h : Js.Thrown -> Job World A)
  : Job World A :=
  fun st =>
    match m st with
    | (st', inl a) => (st', inl a)
    | (st', inr e) => h e st'
    end.

(** [for (const x of l) { body x }] *)
Fixpoint forOf {A : Type} (body : A -> Job World unit) (l : list A) : Job World unit :=
  match l with
  | [] => pure tt
  | x :: rest => andThen (body x) (fun _ => forOf body rest)
  end.

(** An awaited call: the event is recorded, then the call resolves or
    rejects. *)
Definition perform {A : Type} (e : FsEvent) (f : World -> World * (A + Js.Thrown))
  : Job World A :=
  fun st =>
    let '(w, answer) := f (disk st) in
    (mkRun w (journal st ++ [e]), answer).

Definition note (line : CleanupLine) : Job World unit :=
  fun st => (mkRun (disk st) (journal st ++ [Logged line]), inl tt).

Definition observe {A : Type} (f : World -> A) : Job World A :=
  fun st => (st, inl (f (disk st))).

End Jobs.

Declare Scope job_scope.
Delimit Scope job_scope with job.
Notation "x <- m ;; k" := (andThen m (fun x => k))
  (at level 61, m at next level, right associativity) : job_scope.
Notation "m ;; k" := (andThen m (fun _ => k))
  (at level 61, right associativity) : job_scope.

(** [fileAge >= IMAGE_RETENTION_DAYS], where [fileAge] is
    [(now - stats.mtime) / (1000 * 60 * 60 * 24)]: the quotient is
    compared exactly, by multiplying both sides by the milliseconds of a
    day, which agrees with the comparison of doubles below 10^8 days.
    Every comparison with [NaN] is false. *)
Definition oldEnough (retention : option Z) (now mtime : Z) : bool :=
  match retention with
  | Some days => days * (1000 * 60 * 60 * 24) <=? now - mtime
  | None => false
  end.

Section Cleaning.

Context {World : Type}.
Variable files : Files World.
Variable retention : option Z.

(** [cleanupOldImages()], lines 88 to 111. *)
Definition cleanupOldImages : Job World unit :=
  attempt
    (names <- perform Readdir (readdir files) ;;
     now <- observe (dateNow files) ;;
     forOf
       (fun file =>
          let filePath := pathJoin files file in
          mtime <- perform (Stat filePath) (statMtime files filePath) ;;
          if oldEnough retention now mtime then
            perform (Unlink filePath) (unlink files filePath) ;;
            note (InfoDeletedOldImage filePath)
          else pure tt)
       names ;;
     note InfoCleanupCompleted)%job
    (fun error => (note (ErrorCleaningUp error) ;; raise error)%job).

(** The job [setupImageCleanupScheduler] schedules for every midnight,
    lines 75 to 82. *)
Definition scheduledCleanup : Job World unit :=
  attempt
    (note InfoRunningCleanup ;; cleanupOldImages)%job
    (fun error => note (ErrorScheduledCleanup error)).

End Cleaning.

(** The paths handed to [fs.stat] and to [fs.unlink], in order. *)
Fixpoint statted (evs : list FsEvent) : list string :=
  match evs with
  | [] => []
  | Stat p :: rest => p :: statted rest
  | _ :: rest => statted rest
  end.

Fixpoint unlinked (evs : list FsEvent) : list string :=
  match evs with
  | [] => []
  | Unlink p :: rest => p :: unlinked rest
  | _ :: rest => unlinked rest
  end.

Fixpoint lines (evs : list FsEvent) : list CleanupLine :=
  match evs with
  | [] => []
  | Logged line :: rest => line :: lines rest
  | _ :: rest => lines rest
  end.

(** Events other than a call of [fs.unlink]. *)
Definition notUnlink (e : FsEvent) : bool :=
  match e with
  | Unlink _ => false
  | _ => true
  end.

(** [m] only adds to the journal, and adds events that satisfy [Q]. *)
Definition adds {World A : Type} (Q : FsEvent -> bool) (m : Job World A) : Prop :=
  forall st st' r,
    m st = (st', r) ->
    exists evs, journal st' = (journal st ++ evs)%list /\ forallb Q evs = true.

(** A directory whose listing does not change while the cleanup runs:
    the files with the time of their last change, the clock, and the
    paths [unlink] refuses, as it does sub-directories. The world is
    the list of the paths unlinked so far. *)
Module Shelf.

Definition World : Type := list string.

Definition lookup (listing : list (string * Z)) (path : string) : option Z :=
  match List.find (fun entry => ("images/" ++ fst entry =? path)%string) listing with
  | Some entry => Some (snd entry)
  | None => None
  end.

Definition files (listing : list (string * Z)) (now : Z) (refused : string -> bool)
  : Files World :=
  mkFiles World
    (fun w => (w, inl (map fst listing)))
    (fun _ => now)
    (fun path w =>
       match lookup listing path with
       | Some mtime => (w, inl mtime)
       | None => (w, inr (Js.Error "ENOENT: no such file or directory"))
       end)
    (fun path w =>
       if refused path
       then (w, inr (Js.Error "EISDIR: illegal operation on a directory"))
       else (path :: w, inl tt))
    (fun file => "images/" ++ file).

Definition start : Run World := mkRun [] [].

End Shelf.

End Cleanup.

(** ** The start of the process and its reconnections, lines 61 to 69,
    82 to 96, 109 to 118 and 201 to 230 of [src/index.js] *)

(** [GET /api/status], lines 61 to 69: [res.json(...)], that is 200,
    with 'WhatsApp client is ready.', or [res.status(503).json(...)]
    with 'WhatsApp client is not ready.'. *)
Inductive StatusReply : Type := StatusReady | StatusNotReady.

Definition getApiStatus {World : Type} : M World StatusReply :=
  client <- getWhatsAppClient ;;
  match client with
  | Some _ => ret StatusReady
  | None => ret StatusNotReady
  end.

Module Boot.

(** The callbacks the process hands to [setTimeout]. *)
Inductive Callback : Type :=
| ReconnectAfterDisconnect
| RestartAfterBrowserDisconnect
| ReinitializeAfterAuthFailure
| RetryInitialization (delay : Z).

Inductive BootLine : Type :=
| WarnDisconnected (reason : string)
| InfoAttemptingReconnect
| WarnBrowserDisconnected
| ErrorAuthFailure (msg : string)
| InfoReconnectAfterAuthFailure
| ErrorReinitializeFailed (err : Js.Thrown)
| ErrorMaxInitAttempts
| InfoInitAttempt (attempt max : Z)
| InfoInitStarted
| ErrorInitFailed (attempt : Z) (message : option string)
| InfoRetrying (seconds : Z).

(** The two places that call [client.initialize()]. *)
Inductive InitSite : Type := ByInitializeClient | AfterAuthFailure.

(** [Unhandled e] is the rejection of a promise nobody awaits. *)
Inductive BootEvent : Type :=
| Initialize (site : InitSite)
| SetTimeout (ms : Z) (callback : Callback)
| Noted (line : BootLine)
| Unhandled (e : Js.Thrown).

(** The process: the session and what is behind it, [initAttempts], the
    timers armed and not fired yet, and what has happened so far. A
    call of [client.initialize()] settles before the next event is
    handled. *)
Record Process (World : Type) : Type := mkProcess {
  session : World;
  initAttempts : Z;
  armed : list (Z * Callback);
  history : list BootEvent
}.
Arguments mkProcess {World}.
Arguments session {World}.
Arguments initAttempts {World}.
Arguments armed {World}.
Arguments history {World}.

Definition maxInitAttempts : Z := 5.

Section Boot.

Context {World : Type}.

(** [client.initialize()] *)
Variable initialize : World -> World * (unit + Js.Thrown).

Definition noted (line : BootLine) (p : Process World) : Process World :=
  mkProcess (session p) (initAttempts p) (armed p) (history p ++ [Noted line]).

Definition setTimeout (callback : Callback) (ms : Z) (p : Process World)
  : Process World :=
  mkProcess (session p) (initAttempts p) (armed p ++ [(ms, callback)])
    (history p ++ [SetTimeout ms callback]).

Definition setInitAttempts (n : Z) (p : Process World) : Process World :=
  mkProcess (session p) n (armed p) (history p).

(** [await client.initialize()] at [site]: the process after the call,
    and how the call settled. *)
Definition callInitialize (site : InitSite) (p : Process World)
  : Process World * (unit + Js.Thrown) :=
  let '(w, answer) := initialize (session p) in
  (mkProcess w (initAttempts p) (armed p) (history p ++ [Initialize site]), answer).

(** [initializeClient], lines 204 to 228: the process it leaves, and
    the promise it returns, resolved or rejected. *)
Definition initializeClient (p : Process World) : Process World * (unit + Js.Thrown) :=
  if maxInitAttempts <=? initAttempts p then
    (noted ErrorMaxInitAttempts p, inl tt)
  else
    let p := setInitAttempts (initAttempts p + 1) p in
    let p := noted (InfoInitAttempt (initAttempts p) maxInitAttempts) p in
    match callInitialize ByInitializeClient p with
    | (p, inl _) =>
        let p := noted InfoInitStarted p in
        (setInitAttempts 0 p, inl tt)
    | (p, inr err) =>
        let p := noted (ErrorInitFailed (initAttempts p) (Js.messageOf err)) p in
        match err with
        | Js.Error msg =>
            let delay :=
              if Js.includes msg "ERR_INTERNET_DISCONNECTED" then 30000 else 15000 in
            (setTimeout (RetryInitialization delay) delay p, inl tt)
        | Js.NotAnError => (p, inr Js.typeErrorIncludes)
        end
    end.

(** [initializeClient();] as a statement: the promise is dropped. *)
Definition startInitializeClient (p : Process World) : Process World :=
  match initializeClient p with
  | (p, inl _) => p
  | (p, inr e) => mkProcess (session p) (initAttempts p) (armed p)
                    (history p ++ [Unhandled e])
  end.

(** The body of a callback, when its timer fires. *)
Definition runCallback (callback : Callback) (p : Process World) : Process World :=
  match callback with
  | ReconnectAfterDisconnect =>
      startInitializeClient (noted InfoAttemptingReconnect p)
  | RestartAfterBrowserDisconnect =>
      startInitializeClient p
  | ReinitializeAfterAuthFailure =>
      let p := noted InfoReconnectAfterAuthFailure p in
      match callInitialize AfterAuthFailure p with
      | (p, inl _) => p
      | (p, inr err) => noted (ErrorReinitializeFailed err) p
      end
  | RetryInitialization delay =>
      startInitializeClient (noted (InfoRetrying (delay / 1000)) p)
  end.

(** What happens to the process: the events of the client that the
    handlers of lines 82 to 96 and 109 to 118 listen to, and a timer
    that fires, the [k]-th of those armed. *)
Inductive Happening : Type :=
| Disconnected (reason : string)
| BrowserDisconnect
| AuthFailure (msg : string)
| Fires (k : nat).

Fixpoint removeNth {A : Type} (k : nat) (l : list A) : list A :=
  match l, k with
  | [], _ => []
  | _ :: rest, O => rest
  | x :: rest, S k => x :: removeNth k rest
  end.

Definition handle (h : Happening) (p : Process World) : Process World :=
  match h with
  | Disconnected reason =>
      setTimeout ReconnectAfterDisconnect 15000 (noted (WarnDisconnected reason) p)
  | BrowserDisconnect =>
      setTimeout RestartAfterBrowserDisconnect 10000 (noted WarnBrowserDisconnected p)
  | AuthFailure msg =>
      setTimeout ReinitializeAfterAuthFailure 10000 (noted (ErrorAuthFailure msg) p)
  | Fires k =>
      match nth_error (armed p) k with
      | Some (_, callback) =>
          runCallback callback
            (mkProcess (session p) (initAttempts p) (removeNth k (armed p)) (history p))
      | None => p
      end
  end.

Definition handleAll (hs : list Happening) (p : Process World) : Process World :=
  fold_left (fun p h => handle h p) hs p.

(** The process once the module body has run: [let initAttempts = 0]
    and the call [initializeClient()] of line 230. *)
Definition boot (w : World) : Process World :=
  startInitializeClient (mkProcess w 0 [] []).

End Boot.

(** The calls of [client.initialize()] made by [initializeClient], and
    the delays of the timers armed. *)
Fixpoint initializations (evs : list BootEvent) : nat :=
  match evs with
  | [] => 0%nat
  | Initialize ByInitializeClient :: rest => S (initializations rest)
  | _ :: rest => initializations rest
  end.

Fixpoint delays (evs : list BootEvent) : list Z :=
  match evs with
  | [] => []
  | SetTimeout ms _ :: rest => ms :: delays rest
  | _ :: rest => delays rest
  end.

End Boot.

(** * Properties *)

(** ** The data-URI pattern *)

Section DataUriFacts.

Import DataUri.

Lemma append_assoc (a b c : string) : ((a ++ b) ++ c = a ++ (b ++ c))%string.
Proof. induction a as [|x a IH]; simpl; [reflexivity | now rewrite IH]. Qed.

Lemma stripPrefix_append (p s : string) : stripPrefix p (p ++ s) = Some s.
Proof.
  induction p as [|a p IH]; simpl.
  - now destruct s.
  - now rewrite Ascii.eqb_refl.
Qed.

Lemma stripPrefix_Some (p s r : string) :
  stripPrefix p s = Some r -> s = (p ++ r)%string.
Proof.
  revert s; induction p as [|a p IH]; intros s H.
  - destruct s; simpl in H; now inversion H.
  - destruct s as [|b s]; simpl in H; [discriminate|].
    destruct (Ascii.eqb_spec a b) as [->|]; [|discriminate].
    simpl. now rewrite (IH s H).
Qed.

Lemma startsWith_stripPrefix (p s : string) :
  Js.startsWith s p = true <-> exists r, stripPrefix p s = Some r.
Proof.
  unfold Js.startsWith. revert s; induction p as [|a p IH]; intros s.
  - split; intros _; [exists s|]; now destruct s.
  - destruct s as [|b s]; simpl.
    + split; [discriminate | intros [r H]; discriminate].
    + destruct (ascii_dec a b) as [->|Hne].
      * rewrite Ascii.eqb_refl. apply IH.
      * destruct (Ascii.eqb_spec a b); [contradiction|].
        split; [discriminate | intros [r H]; discriminate].
Qed.

Lemma startsWith_append (p s : string) : Js.startsWith (p ++ s) p = true.
Proof.
  apply startsWith_stripPrefix. exists s. apply stripPrefix_append.
Qed.

(** A greedy class stops exactly where the class stops. *)
Lemma takeWhile_stops (p : ascii -> bool) (m : string) (c : ascii) (rest : string) :
  allChars p m = true -> p c = false ->
  takeWhile p (m ++ String c rest) = m
  /\ dropWhile p (m ++ String c rest) = String c rest.
Proof.
  intros Hm Hc. induction m as [|a m IH]; simpl in *.
  - now rewrite Hc.
  - apply andb_true_iff in Hm as [Ha Hm]. rewrite Ha.
    destruct (IH Hm) as [-> ->]. now split.
Qed.

Lemma takeWhile_all (p : ascii -> bool) (s : string) :
  allChars p (takeWhile p s) = true.
Proof.
  induction s as [|a s IH]; simpl; [reflexivity|].
  destruct (p a) eqn:Ha; simpl; [now rewrite Ha | reflexivity].
Qed.

Lemma takeWhile_dropWhile (p : ascii -> bool) (s : string) :
  (takeWhile p s ++ dropWhile p s)%string = s.
Proof.
  induction s as [|a s IH]; simpl; [reflexivity|].
  destruct (p a); simpl; [now rewrite IH | reflexivity].
Qed.

(** The first character of a string that leaves the class splits it. *)
Lemma split_at_first_outsider (p : ascii -> bool) (s : string) :
  allChars p s = false ->
  exists m c rest, s = (m ++ String c rest)%string
                   /\ allChars p m = true /\ p c = false.
Proof.
  induction s as [|a s IH]; simpl; [discriminate|].
  destruct (p a) eqn:Ha; simpl; intros H.
  - destruct (IH H) as (m & c & rest & -> & Hm & Hc).
    exists (String a m), c, rest. simpl. now rewrite Ha, Hm.
  - now exists EmptyString, a, s.
Qed.

Lemma includes_prefix (hay needle : string) :
  String.prefix needle hay = true -> Js.includes hay needle = true.
Proof. intros H. destruct hay; cbn [Js.includes]; now rewrite H. Qed.

Lemma includes_append_left (m hay needle : string) :
  Js.includes hay needle = true -> Js.includes (m ++ hay) needle = true.
Proof.
  intros H. induction m as [|a m IH]; [exact H|].
  cbn [append Js.includes]. rewrite IH. apply orb_true_r.
Qed.

Lemma semicolon_outside_class : mimeChar ";" = false.
Proof. reflexivity. Qed.

(** What the pattern accepts: [data:], a non-empty run of class
    characters, [;base64,], and a non-empty rest without a line
    terminator. *)
Lemma matchDataUri_accepts (mime payload : string) :
  mime <> EmptyString -> allChars mimeChar mime = true ->
  payload <> EmptyString -> allChars dotChar payload = true ->
  matchDataUri ("data:" ++ mime ++ ";base64," ++ payload) = Some (mime, payload).
Proof.
  intros Hm Hcls Hp Hdot. unfold matchDataUri.
  rewrite stripPrefix_append.
  change (mime ++ ";base64," ++ payload)%string
    with (mime ++ String ";" ("base64," ++ payload))%string.
  destruct (takeWhile_stops mimeChar mime ";" ("base64," ++ payload)%string
              Hcls semicolon_outside_class) as [-> ->].
  apply String.eqb_neq in Hm. rewrite Hm.
  change (String ";" ("base64," ++ payload))%string
    with (";base64," ++ payload)%string.
  rewrite stripPrefix_append.
  apply String.eqb_neq in Hp. now rewrite Hp, Hdot.
Qed.

Lemma matchDataUri_only (s mime payload : string) :
  matchDataUri s = Some (mime, payload) ->
  s = ("data:" ++ mime ++ ";base64," ++ payload)%string
  /\ mime <> EmptyString /\ allChars mimeChar mime = true
  /\ payload <> EmptyString /\ allChars dotChar payload = true.
Proof.
  unfold matchDataUri. intros H.
  destruct (stripPrefix "data:" s) as [r|] eqn:Hs; [|discriminate].
  destruct (String.eqb_spec (takeWhile mimeChar r) EmptyString) as [|Hne]; [discriminate|].
  destruct (stripPrefix ";base64," (dropWhile mimeChar r)) as [p|] eqn:Hp;
    [|discriminate].
  destruct (String.eqb_spec p EmptyString) as [|Hpne]; simpl in H; [discriminate|].
  destruct (allChars dotChar p) eqn:Hdot; [|discriminate].
  inversion H; subst mime payload; clear H.
  repeat split; auto using takeWhile_all.
  rewrite (stripPrefix_Some _ _ _ Hs). f_equal.
  rewrite <- (stripPrefix_Some _ _ _ Hp). symmetry. apply takeWhile_dropWhile.
Qed.

(** [;base64,] cannot begin inside itself: a string that starts with it
    and is cut before its end does not continue with [;]. *)
Lemma marker_inside (c : ascii) (m2 rest r : string) :
  stripPrefix ";base64," (String c (m2 ++ ";base64," ++ rest)) = Some r ->
  String.prefix ";base64," (String c m2) = true.
Proof.
  intros H. apply stripPrefix_Some in H. simpl in H. injection H as -> H.
  do 7 (destruct m2 as [|? m2]; simpl in H; [discriminate|];
        injection H as -> H).
  simpl. now destruct m2.
Qed.

End DataUriFacts.

(** ** Relations every step of a computation keeps *)

Section Frame.

Context {World : Type}.
Variable R : State World -> State World -> Prop.
Hypothesis R_refl : forall st, R st st.
Hypothesis R_trans : forall a b c, R a b -> R b c -> R a c.

Lemma preserves_ret {A : Type} (a : A) : Preserves R (ret a).
Proof. intros st st' r H; inversion H; subst; apply R_refl. Qed.

Lemma preserves_throw {A : Type} (e : Js.Thrown) : Preserves R (@throw World A e).
Proof. intros st st' r H; inversion H; subst; apply R_refl. Qed.

Lemma preserves_break {A : Type} : Preserves R (@break World A).
Proof. intros st st' r H; inversion H; subst; apply R_refl. Qed.

Lemma preserves_continue {A : Type} : Preserves R (@continue World A).
Proof. intros st st' r H; inversion H; subst; apply R_refl. Qed.

Lemma preserves_return {A : Type} : Preserves R (@return_ World A).
Proof. intros st st' r H; inversion H; subst; apply R_refl. Qed.

Lemma preserves_readWorld {A : Type} (f : World -> A) : Preserves R (readWorld f).
Proof. intros st st' r H; inversion H; subst; apply R_refl. Qed.

Lemma preserves_readTally : Preserves R (@readTally World).
Proof. intros st st' r H; inversion H; subst; apply R_refl. Qed.

Lemma preserves_getLastError : Preserves R (@getLastError World).
Proof. intros st st' r H; inversion H; subst; apply R_refl. Qed.

Lemma preserves_bind {A B : Type} (m : M World A) (k : A -> M World B) :
  Preserves R m -> (forall a, Preserves R (k a)) -> Preserves R (bind m k).
Proof.
  intros Hm Hk st st' r H. unfold bind in H.
  destruct (m st) as [st1 c] eqn:E. specialize (Hm _ _ _ E).
  destruct c; try (inversion H; subst; exact Hm).
  eapply R_trans; [exact Hm | eapply Hk; exact H].
Qed.

Lemma preserves_tryCatch {A : Type} (m : M World A) (h : Js.Thrown -> M World A) :
  Preserves R m -> (forall e, Preserves R (h e)) -> Preserves R (tryCatch m h).
Proof.
  intros Hm Hh st st' r H. unfold tryCatch in H.
  destruct (m st) as [st1 c] eqn:E. specialize (Hm _ _ _ E).
  destruct c; try (inversion H; subst; exact Hm).
  eapply R_trans; [exact Hm | eapply Hh; exact H].
Qed.

Lemma preserves_call (m : M World unit) : Preserves R m -> Preserves R (call m).
Proof.
  intros Hm st st' r H. unfold call in H.
  destruct (m st) as [st1 c] eqn:E. specialize (Hm _ _ _ E).
  destruct c; inversion H; subst; exact Hm.
Qed.

Lemma preserves_forEach {A : Type} (body : A -> M World unit) (l : list A) :
  (forall x, Preserves R (body x)) -> Preserves R (forEach body l).
Proof.
  intros Hb. induction l as [|x l IH]; intros st st' r H; simpl in H.
  - inversion H; subst; apply R_refl.
  - destruct (body x st) as [st1 c] eqn:E. specialize (Hb _ _ _ _ E).
    destruct c; try (inversion H; subst; exact Hb);
      (eapply R_trans; [exact Hb | eapply IH; exact H]).
Qed.

Lemma preserves_forIndexed {A : Type} (body : nat -> A -> M World unit)
    (l : list A) (i : nat) :
  (forall j x, Preserves R (body j x)) -> Preserves R (forIndexed body i l).
Proof.
  intros Hb. revert i.
  induction l as [|x l IH]; intros i st st' r H; simpl in H.
  - inversion H; subst; apply R_refl.
  - destruct (body i x st) as [st1 c] eqn:E. specialize (Hb _ _ _ _ _ E).
    destruct c; try (inversion H; subst; exact Hb);
      (eapply R_trans; [exact Hb | eapply IH; exact H]).
Qed.

End Frame.

(** Breaks a goal [Preserves R m] down along the structure of [m]. The
    leaves that change the state are left to [solve_leaf]. *)
Ltac frame_with solve_leaf :=
  repeat first
    [ solve_leaf
    | apply preserves_ret | apply preserves_throw | apply preserves_break
    | apply preserves_continue | apply preserves_return
    | apply preserves_readWorld | apply preserves_readTally
    | apply preserves_getLastError
    | apply preserves_bind | apply preserves_tryCatch | apply preserves_call
    | apply preserves_forEach | apply preserves_forIndexed
    | match goal with
      | |- Preserves _ (if ?b then _ else _) => destruct b
      | |- Preserves _ (match ?x with _ => _ end) => destruct x
      end
    | progress intros ].

(** *** The counters are left alone *)

Lemma sameTally_refl {World : Type} (st : State World) : sameTally st st.
Proof. reflexivity. Qed.

Lemma sameTally_trans {World : Type} (a b c : State World) :
  sameTally a b -> sameTally b c -> sameTally a c.
Proof. unfold sameTally; congruence. Qed.

(** *** The trace grows by events of one kind *)

Lemma appends_refl {World : Type} (Q : Event -> bool) (st : State World) :
  appends Q st st.
Proof. exists []. now rewrite app_nil_r. Qed.

Lemma appends_trans {World : Type} (Q : Event -> bool) (a b c : State World) :
  appends Q a b -> appends Q b c -> appends Q a c.
Proof.
  intros (e1 & H1 & Q1) (e2 & H2 & Q2). exists (e1 ++ e2)%list.
  rewrite H2, H1, app_assoc, forallb_app, Q1, Q2. now split.
Qed.

Lemma appends_one {World : Type} (Q : Event -> bool) (st st' : State World)
    (e : Event) :
  trace st' = (trace st ++ [e])%list -> Q e = true -> appends Q st st'.
Proof. intros H HQ. exists [e]. simpl. now rewrite HQ. Qed.

(** ** Reading a trace piece by piece *)

Section TraceFacts.

Lemma timers_app (site : Timer) (a b : list Event) :
  timers site (a ++ b) = (timers site a ++ timers site b)%list.
Proof.
  induction a as [|e a IH]; simpl; [reflexivity|].
  destruct e; auto. destruct site, site0; simpl; now rewrite ?IH.
Qed.

Lemma failedAttempts_app (a b : list Event) :
  failedAttempts (a ++ b) = (failedAttempts a ++ failedAttempts b)%list.
Proof.
  induction a as [|e a IH]; simpl; [reflexivity|].
  destruct e; auto. destruct line; simpl; now rewrite ?IH.
Qed.

Lemma sends_app (a b : list Event) :
  sends (a ++ b) = (sends a ++ sends b)%list.
Proof.
  induction a as [|e a IH]; simpl; [reflexivity|].
  destruct e; simpl; now rewrite ?IH.
Qed.

Lemma refreshCalls_app (a b : list Event) :
  refreshCalls (a ++ b) = (refreshCalls a + refreshCalls b)%nat.
Proof.
  induction a as [|e a IH]; simpl; [reflexivity|].
  destruct e; simpl; now rewrite ?IH.
Qed.

Lemma since_app {World : Type} (st st' : State World) (evs : list Event) :
  trace st' = (trace st ++ evs)%list -> since st st' = evs.
Proof.
  intros H. unfold since. rewrite H, skipn_app, skipn_all, Nat.sub_diag.
  reflexivity.
Qed.

End TraceFacts.

(** ** The retry policy *)

Section RetryFacts.

Context {World : Type}.
Variable ext : Externals World.
Variable client : Client World.
Variables (g : string) (content : Content) (options : SendOptions).

Lemma range_attempts : range 1 MAX_RETRIES = [1; 2; 3].
Proof. reflexivity. Qed.

(** One attempt returns or throws; it touches neither the counters nor
    [lastError], and records the settle delay and the send unless the
    session is found uninitialised. *)
Lemma attemptSend_outcome (st st1 : State World) (r : Completion unit) :
  attemptSend ext client g content options st = (st1, r) ->
  (r = Return \/ exists e, r = Throw e)
  /\ tally st1 = tally st /\ lastError st1 = lastError st
  /\ exists evs, attemptEvents g content options evs
                 /\ trace st1 = (trace st ++ evs)%list.
Proof.
  unfold attemptSend, bind, readWorld, sleep, invoke, return_, throw, ret.
  destruct (negb (pupPage client (world st)) || negb (pupBrowser client (world st))).
  - intros H; inversion H; subst.
    split; [eauto | split; [reflexivity | split; [reflexivity|]]].
    exists []. split; [now left | now rewrite app_nil_r].
  - cbn [world trace whatsappClient tally lastError].
    destruct (sendMessage client g content options (elapse ext 2000 (world st)))
      as [w [[]|err]]; cbn [fst snd]; intros H; inversion H; subst;
      cbn [world trace whatsappClient tally lastError];
      (split; [eauto | split; [reflexivity | split; [reflexivity|]]]);
      (eexists; split; [right; reflexivity | now rewrite <- app_assoc]).
Qed.

(** The backoff and the refresh always complete normally: a rejection of
    [refreshState] is logged and goes no further. *)
Lemma backoffAndRefresh_outcome (attempt : Z) (st st2 : State World)
    (r : Completion unit) :
  backoffAndRefresh ext client attempt st = (st2, r) ->
  r = Normal tt
  /\ tally st2 = tally st /\ lastError st2 = lastError st
  /\ exists refresh,
       refreshEvents client refresh
       /\ trace st2 = (trace st ++ Log (InfoWaitingBeforeRetry (2 ^ attempt * 3000))
                         :: Sleep Backoff (2 ^ attempt * 3000) :: refresh)%list.
Proof.
  unfold backoffAndRefresh, refreshEvents, bind, tryCatch, log, emit, sleep, invoke, ret.
  simpl. destruct (refreshState client) as [refresh|].
  - destruct (refresh _) as [w [[]|err]]; simpl; intros H;
      inversion H; subst; simpl;
      (split; [reflexivity | split; [reflexivity | split; [reflexivity|]]]);
      eexists; (split; [|now rewrite <- !app_assoc]); simpl; eauto.
  - intros H; inversion H; subst; simpl.
    split; [reflexivity | split; [reflexivity | split; [reflexivity|]]].
    exists []. split; [reflexivity | now rewrite <- !app_assoc].
Qed.

(** The [catch] block on an error whose message has a transient marker. *)
Lemma onAttemptFailure_transient (attempt : Z) (msg : string) (st : State World) :
  hasTransientMarker msg = true ->
  exists st2 evs,
    onAttemptFailure ext client attempt (Js.Error msg) st = (st2, Normal tt)
    /\ retriedFailure client attempt msg evs
    /\ trace st2 = (trace st ++ evs)%list
    /\ tally st2 = tally st
    /\ lastError st2 = Some (Js.Error msg).
Proof.
  intros Hm. unfold onAttemptFailure, isRetryable.
  unfold bind at 1. unfold setLastError at 1. unfold bind at 1.
  unfold log at 1, emit at 1. unfold bind at 1. unfold ret at 1. rewrite Hm.
  match goal with
  | |- context [backoffAndRefresh ext client attempt ?s] =>
      destruct (backoffAndRefresh ext client attempt s) as [st2 r] eqn:E
  end.
  apply backoffAndRefresh_outcome in E as (-> & Ht & Hl & refresh & Hr & Htr).
  cbn [world trace whatsappClient tally lastError] in *.
  exists st2, (Log (WarnAttemptFailed attempt MAX_RETRIES (Some msg))
               :: Log (InfoWaitingBeforeRetry (2 ^ attempt * 3000))
               :: Sleep Backoff (2 ^ attempt * 3000) :: refresh).
  split; [reflexivity | split; [| split; [| split; [exact Ht | exact Hl]]]].
  - exists refresh. now split.
  - rewrite Htr, <- app_assoc. reflexivity.
Qed.

(** The [catch] block on an error whose message has no transient marker:
    a warning, then [break]. *)
Lemma onAttemptFailure_permanent (attempt : Z) (msg : string) (st : State World) :
  hasTransientMarker msg = false ->
  onAttemptFailure ext client attempt (Js.Error msg) st
  = (mkState (world st)
       (trace st ++ [Log (WarnAttemptFailed attempt MAX_RETRIES (Some msg))])
       (whatsappClient st) (tally st) (Some (Js.Error msg)), Break).
Proof.
  intros Hm. unfold onAttemptFailure, isRetryable, bind, setLastError, log, emit, ret, break.
  cbn [world trace whatsappClient tally lastError]. now rewrite Hm.
Qed.

(** The [catch] block on a thrown value without a string [message]: the
    [TypeError] of [includes] leaves the function. *)
Lemma onAttemptFailure_not_an_error (attempt : Z) (st : State World) :
  onAttemptFailure ext client attempt Js.NotAnError st
  = (mkState (world st)
       (trace st ++ [Log (WarnAttemptFailed attempt MAX_RETRIES None)])
       (whatsappClient st) (tally st) (Some Js.NotAnError),
     Throw Js.typeErrorIncludes).
Proof. reflexivity. Qed.

End RetryFacts.

Section RetryRuns.

Context {World : Type}.
Variable ext : Externals World.
Variable client : Client World.

Lemma tryCatch_throw {A : Type} (m : M World A) (h : Js.Thrown -> M World A)
    (st st' : State World) (e : Js.Thrown) :
  m st = (st', Throw e) -> tryCatch m h st = h e st'.
Proof. intros H. unfold tryCatch. now rewrite H. Qed.

Lemma forEach_next {A : Type} (body : A -> M World unit) (x : A) (l : list A)
    (st st' : State World) :
  body x st = (st', Normal tt) -> forEach body (x :: l) st = forEach body l st'.
Proof. intros H. simpl. now rewrite H. Qed.

Lemma forEach_break {A : Type} (body : A -> M World unit) (x : A) (l : list A)
    (st st' : State World) :
  body x st = (st', Break) -> forEach body (x :: l) st = (st', Normal tt).
Proof. intros H. simpl. now rewrite H. Qed.

Lemma attemptEvents_read (g : string) (c : Content) (o : SendOptions)
    (evs : list Event) :
  attemptEvents g c o evs ->
  failedAttempts evs = [] /\ timers Backoff evs = []
  /\ refreshCalls evs = 0%nat /\ (List.length (sends evs) <= 1)%nat.
Proof. intros [-> | ->]; simpl; repeat split; lia. Qed.

Lemma retriedFailure_read (attempt : Z) (msg : string) (evs : list Event) :
  retriedFailure client attempt msg evs ->
  failedAttempts evs = [(attempt, Some msg)]
  /\ timers Backoff evs = [2 ^ attempt * 3000]
  /\ refreshCalls evs = match refreshState client with
                        | Some _ => 1%nat
                        | None => 0%nat
                        end
  /\ sends evs = [].
Proof.
  intros (refresh & Hr & ->). unfold refreshEvents in Hr.
  destruct (refreshState client).
  - destruct Hr as [-> | [m ->]]; simpl; repeat split.
  - subst refresh; simpl; repeat split.
Qed.

End RetryRuns.

(** C1. When the three attempts of a send all fail with an error whose
    message contains "WidFactory", "undefined" or "not fully
    initialized", [sendMessageWithRetry] makes exactly these three
    attempts, sleeps [2^attempt * 3000] ms after each failure (6000,
    12000 and 24000 ms), calls [refreshState] after each backoff when
    the session has this method, whatever that call answers, and throws
    the error of the third attempt. *)
Theorem C1_transient_failures_are_retried_with_backoff :
  forall (World : Type) (ext : Externals World) (client : Client World)
         (g : string) (content : Content) (options : SendOptions)
         (st0 st1 st2 st3 : State World) (m1 m2 m3 : string),
    let sent := match options with
                | OptionsUndefined => OptionsEmpty
                | _ => options
                end in
    let attempt := attemptSend ext client g content sent in
    let afterFailure k m st := fst (onAttemptFailure ext client k (Js.Error m) st) in
    attempt (fst (setLastError None st0)) = (st1, Throw (Js.Error m1)) ->
    hasTransientMarker m1 = true ->
    attempt (afterFailure 1 m1 st1) = (st2, Throw (Js.Error m2)) ->
    hasTransientMarker m2 = true ->
    attempt (afterFailure 2 m2 st2) = (st3, Throw (Js.Error m3)) ->
    hasTransientMarker m3 = true ->
    let final := afterFailure 3 m3 st3 in
    sendMessageWithRetry ext client g content options st0
    = (final, Throw (Js.Error m3))
    /\ failedAttempts (since st0 final) = [(1, Some m1); (2, Some m2); (3, Some m3)]
    /\ timers Backoff (since st0 final) = [6000; 12000; 24000]
    /\ refreshCalls (since st0 final) = match refreshState client with
                                        | Some _ => 3%nat
                                        | None => 0%nat
                                        end
    /\ (List.length (sends (since st0 final)) <= 3)%nat.
Proof.
  intros World ext client g content options st0 st1 st2 st3 m1 m2 m3
    sent attempt afterFailure A1 T1 A2 T2 A3 T3 final.
  subst final afterFailure attempt. cbv beta in *.
  destruct (onAttemptFailure_transient ext client 1 m1 st1 T1)
    as (s1 & e1 & E1 & R1 & Tr1 & _ & _).
  rewrite E1 in A2. cbn [fst] in A2.
  destruct (onAttemptFailure_transient ext client 2 m2 st2 T2)
    as (s2 & e2 & E2 & R2 & Tr2 & _ & _).
  rewrite E2 in A3. cbn [fst] in A3.
  destruct (onAttemptFailure_transient ext client 3 m3 st3 T3)
    as (s3 & e3 & E3 & R3 & Tr3 & _ & L3).
  rewrite E3. cbn [fst].
  destruct (attemptSend_outcome _ _ _ _ _ _ _ _ A1) as (_ & _ & _ & a1 & Ha1 & Ta1).
  destruct (attemptSend_outcome _ _ _ _ _ _ _ _ A2) as (_ & _ & _ & a2 & Ha2 & Ta2).
  destruct (attemptSend_outcome _ _ _ _ _ _ _ _ A3) as (_ & _ & _ & a3 & Ha3 & Ta3).
  split.
  - unfold sendMessageWithRetry. fold sent. unfold call.
    unfold bind at 1. cbn [setLastError]. cbn [fst] in A1.
    unfold bind at 1. unfold retryLoop. rewrite range_attempts.
    erewrite forEach_next by (erewrite tryCatch_throw by exact A1; exact E1).
    erewrite forEach_next by (erewrite tryCatch_throw by exact A2; exact E2).
    erewrite forEach_next by (erewrite tryCatch_throw by exact A3; exact E3).
    cbn [forEach ret]. unfold bind, getLastError. now rewrite L3.
  - assert (Hs : since st0 s3 = (a1 ++ e1 ++ a2 ++ e2 ++ a3 ++ e3)%list).
    { apply since_app. rewrite Tr3, Ta3, Tr2, Ta2, Tr1, Ta1. cbn [fst setLastError trace].
      now rewrite <- !app_assoc. }
    rewrite Hs. clear Hs.
    destruct (attemptEvents_read _ _ _ _ Ha1) as (F1 & B1 & C1 & S1).
    destruct (attemptEvents_read _ _ _ _ Ha2) as (F2 & B2 & C2 & S2).
    destruct (attemptEvents_read _ _ _ _ Ha3) as (F3 & B3 & C3 & S3).
    destruct (retriedFailure_read client _ _ _ R1) as (G1 & D1 & K1 & N1).
    destruct (retriedFailure_read client _ _ _ R2) as (G2 & D2 & K2 & N2).
    destruct (retriedFailure_read client _ _ _ R3) as (G3 & D3 & K3 & N3).
    rewrite !failedAttempts_app, !timers_app, !refreshCalls_app, !sends_app.
    rewrite F1, F2, F3, G1, G2, G3, B1, B2, B3, D1, D2, D3, C1, C2, C3, K1, K2, K3,
      N1, N2, N3.
    rewrite !length_app. cbn [List.length app].
    repeat split; [destruct (refreshState client); reflexivity | lia].
Qed.

Lemma C1_three_failures_witness :
  let st0 := Scripted.ready Scripted.clientWithHook
               [inr (Js.Error "Evaluation failed: WidFactory");
                inr (Js.Error "Cannot read properties of undefined");
                inr (Js.Error "WhatsApp client not fully initialized")] in
  exists final,
    sendMessageWithRetry Scripted.ext Scripted.clientWithHook "g" (Text "hi")
      OptionsUndefined st0
    = (final, Throw (Js.Error "WhatsApp client not fully initialized"))
    /\ timers Backoff (since st0 final) = [6000; 12000; 24000]
    /\ refreshCalls (since st0 final) = 3%nat.
Proof.
  intros st0.
  pose (attempt := attemptSend Scripted.ext Scripted.clientWithHook "g" (Text "hi")
                 OptionsEmpty).
  pose (recover := fun k m st =>
          fst (onAttemptFailure Scripted.ext Scripted.clientWithHook k (Js.Error m) st)).
  pose (st1 := fst (attempt (fst (setLastError None st0)))).
  pose (st2 := fst (attempt (recover 1 "Evaluation failed: WidFactory" st1))).
  pose (st3 := fst (attempt (recover 2 "Cannot read properties of undefined" st2))).
  exists (recover 3 "WhatsApp client not fully initialized" st3).
  destruct (C1_transient_failures_are_retried_with_backoff
              Scripted.World Scripted.ext Scripted.clientWithHook "g" (Text "hi")
              OptionsUndefined st0 st1 st2 st3
              "Evaluation failed: WidFactory"
              "Cannot read properties of undefined"
              "WhatsApp client not fully initialized")
    as (Run & _ & Backoffs & Refreshes & _);
    try (vm_compute; reflexivity).
  split; [exact Run | split; [exact Backoffs | exact Refreshes]].
Defined.

(** An attempt fails before the send only on an uninitialised session,
    and then with a message that is retried. *)
Lemma attemptSend_cases {World : Type} (ext : Externals World)
    (client : Client World) (g : string) (content : Content)
    (options : SendOptions) (st st1 : State World) (r : Completion unit) :
  attemptSend ext client g content options st = (st1, r) ->
  (st1 = st /\ r = Throw (Js.Error "WhatsApp client not fully initialized"))
  \/ (trace st1 = (trace st ++ [Sleep Settle 2000; SendMessage g content options])%list
      /\ (r = Return \/ exists e, r = Throw e)).
Proof.
  unfold attemptSend, bind, readWorld, sleep, invoke, return_, throw, ret.
  destruct (negb (pupPage client (world st)) || negb (pupBrowser client (world st))).
  - intros H; inversion H; subst. now left.
  - simpl.
    destruct (sendMessage client g content options (elapse ext 2000 (world st)))
      as [w [[]|err]]; simpl; intros H; inversion H; subst; simpl; right;
      (split; [now rewrite <- app_assoc | eauto]).
Qed.

(** C2. When the first attempt of a send fails with an error whose
    message contains none of the three transient markers,
    [sendMessageWithRetry] throws that error after this one attempt: one
    call of [client.sendMessage], the warning of the failed attempt, no
    backoff, no refresh and no further attempt. *)
Theorem C2_permanent_failure_is_not_retried :
  forall (World : Type) (ext : Externals World) (client : Client World)
         (g : string) (content : Content) (options : SendOptions)
         (st0 st1 : State World) (msg : string),
    let sent := match options with
                | OptionsUndefined => OptionsEmpty
                | _ => options
                end in
    attemptSend ext client g content sent (fst (setLastError None st0))
    = (st1, Throw (Js.Error msg)) ->
    hasTransientMarker msg = false ->
    exists final,
      sendMessageWithRetry ext client g content options st0
      = (final, Throw (Js.Error msg))
      /\ world final = world st1
      /\ since st0 final = [Sleep Settle 2000; SendMessage g content sent;
                            Log (WarnAttemptFailed 1 MAX_RETRIES (Some msg))]
      /\ failedAttempts (since st0 final) = [(1, Some msg)]
      /\ timers Backoff (since st0 final) = []
      /\ refreshCalls (since st0 final) = 0%nat
      /\ sends (since st0 final) = [(g, content, sent)].
Proof.
  intros World ext client g content options st0 st1 msg sent A P.
  pose proof (onAttemptFailure_permanent ext client 1 msg st1 P) as E.
  eexists. split.
  - unfold sendMessageWithRetry. fold sent. unfold call.
    unfold bind at 1. cbn [setLastError]. cbn [fst] in A.
    unfold bind at 1. unfold retryLoop. rewrite range_attempts.
    erewrite forEach_break by (erewrite tryCatch_throw by exact A; exact E).
    unfold bind, getLastError. cbn [lastError]. reflexivity.
  - cbn [world].
    destruct (attemptSend_cases _ _ _ _ _ _ _ _ A) as [[_ Hr] | [Ht _]].
    + inversion Hr; subst msg. discriminate P.
    + assert (Hs : since st0
                     (mkState (world st1)
                        (trace st1 ++ [Log (WarnAttemptFailed 1 MAX_RETRIES (Some msg))])
                        (whatsappClient st1) (tally st1) (Some (Js.Error msg)))
                   = [Sleep Settle 2000; SendMessage g content sent;
                      Log (WarnAttemptFailed 1 MAX_RETRIES (Some msg))]).
      { apply since_app. cbn [trace]. rewrite Ht. cbn [fst setLastError trace].
        now rewrite <- app_assoc. }
      rewrite Hs. repeat split.
Qed.

Lemma C2_invalid_group_witness :
  let st0 := Scripted.ready Scripted.client [inr (Js.Error "Chat not found")] in
  exists final,
    sendMessageWithRetry Scripted.ext Scripted.client "g" (Text "hi")
      OptionsUndefined st0
    = (final, Throw (Js.Error "Chat not found"))
    /\ since st0 final
       = [Sleep Settle 2000; SendMessage "g" (Text "hi") OptionsEmpty;
          Log (WarnAttemptFailed 1 MAX_RETRIES (Some "Chat not found"))].
Proof.
  intros st0.
  destruct (C2_permanent_failure_is_not_retried
              Scripted.World Scripted.ext Scripted.client "g" (Text "hi")
              OptionsUndefined st0
              (fst (attemptSend Scripted.ext Scripted.client "g" (Text "hi")
                      OptionsEmpty (fst (setLastError None st0))))
              "Chat not found")
    as (final & Run & _ & Events & _);
    try (vm_compute; reflexivity).
  exists final. split; [exact Run | exact Events].
Defined.

(** ** What the steps of the router keep *)

Section Leaves.

Context {World : Type}.
Variable ext : Externals World.

Lemma emit_sameTally (e : Event) : Preserves (@sameTally World) (emit e).
Proof. intros st st' r H; inversion H; reflexivity. Qed.

Lemma sleep_sameTally (site : Timer) (ms : Z) :
  Preserves (@sameTally World) (sleep ext site ms).
Proof. intros st st' r H; inversion H; reflexivity. Qed.

Lemma invoke_sameTally {A : Type} (e : Event)
    (f : World -> World * (A + Js.Thrown)) :
  Preserves (@sameTally World) (invoke e f).
Proof.
  intros st st' r H. unfold invoke in H.
  destruct (snd (f (world st))); inversion H; reflexivity.
Qed.

Lemma setLastError_sameTally (e : option Js.Thrown) :
  Preserves (@sameTally World) (setLastError e).
Proof. intros st st' r H; inversion H; reflexivity. Qed.

Variable Q : Event -> bool.

Lemma emit_appends (e : Event) :
  Q e = true -> Preserves (@appends World Q) (emit e).
Proof.
  intros HQ st st' r H; inversion H; subst.
  now apply appends_one with (e := e).
Qed.

Lemma sleep_appends (site : Timer) (ms : Z) :
  Q (Sleep site ms) = true -> Preserves (@appends World Q) (sleep ext site ms).
Proof.
  intros HQ st st' r H; inversion H; subst.
  now apply appends_one with (e := Sleep site ms).
Qed.

Lemma invoke_appends {A : Type} (e : Event)
    (f : World -> World * (A + Js.Thrown)) :
  Q e = true -> Preserves (@appends World Q) (invoke e f).
Proof.
  intros HQ st st' r H. unfold invoke in H.
  destruct (snd (f (world st))); inversion H; subst;
    now apply appends_one with (e := e).
Qed.

Lemma setLastError_appends (e : option Js.Thrown) :
  Preserves (@appends World Q) (setLastError e).
Proof. intros st st' r H; inversion H; subst. exists []. simpl. now rewrite app_nil_r. Qed.

Lemma setTally_appends (t : option Tally) :
  Preserves (@appends World Q) (setTally t).
Proof. intros st st' r H; inversion H; subst. exists []. simpl. now rewrite app_nil_r. Qed.

Lemma incrSuccess_appends : Preserves (@appends World Q) incrSuccess.
Proof. intros st st' r H. unfold incrSuccess in H. now apply setTally_appends in H. Qed.

Lemma incrFailure_appends : Preserves (@appends World Q) incrFailure.
Proof. intros st st' r H. unfold incrFailure in H. now apply setTally_appends in H. Qed.

End Leaves.

(** Discharges [Preserves sameTally m] for a computation that does not
    assign the counters. *)
Ltac keeps_tally :=
  frame_with ltac:(first
    [ exact (@sameTally_refl _) | exact (@sameTally_trans _)
    | apply emit_sameTally | apply sleep_sameTally | apply invoke_sameTally
    | apply setLastError_sameTally ]).

(** Discharges [Preserves (appends Q) m] when every event [m] records
    satisfies [Q]. *)
Ltac appends_only :=
  frame_with ltac:(first
    [ exact (@appends_refl _ _) | exact (@appends_trans _ _)
    | apply emit_appends; reflexivity | apply sleep_appends; reflexivity
    | apply invoke_appends; reflexivity | apply setLastError_appends
    | apply setTally_appends | apply incrSuccess_appends
    | apply incrFailure_appends ]).

Section RetryFrame.

Context {World : Type}.
Variable ext : Externals World.
Variable client : Client World.

Lemma sendMessageWithRetry_sameTally (g : string) (content : Content)
    (options : SendOptions) :
  Preserves sameTally (sendMessageWithRetry ext client g content options).
Proof.
  unfold sendMessageWithRetry, retryLoop, attemptSend, onAttemptFailure,
    isRetryable, backoffAndRefresh, log, respond.
  keeps_tally.
Qed.

Lemma sendMessageWithRetry_events (g : string) (content : Content)
    (options : SendOptions) :
  Preserves (appends retryEvent) (sendMessageWithRetry ext client g content options).
Proof.
  unfold sendMessageWithRetry, retryLoop, attemptSend, onAttemptFailure,
    isRetryable, backoffAndRefresh, log, respond.
  appends_only.
Qed.

End RetryFrame.

Section RetryOutcome.

Context {World : Type}.
Variable ext : Externals World.
Variable client : Client World.
Variables (g : string) (content : Content).

(** One turn of the loop returns, throws an [Error], or goes on (or
    breaks) with an [Error] in [lastError]. *)
Lemma retry_iteration_outcome (options : SendOptions) (k : Z)
    (st st' : State World) (r : Completion unit) :
  tryCatch (attemptSend ext client g content options)
    (onAttemptFailure ext client k) st = (st', r) ->
  r = Return
  \/ (exists m, r = Throw (Js.Error m))
  \/ ((r = Normal tt \/ r = Break) /\ exists m, lastError st' = Some (Js.Error m)).
Proof.
  unfold tryCatch.
  destruct (attemptSend ext client g content options st) as [s1 r1] eqn:A.
  destruct (attemptSend_outcome _ _ _ _ _ _ _ _ A) as ([-> | [e ->]] & _).
  - intros H; inversion H. now left.
  - destruct e as [msg|].
    + destruct (hasTransientMarker msg) eqn:T.
      * destruct (onAttemptFailure_transient ext client k msg s1 T)
          as (s2 & evs & E & _ & _ & _ & L).
        rewrite E. intros H; inversion H; subst. right; right. eauto.
      * rewrite onAttemptFailure_permanent by exact T.
        intros H; inversion H; subst. right; right. simpl. eauto.
    + rewrite onAttemptFailure_not_an_error. intros H; inversion H; subst.
      right; left. unfold Js.typeErrorIncludes. eauto.
Qed.

Lemma retryLoop_outcome (options : SendOptions) (ks : list Z)
    (st st' : State World) (r : Completion unit) :
  forEach (fun k => tryCatch (attemptSend ext client g content options)
                      (onAttemptFailure ext client k)) ks st = (st', r) ->
  r = Return
  \/ (exists m, r = Throw (Js.Error m))
  \/ (r = Normal tt
      /\ ((ks = [] /\ st' = st) \/ exists m, lastError st' = Some (Js.Error m))).
Proof.
  revert st. induction ks as [|k ks IH]; intros st H; simpl in H.
  - inversion H; subst. right; right. auto.
  - destruct (tryCatch _ _ st) as [s1 r1] eqn:B.
    apply retry_iteration_outcome in B
      as [-> | [[m ->] | [[-> | ->] [m L]]]].
    + inversion H. now left.
    + inversion H. right; left. eauto.
    + apply IH in H as [-> | [[m' ->] | [-> [[-> ->] | [m' L']]]]]; eauto 6.
    + inversion H; subst. eauto 6.
Qed.

(** A send with retries completes normally or throws an [Error]. *)
Lemma sendMessageWithRetry_outcome (options : SendOptions)
    (st st' : State World) (r : Completion unit) :
  sendMessageWithRetry ext client g content options st = (st', r) ->
  r = Normal tt \/ exists m, r = Throw (Js.Error m).
Proof.
  unfold sendMessageWithRetry, call, retryLoop. rewrite range_attempts.
  unfold bind at 1. cbn [setLastError]. unfold bind at 1.
  match goal with
  | |- context [forEach ?b ?l ?s] => destruct (forEach b l s) as [s1 r1] eqn:L
  end.
  apply retryLoop_outcome in L
    as [-> | [[m ->] | [-> [[D _] | [m L]]]]].
  - intros H; inversion H. now left.
  - intros H; inversion H. eauto.
  - discriminate D.
  - unfold bind, getLastError. rewrite L. intros H; inversion H. eauto.
Qed.

(** One turn of the loop records at most one failed attempt, one send
    and one backoff. *)
Lemma retry_iteration_trace (options : SendOptions) (k : Z)
    (st st' : State World) (r : Completion unit) :
  tryCatch (attemptSend ext client g content options)
    (onAttemptFailure ext client k) st = (st', r) ->
  exists evs,
    trace st' = (trace st ++ evs)%list
    /\ (List.length (failedAttempts evs) <= 1)%nat
    /\ (List.length (sends evs) <= 1)%nat
    /\ (List.length (timers Backoff evs) <= 1)%nat.
Proof.
  unfold tryCatch.
  destruct (attemptSend ext client g content options st) as [s1 r1] eqn:A.
  destruct (attemptSend_outcome _ _ _ _ _ _ _ _ A)
    as ([-> | [e ->]] & _ & _ & a & Ha & Ta);
    destruct (attemptEvents_read _ _ _ _ Ha) as (F & B & _ & S).
  - intros H; inversion H; subst. exists a. rewrite F, B. simpl. auto.
  - destruct e as [msg|].
    + destruct (hasTransientMarker msg) eqn:T.
      * destruct (onAttemptFailure_transient ext client k msg s1 T)
          as (s2 & evs & E & R & Tr & _ & _).
        destruct (retriedFailure_read client _ _ _ R) as (F' & B' & _ & S').
        rewrite E. intros H; inversion H; subst. exists (a ++ evs)%list.
        rewrite failedAttempts_app, sends_app, timers_app, !length_app,
          F, B, F', B', S', Tr, Ta, <- app_assoc.
        simpl. repeat split; lia.
      * rewrite onAttemptFailure_permanent by exact T.
        intros H; inversion H; subst.
        exists (a ++ [Log (WarnAttemptFailed k MAX_RETRIES (Some msg))])%list.
        rewrite failedAttempts_app, sends_app, timers_app, !length_app, F, B, Ta,
          <- app_assoc.
        simpl. repeat split; lia.
    + rewrite onAttemptFailure_not_an_error. intros H; inversion H; subst.
      exists (a ++ [Log (WarnAttemptFailed k MAX_RETRIES None)])%list.
      rewrite failedAttempts_app, sends_app, timers_app, !length_app, F, B, Ta,
        <- app_assoc.
      simpl. repeat split; lia.
Qed.

Lemma retryLoop_trace (options : SendOptions) (ks : list Z)
    (st st' : State World) (r : Completion unit) :
  forEach (fun k => tryCatch (attemptSend ext client g content options)
                      (onAttemptFailure ext client k)) ks st = (st', r) ->
  exists evs,
    trace st' = (trace st ++ evs)%list
    /\ (List.length (failedAttempts evs) <= List.length ks)%nat
    /\ (List.length (sends evs) <= List.length ks)%nat
    /\ (List.length (timers Backoff evs) <= List.length ks)%nat.
Proof.
  revert st. induction ks as [|k ks IH]; intros st H; simpl in H.
  - inversion H; subst. exists []. rewrite app_nil_r. simpl. auto.
  - destruct (tryCatch _ _ st) as [s1 r1] eqn:B.
    destruct (retry_iteration_trace _ _ _ _ _ B) as (e1 & T1 & F1 & S1 & B1).
    assert (Stop : (s1, r) = (st', r) ->
                   exists evs,
                     trace st' = (trace st ++ evs)%list
                     /\ (List.length (failedAttempts evs) <= List.length (k :: ks))%nat
                     /\ (List.length (sends evs) <= List.length (k :: ks))%nat
                     /\ (List.length (timers Backoff evs) <= List.length (k :: ks))%nat).
    { intros E; inversion E; subst. exists e1. simpl. repeat split; auto; lia. }
    destruct r1; try (inversion H; subst; apply Stop; reflexivity);
      (destruct (IH _ H) as (e2 & T2 & F2 & S2 & B2);
       exists (e1 ++ e2)%list;
       rewrite failedAttempts_app, sends_app, timers_app, !length_app, T2, T1,
         <- app_assoc; simpl; repeat split; lia).
Qed.

(** In every run, a send with retries makes at most three attempts: at
    most three failures are logged, [client.sendMessage] is called at
    most three times and at most three backoffs are slept. *)
Lemma sendMessageWithRetry_at_most_three_attempts (options : SendOptions)
    (st : State World) :
  let evs := since st (fst (sendMessageWithRetry ext client g content options st)) in
  (List.length (failedAttempts evs) <= 3)%nat
  /\ (List.length (sends evs) <= 3)%nat
  /\ (List.length (timers Backoff evs) <= 3)%nat.
Proof.
  intros evs0. subst evs0.
  assert (X : exists evs,
             trace (fst (sendMessageWithRetry ext client g content options st))
             = (trace st ++ evs)%list
             /\ (List.length (failedAttempts evs) <= 3)%nat
             /\ (List.length (sends evs) <= 3)%nat
             /\ (List.length (timers Backoff evs) <= 3)%nat).
  { unfold sendMessageWithRetry, call, retryLoop. rewrite range_attempts.
    unfold bind at 1. cbn [setLastError]. unfold bind at 1.
    match goal with
    | |- context [forEach ?b ?l ?s] => destruct (forEach b l s) as [s1 r1] eqn:L
    end.
    destruct (retryLoop_trace _ _ _ _ _ L) as (evs & T & F & S & B).
    cbn [trace List.length] in T, F, S, B.
    exists evs. split; [|auto].
    destruct r1; cbn [fst]; try exact T.
    unfold bind, getLastError. destruct (lastError s1); exact T. }
  destruct X as (evs & T & F & S & B). rewrite (since_app _ _ _ T). auto.
Qed.

End RetryOutcome.

(** ** How computations complete *)

Section Completions.

Context {World : Type}.

Lemma plain_ret {A : Type} (a : A) : Plain (@ret World A a).
Proof. intros st st' r H; inversion H; eauto. Qed.

Lemma plain_throw {A : Type} (e : Js.Thrown) : Plain (@throw World A e).
Proof. intros st st' r H; inversion H; eauto. Qed.

Lemma plain_emit (e : Event) : Plain (@emit World e).
Proof. intros st st' r H; inversion H; eauto. Qed.

Lemma plain_invoke {A : Type} (e : Event) (f : World -> World * (A + Js.Thrown)) :
  Plain (invoke e f).
Proof.
  intros st st' r H. unfold invoke in H.
  destruct (snd (f (world st))); inversion H; eauto.
Qed.

Lemma plain_bind {A B : Type} (m : M World A) (k : A -> M World B) :
  Plain m -> (forall a, Plain (k a)) -> Plain (bind m k).
Proof.
  intros Hm Hk st st' r H. unfold bind in H.
  destruct (m st) as [s1 c] eqn:E.
  destruct (Hm _ _ _ E) as [[a ->] | [e ->]]; [eapply Hk; exact H|].
  inversion H; eauto.
Qed.

Lemma plain_tryCatch {A : Type} (m : M World A) (h : Js.Thrown -> M World A) :
  Plain m -> (forall e, Plain (h e)) -> Plain (tryCatch m h).
Proof.
  intros Hm Hh st st' r H. unfold tryCatch in H.
  destruct (m st) as [s1 c] eqn:E.
  destruct (Hm _ _ _ E) as [[a ->] | [e ->]]; [inversion H; eauto|].
  eapply Hh; exact H.
Qed.

Lemma bind_normal {A B : Type} (m : M World A) (k : A -> M World B)
    (st s1 : State World) (a : A) :
  m st = (s1, Normal a) -> bind m k st = k a s1.
Proof. intros H. unfold bind. now rewrite H. Qed.

Lemma bind_continue {A B : Type} (m : M World A) (k : A -> M World B)
    (st s1 : State World) :
  m st = (s1, Continue) -> bind m k st = (s1, Continue).
Proof. intros H. unfold bind. now rewrite H. Qed.

Lemma bind_throw {A B : Type} (m : M World A) (k : A -> M World B)
    (st s1 : State World) (e : Js.Thrown) :
  m st = (s1, Throw e) -> bind m k st = (s1, Throw e).
Proof. intros H. unfold bind. now rewrite H. Qed.

Lemma tryCatch_normal {A : Type} (m : M World A) (h : Js.Thrown -> M World A)
    (st s1 : State World) (a : A) :
  m st = (s1, Normal a) -> tryCatch m h st = (s1, Normal a).
Proof. intros H. unfold tryCatch. now rewrite H. Qed.

Lemma bind_return {A B : Type} (m : M World A) (k : A -> M World B)
    (st s1 : State World) :
  m st = (s1, Return) -> bind m k st = (s1, Return).
Proof. intros H. unfold bind. now rewrite H. Qed.

Lemma tryCatch_return {A : Type} (m : M World A) (h : Js.Thrown -> M World A)
    (st s1 : State World) :
  m st = (s1, Return) -> tryCatch m h st = (s1, Return).
Proof. intros H. unfold tryCatch. now rewrite H. Qed.

Lemma call_return (m : M World unit) (st s1 : State World) :
  m st = (s1, Return) -> call m st = (s1, Normal tt).
Proof. intros H. unfold call. now rewrite H. Qed.

Lemma tryCatch_continue {A : Type} (m : M World A) (h : Js.Thrown -> M World A)
    (st s1 : State World) :
  m st = (s1, Continue) -> tryCatch m h st = (s1, Continue).
Proof. intros H. unfold tryCatch. now rewrite H. Qed.

End Completions.

Ltac plainly :=
  repeat first
    [ apply plain_ret | apply plain_throw | apply plain_emit | apply plain_invoke
    | apply plain_bind | apply plain_tryCatch
    | match goal with
      | |- Plain (if ?b then _ else _) => destruct b
      | |- Plain (match ?x with _ => _ end) => destruct x
      end
    | progress intros ].

(** ** The batch scheduler *)

Section BatchFacts.

Context {World : Type}.
Variable ext : Externals World.
Variable cfg : Config.
Variable client : Client World.

Lemma htmlToImage_plain (arg : HtmlToImageArg) : Plain (htmlToImage ext arg).
Proof. unfold htmlToImage, log. plainly. Qed.

Lemma htmlToImage_sameTally (arg : HtmlToImageArg) :
  Preserves sameTally (htmlToImage ext arg).
Proof. unfold htmlToImage, log. keeps_tally. Qed.

(** [failureCount++] on declared counters. *)
Lemma incrFailure_run (st : State World) (t : Tally) :
  tally st = Some t ->
  incrFailure st
  = (mkState (world st) (trace st) (whatsappClient st)
       (Some (mkTally (successCount t) (S (failureCount t)))) (lastError st),
     Normal tt).
Proof. intros H. unfold incrFailure, setTally. now rewrite H. Qed.

Lemma incrSuccess_run (st : State World) (t : Tally) :
  tally st = Some t ->
  incrSuccess st
  = (mkState (world st) (trace st) (whatsappClient st)
       (Some (mkTally (S (successCount t)) (failureCount t))) (lastError st),
     Normal tt).
Proof. intros H. unfold incrSuccess, setTally. now rewrite H. Qed.

(** The three lines every skipping branch ends with. *)
Lemma skip_run {A : Type} (line : LogLine) (st : State World) (t : Tally) :
  tally st = Some t ->
  (incrFailure ;; log line ;; @continue World A)%js st
  = (mkState (world st) (trace st ++ [Log line]) (whatsappClient st)
       (Some (mkTally (successCount t) (S (failureCount t)))) (lastError st),
     Continue).
Proof.
  intros H. unfold bind. rewrite (incrFailure_run st t H). reflexivity.
Qed.

(** Media resolution hands over a media (or none), counters untouched,
    or counts a failure and continues with the next message. *)
Lemma batchResolveMedia_outcome (n i : nat) (md : MessageData)
    (st st' : State World) (r : Completion (option MessageMedia)) (t : Tally) :
  tally st = Some t ->
  batchResolveMedia ext n i md st = (st', r) ->
  (exists media, r = Normal media /\ tally st' = Some t)
  \/ (r = Continue
      /\ tally st' = Some (mkTally (successCount t) (S (failureCount t)))).
Proof.
  intros Ht. unfold batchResolveMedia.
  destruct (Js.truthy (html md)).
  - unfold tryCatch.
    match goal with
    | |- context [match ?m st with _ => _ end] =>
        assert (P : Plain m) by (unfold log; plainly; apply htmlToImage_plain);
        assert (K : Preserves sameTally m)
          by (unfold log; keeps_tally; apply htmlToImage_sameTally);
        destruct (m st) as [s1 r1] eqn:E
    end.
    apply K in E as Hk. red in Hk. rewrite Ht in Hk.
    destruct (P _ _ _ E) as [[a ->] | [e ->]].
    + intros H; inversion H; subst. left. eauto.
    + rewrite (skip_run _ s1 t Hk). intros H; inversion H; subst. now right.
  - destruct (Js.truthy (mediaContent md) && Js.truthy (mediaType md)).
    + unfold tryCatch.
      destruct (Js.orEmpty (mediaType md) =? "base64")%string.
      * intros H; inversion H; subst. left. eauto.
      * destruct (Js.orEmpty (mediaType md) =? "url")%string.
        -- match goal with
           | |- context [match ?m st with _ => _ end] =>
               assert (P : Plain m) by plainly;
               assert (K : Preserves sameTally m) by keeps_tally;
               destruct (m st) as [s1 r1] eqn:E
           end.
           apply K in E as Hk. red in Hk. rewrite Ht in Hk.
           destruct (P _ _ _ E) as [[a ->] | [e ->]].
           ++ intros H; inversion H; subst. left. eauto.
           ++ rewrite (skip_run _ s1 t Hk). intros H; inversion H; subst. now right.
        -- rewrite (skip_run _ st t Ht). intros H; inversion H; subst. now right.
    + intros H; inversion H; subst. left. eauto.
Qed.

(** The send stage always completes normally, having counted the
    message once: as a success when the send with retries completed, as
    a failure when it threw. *)
Lemma sendStage_outcome (n i : nat) (g captionText : string)
    (media : option MessageMedia) (st st' : State World) (r : Completion unit)
    (t : Tally) :
  tally st = Some t ->
  sendStage ext cfg client n i g captionText media st = (st', r) ->
  r = Normal tt
  /\ ((tally st' = Some (mkTally (S (successCount t)) (failureCount t))
       /\ exists content options s1,
            sendMessageWithRetry ext client g content options st = (s1, Normal tt))
      \/ tally st' = Some (mkTally (successCount t) (S (failureCount t)))).
Proof.
  intros Ht. unfold sendStage, tryCatch.
  destruct media as [m|].
  - unfold bind at 1 2.
    destruct (sendMessageWithRetry ext client g (Media m)
                (OptionsMedia captionText false) st) as [s1 r1] eqn:E.
    pose proof (sendMessageWithRetry_sameTally _ _ _ _ _ _ _ _ E) as Hk.
    red in Hk. rewrite Ht in Hk.
    destruct (sendMessageWithRetry_outcome _ _ _ _ _ _ _ _ E) as [-> | [msg ->]].
    + unfold log, emit. rewrite incrSuccess_run with (t := t) by exact Hk.
      intros H; inversion H; subst. split; [reflexivity | left; eauto 6].
    + unfold bind. rewrite (incrFailure_run s1 t Hk). unfold log, emit, ret, sleep.
      destruct (Js.includes msg "WidFactory");
        intros H; inversion H; subst; auto.
  - unfold bind at 1 2.
    destruct (sendMessageWithRetry ext client g (Text captionText)
                OptionsUndefined st) as [s1 r1] eqn:E.
    pose proof (sendMessageWithRetry_sameTally _ _ _ _ _ _ _ _ E) as Hk.
    red in Hk. rewrite Ht in Hk.
    destruct (sendMessageWithRetry_outcome _ _ _ _ _ _ _ _ E) as [-> | [msg ->]].
    + unfold log, emit. rewrite incrSuccess_run with (t := t) by exact Hk.
      intros H; inversion H; subst. split; [reflexivity | left; eauto 6].
    + unfold bind. rewrite (incrFailure_run s1 t Hk). unfold log, emit, ret, sleep.
      destruct (Js.includes msg "WidFactory");
        intros H; inversion H; subst; auto.
Qed.

(** The delay and the progress line: nothing but these events. *)
Lemma afterSend_run (n i : nat) (st : State World) :
  exists st',
    afterSend ext cfg n i st = (st', Normal tt)
    /\ tally st' = tally st
    /\ trace st'
       = (trace st
          ++ (if Z.of_nat i <? Z.of_nat n - 1
              then [Log (InfoWaitingBeforeNext (MESSAGE_DELAY_MS cfg));
                    Sleep InterMessage (MESSAGE_DELAY_MS cfg)]
              else [])
          ++ [Log (InfoProgress (S i) n
                     (successCount match tally st with
                                   | Some t => t
                                   | None => mkTally 0 0
                                   end)
                     (failureCount match tally st with
                                   | Some t => t
                                   | None => mkTally 0 0
                                   end))])%list.
Proof.
  unfold afterSend, bind, log, emit, sleep, readTally, ret.
  destruct (Z.of_nat i <? Z.of_nat n - 1); simpl; eexists;
    (split; [reflexivity | split; [reflexivity|]]);
    now rewrite <- ?app_assoc.
Qed.

(** One message of the batch: the body of the loop completes normally
    or continues, never otherwise, and counts the message exactly once.
    It counts a success only when a send with retries to the group of
    the message completed normally. *)
Lemma processMessage_outcome (n i : nat) (item : option MessageData)
    (st st' : State World) (r : Completion unit) (t : Tally) :
  tally st = Some t ->
  processMessage ext cfg client n i item st = (st', r) ->
  (r = Normal tt \/ r = Continue)
  /\ ((tally st' = Some (mkTally (S (successCount t)) (failureCount t))
       /\ exists md content options s s1,
            item = Some md
            /\ sendMessageWithRetry ext client (Js.orEmpty (groupId md)) content
                 options s = (s1, Normal tt))
      \/ tally st' = Some (mkTally (successCount t) (S (failureCount t)))).
Proof.
  intros Ht. unfold processMessage.
  destruct item as [md|].
  - destruct (negb (Js.truthy (groupId md))).
    { erewrite tryCatch_continue by (apply skip_run; exact Ht).
      intros H; inversion H; subst. auto. }
    destruct (negb (Js.truthy (message md)) && negb (Js.truthy (mediaContent md))
              && negb (Js.truthy (html md))).
    { erewrite tryCatch_continue by (apply skip_run; exact Ht).
      intros H; inversion H; subst. auto. }
    destruct (batchResolveMedia ext n i md st) as [s1 r1] eqn:E.
    destruct (batchResolveMedia_outcome _ _ _ _ _ _ _ Ht E)
      as [(media & -> & Hk) | (-> & Hk)].
    + destruct (sendStage ext cfg client n i (Js.orEmpty (groupId md))
                  (Js.orEmpty (message md)) media s1) as [s2 r2] eqn:S.
      destruct (sendStage_outcome _ _ _ _ _ _ _ _ _ Hk S) as (-> & Hs).
      destruct (afterSend_run n i s2) as (s3 & A & Ha & _).
      erewrite tryCatch_normal
        by (erewrite bind_normal by exact E;
            erewrite bind_normal by exact S; exact A).
      intros H; inversion H; subst. rewrite Ha. split; [auto|].
      destruct Hs as [(Hs & content & options & s' & Run) | Hs]; [left | now right].
      split; [exact Hs | eauto 8].
    + erewrite tryCatch_continue by (erewrite bind_continue by exact E; reflexivity).
      intros H; inversion H; subst. auto.
  - erewrite tryCatch_throw by reflexivity.
    unfold bind. rewrite (incrFailure_run st t Ht).
    intros H; inversion H; subst. auto.
Qed.

(** The loop over the rest of a batch: every message is run, each is
    counted once, and the loop ends normally. *)
Lemma batchLoop_outcome (n : nat) (items : list (option MessageData)) (i : nat)
    (st : State World) (t : Tally) :
  tally st = Some t ->
  exists st' t',
    forIndexed (processMessage ext cfg client n) i items st = (st', Normal tt)
    /\ tally st' = Some t'
    /\ (successCount t' + failureCount t'
        = successCount t + failureCount t + List.length items)%nat.
Proof.
  revert i st t. induction items as [|item items IH]; intros i st t Ht.
  - exists st, t. simpl. repeat split; [exact Ht | lia].
  - simpl. destruct (processMessage ext cfg client n i item st) as [s1 r1] eqn:P.
    destruct (processMessage_outcome _ _ _ _ _ _ _ Ht P) as ([-> | ->] & Hc);
      (assert (Hone : exists t1, tally s1 = Some t1
                        /\ (successCount t1 + failureCount t1
                            = S (successCount t + failureCount t))%nat)
         by (destruct Hc as [[Hc _] | Hc]; eexists; (split; [exact Hc|]); simpl; lia));
      destruct Hone as (t1 & H1 & Hsum);
      destruct (IH (S i) s1 t1 H1) as (st' & t' & Run & Ht' & Hsum');
      exists st', t'; (split; [exact Run | split; [exact Ht' | simpl; lia]]).
Qed.

(** The loop over [before ++ after] is the loop over [before] followed,
    from the state it leaves, by the loop over [after]. *)
Lemma batchLoop_app (n : nat) (before after : list (option MessageData)) (i : nat)
    (st : State World) (t : Tally) :
  tally st = Some t ->
  forIndexed (processMessage ext cfg client n) i (before ++ after) st
  = forIndexed (processMessage ext cfg client n) (i + List.length before) after
      (fst (forIndexed (processMessage ext cfg client n) i before st)).
Proof.
  revert i st t. induction before as [|item before IH]; intros i st t Ht.
  - simpl. now rewrite Nat.add_0_r.
  - simpl. destruct (processMessage ext cfg client n i item st) as [s1 r1] eqn:P.
    destruct (processMessage_outcome _ _ _ _ _ _ _ Ht P) as ([-> | ->] & Hc);
      (assert (Hone : exists t1, tally s1 = Some t1)
         by (destruct Hc as [[Hc _] | Hc]; eauto));
      destruct Hone as (t1 & H1);
      rewrite (IH (S i) s1 t1 H1); f_equal; lia.
Qed.

End BatchFacts.

(** ** The delay between two messages *)

Lemma timers_none (evs : list Event) :
  forallb notInterMessage evs = true -> timers InterMessage evs = [].
Proof.
  induction evs as [|e evs IH]; simpl; [reflexivity|].
  intros H. apply andb_true_iff in H as [He H].
  destruct e; auto. destruct site; auto. discriminate He.
Qed.

Section DelayFacts.

Context {World : Type}.
Variable ext : Externals World.
Variable cfg : Config.
Variable client : Client World.

Lemma batchResolveMedia_no_delay (n i : nat) (md : MessageData) :
  Preserves (appends notInterMessage) (batchResolveMedia ext n i md).
Proof.
  unfold batchResolveMedia, htmlToImage, log, respond. appends_only.
Qed.

Lemma sendStage_no_delay (n i : nat) (g captionText : string)
    (media : option MessageMedia) :
  Preserves (appends notInterMessage)
    (sendStage ext cfg client n i g captionText media).
Proof.
  unfold sendStage, sendMessageWithRetry, retryLoop, attemptSend,
    onAttemptFailure, isRetryable, backoffAndRefresh, log, respond.
  appends_only.
Qed.

(** The send stage completes normally whatever the send did. *)
Lemma sendStage_normal (n i : nat) (g captionText : string)
    (media : option MessageMedia) (st st' : State World) (r : Completion unit) :
  sendStage ext cfg client n i g captionText media st = (st', r) -> r = Normal tt.
Proof.
  unfold sendStage, tryCatch.
  destruct media as [m|]; unfold bind at 1 2;
    match goal with
    | |- context [sendMessageWithRetry ext client g ?c ?o st] =>
        destruct (sendMessageWithRetry ext client g c o st) as [s1 r1] eqn:E
    end;
    (destruct (sendMessageWithRetry_outcome _ _ _ _ _ _ _ _ E) as [-> | [msg ->]];
     [ unfold log, emit, incrSuccess, setTally; intros H; now inversion H
     | unfold bind, incrFailure, setTally, log, emit, ret, sleep;
       destruct (Js.includes msg "WidFactory"); intros H; now inversion H ]).
Qed.

End DelayFacts.

(** C3, as the code has it. A message of the batch that passes the
    validation and whose media resolves reaches the send stage; after
    that stage, whether the send succeeded or failed, the loop arms one
    timer of [MESSAGE_DELAY_MS] before the next message when the message
    is not the last of the batch, and none when it is the last. Nothing
    but the progress line follows that timer before the next message
    starts. *)
Theorem C3_delay_follows_each_sent_message_but_the_last :
  forall (World : Type) (ext : Externals World) (cfg : Config)
         (client : Client World) (n i : nat) (md : MessageData)
         (st st1 : State World) (media : option MessageMedia),
    Js.truthy (groupId md) = true ->
    negb (Js.truthy (message md)) && negb (Js.truthy (mediaContent md))
    && negb (Js.truthy (html md)) = false ->
    batchResolveMedia ext n i md st = (st1, Normal media) ->
    let delay := if (S i <? n)%nat
                 then [Log (InfoWaitingBeforeNext (MESSAGE_DELAY_MS cfg));
                       Sleep InterMessage (MESSAGE_DELAY_MS cfg)]
                 else [] in
    exists st2 st3 progress,
      sendStage ext cfg client n i (Js.orEmpty (groupId md))
        (Js.orEmpty (message md)) media st1 = (st2, Normal tt)
      /\ processMessage ext cfg client n i (Some md) st = (st3, Normal tt)
      /\ trace st3 = (trace st2 ++ delay ++ [Log progress])%list
      /\ timers InterMessage (since st st3)
         = if (S i <? n)%nat then [MESSAGE_DELAY_MS cfg] else [].
Proof.
  intros World ext cfg client n i md st st1 media G C R delay.
  destruct (sendStage ext cfg client n i (Js.orEmpty (groupId md))
              (Js.orEmpty (message md)) media st1) as [st2 r2] eqn:Stage.
  pose proof (sendStage_normal _ _ _ _ _ _ _ _ _ _ _ Stage) as ->.
  destruct (afterSend_run ext cfg n i st2) as (st3 & A & _ & Tr).
  assert (Hcond : (Z.of_nat i <? Z.of_nat n - 1) = (S i <? n)%nat).
  { destruct (Nat.ltb_spec (S i) n); [apply Z.ltb_lt | apply Z.ltb_ge]; lia. }
  rewrite Hcond in Tr. set (progress := InfoProgress _ _ _ _) in Tr.
  exists st2, st3, progress. split; [reflexivity|]. split; [|split; [exact Tr|]].
  - unfold processMessage. rewrite G, C. cbn [negb].
    apply tryCatch_normal.
    erewrite bind_normal by exact R. erewrite bind_normal by exact Stage. exact A.
  - destruct (batchResolveMedia_no_delay ext n i md _ _ _ R) as (e1 & T1 & Q1).
    destruct (sendStage_no_delay ext cfg client _ _ _ _ _ _ _ _ Stage) as (e2 & T2 & Q2).
    rewrite (since_app st st3 (e1 ++ e2 ++ delay ++ [Log progress])).
    + rewrite !timers_app, (timers_none _ Q1), (timers_none _ Q2).
      subst delay. destruct (S i <? n)%nat; reflexivity.
    + rewrite Tr, T2, T1. now rewrite <- !app_assoc.
Qed.

Lemma C3_two_texts_witness :
  let st := fst (setTally (Some (mkTally 0 0)) (Scripted.ready Scripted.client [])) in
  exists st3,
    processMessage Scripted.ext defaultConfig Scripted.client 2 0
      (Some (Scripted.textTo "g" "one")) st = (st3, Normal tt)
    /\ timers InterMessage (since st st3) = [5000].
Proof.
  intros st.
  destruct (C3_delay_follows_each_sent_message_but_the_last
              Scripted.World Scripted.ext defaultConfig Scripted.client 2 0
              (Scripted.textTo "g" "one") st st None eq_refl eq_refl eq_refl)
    as (st2 & st3 & progress & _ & Run & _ & Delay).
  exists st3. split; [exact Run | exact Delay].
Defined.

(** C3 as stated does not hold: in a batch of two messages of which the
    first has no group id, no timer is armed between the first message
    and the second. *)
Lemma C3_no_delay_after_a_skipped_message :
  let run := postSendBatch Scripted.ext defaultConfig
               (ArrayOf [Some (Scripted.withoutGroupId "one");
                         Some (Scripted.textTo "g" "two")])
               (Scripted.ready Scripted.client []) in
  trace (fst run)
  = [Respond 202 (Processing 2 5000); Log (WarnMissingGroupId 1 2);
     Sleep Settle 2000; SendMessage "g" (Text "two") OptionsEmpty;
     Log (InfoBatchTextSent 2 2 "g"); Log (InfoProgress 2 2 1 1);
     Log (InfoCompleted 1 1)]
  /\ timers InterMessage (trace (fst run)) = [].
Proof. split; vm_compute; reflexivity. Qed.

(** C4, as the code has it. A message of the batch without a group id,
    or without any of [message], [mediaContent] and [html], is counted
    in [failureCount], the counter of the failed sends (there is no
    other counter for it); a warning is logged, the session is not
    called, and the loop continues with the next message. *)
Theorem C4_invalid_message_is_counted_as_failed_and_skipped :
  forall (World : Type) (ext : Externals World) (cfg : Config)
         (client : Client World) (n i : nat) (md : MessageData)
         (rest : list (option MessageData)) (st : State World) (t : Tally),
    tally st = Some t ->
    Js.truthy (groupId md) = false
    \/ (Js.truthy (message md) = false /\ Js.truthy (mediaContent md) = false
        /\ Js.truthy (html md) = false) ->
    exists line,
      (line = WarnMissingGroupId (S i) n
       \/ line = WarnMissingContent (S i) n (Js.orEmpty (groupId md)))
      /\ let st' := mkState (world st) (trace st ++ [Log line]) (whatsappClient st)
                      (Some (mkTally (successCount t) (S (failureCount t))))
                      (lastError st) in
         processMessage ext cfg client n i (Some md) st = (st', Continue)
         /\ forIndexed (processMessage ext cfg client n) i (Some md :: rest) st
            = forIndexed (processMessage ext cfg client n) (S i) rest st'.
Proof.
  intros World ext cfg client n i md rest st t Ht Hbad.
  assert (Hrun : exists line,
             (line = WarnMissingGroupId (S i) n
              \/ line = WarnMissingContent (S i) n (Js.orEmpty (groupId md)))
             /\ processMessage ext cfg client n i (Some md) st
                = (mkState (world st) (trace st ++ [Log line]) (whatsappClient st)
                     (Some (mkTally (successCount t) (S (failureCount t))))
                     (lastError st), Continue)).
  { unfold processMessage.
    destruct (Js.truthy (groupId md)) eqn:G; cbn [negb].
    - destruct Hbad as [Hbad | (M & C & H)]; [discriminate|].
      rewrite M, C, H. cbn [negb andb].
      eexists. split; [right; reflexivity|].
      apply tryCatch_continue. now apply skip_run.
    - eexists. split; [left; reflexivity|].
      apply tryCatch_continue. now apply skip_run. }
  destruct Hrun as (line & Hline & Run).
  exists line. split; [exact Hline|]. cbv zeta. split; [exact Run|].
  cbn [forIndexed]. now rewrite Run.
Qed.

Lemma C4_missing_group_id_witness :
  let st := fst (setTally (Some (mkTally 0 0)) (Scripted.ready Scripted.client [])) in
  let body := processMessage Scripted.ext defaultConfig Scripted.client 2 in
  exists line,
    (line = WarnMissingGroupId 1 2 \/ line = WarnMissingContent 1 2 EmptyString)
    /\ let st' := mkState [] [Log line] (Some Scripted.client)
                     (Some (mkTally 0 1)) None in
       body 0%nat (Some (Scripted.withoutGroupId "hello")) st = (st', Continue)
       /\ forIndexed body 0
            [Some (Scripted.withoutGroupId "hello"); Some (Scripted.textTo "g" "hi")] st
          = forIndexed body 1 [Some (Scripted.textTo "g" "hi")] st'.
Proof.
  intros st body.
  exact (C4_invalid_message_is_counted_as_failed_and_skipped
           Scripted.World Scripted.ext defaultConfig Scripted.client 2 0
           (Scripted.withoutGroupId "hello") [Some (Scripted.textTo "g" "hi")]
           st (mkTally 0 0) eq_refl (or_introl eq_refl)).
Defined.

(** C4 as stated does not hold: a batch whose only message has no group
    id and a batch whose only message is rejected by the session leave
    the same tally, no success and one failure, so that a skipped
    message is not told apart from a failed one. *)
Lemma C4_skipped_is_counted_like_failed :
  tally (fst (postSendBatch Scripted.ext defaultConfig
                (ArrayOf [Some (Scripted.withoutGroupId "hello")])
                (Scripted.ready Scripted.client [])))
  = Some (mkTally 0 1)
  /\ tally (fst (postSendBatch Scripted.ext defaultConfig
                   (ArrayOf [Some (Scripted.textTo "g" "hello")])
                   (Scripted.ready Scripted.client [inr (Js.Error "Chat not found")])))
     = Some (mkTally 0 1).
Proof. split; vm_compute; reflexivity. Qed.

(** C5. A [messages] that is not an array, is empty or is longer than
    [MAX_BATCH_SIZE] is answered with status 400 and nothing else
    happens: an error line is logged, the world is left as it was (no
    call of the session, no rendering, no timer), the counters are not
    declared and no message is processed. *)
Theorem C5_malformed_batch_is_rejected_before_processing :
  forall (World : Type) (ext : Externals World) (cfg : Config)
         (messages : Messages) (st : State World),
    messages = NotAnArray
    \/ messages = ArrayOf []
    \/ (exists items, messages = ArrayOf items
                      /\ Z.of_nat (List.length items) > MAX_BATCH_SIZE cfg) ->
    exists line body,
      postSendBatch ext cfg messages st
      = (mkState (world st) (trace st ++ [Log line; Respond 400 body])
           (whatsappClient st) (tally st) (lastError st),
         Normal tt)
      /\ (body = MustBeArray \/ body = EmptyArray
          \/ body = BatchTooLarge (MAX_BATCH_SIZE cfg)).
Proof.
  intros World ext cfg messages st [-> | [-> | (items & -> & Hbig)]].
  - exists ErrorInvalidMessages, MustBeArray. split; [|auto].
    unfold postSendBatch, call, tryCatch, bind, log, respond, emit, return_.
    cbn [world trace whatsappClient tally lastError]. now rewrite <- app_assoc.
  - exists ErrorEmptyMessages, EmptyArray. split; [|auto].
    unfold postSendBatch, call, tryCatch, bind, log, respond, emit, return_.
    cbn [List.length Nat.eqb world trace whatsappClient tally lastError].
    now rewrite <- app_assoc.
  - destruct items as [|item items].
    + exists ErrorEmptyMessages, EmptyArray. split; [|auto].
      unfold postSendBatch, call, tryCatch, bind, log, respond, emit, return_.
      cbn [List.length Nat.eqb world trace whatsappClient tally lastError].
      now rewrite <- app_assoc.
    + exists (ErrorBatchSize (List.length (item :: items))),
        (BatchTooLarge (MAX_BATCH_SIZE cfg)).
      split; [|auto].
      unfold postSendBatch, call, tryCatch, bind, log, respond, emit, return_.
      replace (List.length (item :: items) =? 0)%nat with false by reflexivity.
      apply Z.gtb_gt in Hbig. rewrite Hbig.
      cbn [world trace whatsappClient tally lastError]. now rewrite <- app_assoc.
Qed.

Lemma C5_oversized_batch_witness :
  exists line body,
    postSendBatch Scripted.ext (mkConfig 1 5000)
      (ArrayOf [Some (Scripted.textTo "g" "one"); Some (Scripted.textTo "g" "two")])
      (Scripted.ready Scripted.client [])
    = (mkState [] [Log line; Respond 400 body] (Some Scripted.client) None None,
       Normal tt)
    /\ (body = MustBeArray \/ body = EmptyArray \/ body = BatchTooLarge 1).
Proof.
  apply (C5_malformed_batch_is_rejected_before_processing
           Scripted.World Scripted.ext (mkConfig 1 5000)
           (ArrayOf [Some (Scripted.textTo "g" "one");
                     Some (Scripted.textTo "g" "two")])
           (Scripted.ready Scripted.client [])).
  right; right. eexists. split; [reflexivity | vm_compute; reflexivity].
Defined.

(** C6. In the loop of [POST /send-batch], whatever happens while one
    message is processed (a failed validation, a failed resolution, a
    failed send, the exception of a [null] element), the body of the
    loop completes normally or with [continue]: the messages before it
    have been processed, the message is counted exactly once, as a
    success only when a send with retries to its group completed
    normally and as a failure otherwise, and the loop goes on through
    all the messages after it and ends normally, with every message of
    the batch counted. *)
Theorem C6_one_message_never_stops_the_batch :
  forall (World : Type) (ext : Externals World) (cfg : Config)
         (client : Client World) (n : nat)
         (before : list (option MessageData)) (item : option MessageData)
         (after : list (option MessageData)) (st : State World) (t : Tally),
    tally st = Some t ->
    let body := processMessage ext cfg client n in
    exists st1 st2 st3 c t1,
      forIndexed body 0 before st = (st1, Normal tt)
      /\ tally st1 = Some t1
      /\ body (List.length before) item st1 = (st2, c)
      /\ (c = Normal tt \/ c = Continue)
      /\ ((tally st2 = Some (mkTally (S (successCount t1)) (failureCount t1))
           /\ exists md content options s s',
                item = Some md
                /\ sendMessageWithRetry ext client (Js.orEmpty (groupId md))
                     content options s = (s', Normal tt))
          \/ tally st2 = Some (mkTally (successCount t1) (S (failureCount t1))))
      /\ forIndexed body (S (List.length before)) after st2 = (st3, Normal tt)
      /\ forIndexed body 0 (before ++ item :: after) st = (st3, Normal tt)
      /\ counted st3 = (counted st + List.length (before ++ item :: after))%nat.
Proof.
  intros World ext cfg client n before item after st t Ht body.
  destruct (batchLoop_outcome ext cfg client n before 0 st t Ht)
    as (st1 & t1 & Run1 & Ht1 & Sum1).
  destruct (body (List.length before) item st1) as [st2 c] eqn:P.
  destruct (processMessage_outcome ext cfg client _ _ _ _ _ _ _ Ht1 P) as (Hc & Hcount).
  assert (Ht2 : exists t2, tally st2 = Some t2
                  /\ (successCount t2 + failureCount t2
                      = S (successCount t1 + failureCount t1))%nat).
  { destruct Hcount as [[H _] | H]; eexists; (split; [exact H|]); simpl; lia. }
  destruct Ht2 as (t2 & Ht2 & Sum2).
  destruct (batchLoop_outcome ext cfg client n after (S (List.length before)) st2 t2 Ht2)
    as (st3 & t3 & Run3 & Ht3 & Sum3).
  exists st1, st2, st3, c, t1.
  repeat (split; [assumption|]).
  split.
  - subst body. rewrite (batchLoop_app ext cfg client n before (item :: after) 0 st t Ht).
    rewrite Run1. cbn [fst forIndexed Nat.add]. rewrite P.
    destruct Hc as [-> | ->]; exact Run3.
  - unfold counted. rewrite Ht3, Ht. rewrite length_app. simpl. lia.
Qed.

Lemma C6_null_and_failing_items_witness :
  let body := processMessage Scripted.ext defaultConfig Scripted.client 3 in
  let st := fst (setTally (Some (mkTally 0 0))
                   (Scripted.ready Scripted.client [inr (Js.Error "Chat not found")])) in
  exists st3,
    forIndexed body 0
      [Some (Scripted.textTo "g" "one"); None; Some (Scripted.textTo "g" "three")] st
    = (st3, Normal tt)
    /\ counted st3 = 3%nat.
Proof.
  intros body st.
  destruct (C6_one_message_never_stops_the_batch
              Scripted.World Scripted.ext defaultConfig Scripted.client 3
              [Some (Scripted.textTo "g" "one")] None
              [Some (Scripted.textTo "g" "three")] st (mkTally 0 0) eq_refl)
    as (st1 & st2 & st3 & c & t1 & _ & _ & _ & _ & _ & _ & Run & Count).
  exists st3. split; [exact Run | exact Count].
Defined.

(** X18. An accepted batch, as a whole: the handler answers 202 first, runs
    the loop to its end and logs a tally in which every message of the
    batch is counted once. *)
Lemma postSendBatch_counts_every_message (World : Type) (ext : Externals World)
    (cfg : Config) (client : Client World) (items : list (option MessageData))
    (st : State World) :
  items <> [] ->
  Z.of_nat (List.length items) <= MAX_BATCH_SIZE cfg ->
  whatsappClient st = Some client ->
  exists st' t evs,
    postSendBatch ext cfg (ArrayOf items) st = (st', Normal tt)
    /\ tally st' = Some t
    /\ (successCount t + failureCount t = List.length items)%nat
    /\ trace st'
       = (trace st
          ++ Respond 202 (Processing (List.length items) (MESSAGE_DELAY_MS cfg))
             :: evs
          ++ [Log (InfoCompleted (successCount t) (failureCount t))])%list.
Proof.
  intros Hne Hmax W.
  set (st1 := mkState (world st)
                (trace st ++ [Respond 202 (Processing (List.length items)
                                             (MESSAGE_DELAY_MS cfg))])
                (whatsappClient st) (Some (mkTally 0 0)) (lastError st)).
  destruct (batchLoop_outcome ext cfg client (List.length items) items 0 st1
              (mkTally 0 0) eq_refl) as (st2 & t & Run & Ht & Sum).
  assert (Grow : Preserves (appends (fun _ => true))
                   (forIndexed (processMessage ext cfg client (List.length items))
                      0 items)).
  { unfold processMessage, batchResolveMedia, sendStage, afterSend, htmlToImage,
      sendMessageWithRetry, retryLoop, attemptSend, onAttemptFailure, isRetryable,
      backoffAndRefresh, log, respond.
    appends_only. }
  destruct (Grow _ _ _ Run) as (evs & Tr & _).
  exists (mkState (world st2)
            (trace st2 ++ [Log (InfoCompleted (successCount t) (failureCount t))])
            (whatsappClient st2) (tally st2) (lastError st2)), t, evs.
  split; [|split; [exact Ht | split; [simpl in Sum; lia|]]].
  - unfold postSendBatch.
    destruct items as [|item items]; [contradiction|].
    replace (List.length (item :: items) =? 0)%nat with false by reflexivity.
    replace (Z.of_nat (List.length (item :: items)) >? MAX_BATCH_SIZE cfg)
      with false by (symmetry; rewrite Z.gtb_ltb; apply Z.ltb_ge; exact Hmax).
    unfold call, tryCatch.
    erewrite bind_normal by (unfold getWhatsAppClient; rewrite W; reflexivity).
    cbv beta iota.
    erewrite bind_normal by reflexivity.
    erewrite bind_normal by reflexivity.
    erewrite bind_normal by exact Run.
    unfold bind, readTally, log, emit. now rewrite Ht.
  - cbn [trace]. rewrite Tr. subst st1. cbn [trace].
    now rewrite <- !app_assoc.
Qed.

(** ** The health endpoint *)

(** [GET /health] answers "initializing" in every state of the process:
    the binding it reads was copied from the module [whatsappclient]
    when that module was loaded, and is [undefined] for ever. *)
Lemma getHealth_run (World : Type) (st : State World) :
  getHealth st
  = (mkState (world st) (trace st ++ [Respond 200 (Health "initializing")])
       (whatsappClient st) (tally st) (lastError st), Normal tt).
Proof. reflexivity. Qed.

(** C7. Once [setWhatsAppClient] has stored a session and the [info] of
    that session is populated, a state in which [POST /send] accepts the
    session as ready, [GET /health] still answers with the status
    "initializing", not "ready". *)
Theorem C7_ready_session_is_reported_initializing :
  forall (World : Type) (client : Client World) (st : State World),
    whatsappClient st = Some client ->
    info client (world st) = true ->
    responses (since st (fst (getHealth st))) = [(200, Health "initializing")].
Proof.
  intros World client st _ _. rewrite getHealth_run. cbn [fst].
  now rewrite (since_app st _ [Respond 200 (Health "initializing")]).
Qed.

Lemma C7_ready_session_witness :
  responses (since (Scripted.ready Scripted.client [])
               (fst (getHealth (Scripted.ready Scripted.client []))))
  = [(200, Health "initializing")].
Proof.
  apply (C7_ready_session_is_reported_initializing
           Scripted.World Scripted.client (Scripted.ready Scripted.client []));
    reflexivity.
Defined.

(** ** The media resolver *)

(** The base64 branch of the batch handler on content the pattern
    accepts and on content without the [data:] prefix. *)
Lemma batchBase64Media_resolves (mime payload content : string) :
  (mime <> EmptyString -> DataUri.allChars DataUri.mimeChar mime = true ->
   payload <> EmptyString -> DataUri.allChars DataUri.dotChar payload = true ->
   batchBase64Media ("data:" ++ mime ++ ";base64," ++ payload) = mkMedia mime payload)
  /\ (Js.startsWith content "data:" = false ->
      batchBase64Media content = mkMedia "image/png" content).
Proof.
  split.
  - intros Hm Hc Hp Hd. unfold batchBase64Media.
    rewrite (matchDataUri_accepts mime payload Hm Hc Hp Hd).
    now rewrite startsWith_append.
  - intros H. unfold batchBase64Media. now rewrite H.
Qed.

Example batchBase64Media_jpeg :
  batchBase64Media "data:image/jpeg;base64,AAAA" = mkMedia "image/jpeg" "AAAA".
Proof. reflexivity. Qed.

(** C8. [POST /send] with base64 content of the form
    [data:<mime>;base64,<payload>] that the pattern accepts does not
    resolve it to the MIME type and the payload: the assignment to the
    constant [mediaContent] throws, the handler answers 500 "Failed to
    process media content" and nothing is sent. *)
Theorem C8_send_fails_on_a_matching_data_uri :
  forall (World : Type) (ext : Externals World) (client : Client World)
         (body : MessageData) (st : State World) (mime payload : string),
    Js.truthy (groupId body) = true ->
    Js.truthy (html body) = false ->
    mediaType body = Some "base64" ->
    mediaContent body = Some ("data:" ++ mime ++ ";base64," ++ payload)%string ->
    mime <> EmptyString -> DataUri.allChars DataUri.mimeChar mime = true ->
    payload <> EmptyString -> DataUri.allChars DataUri.dotChar payload = true ->
    whatsappClient st = Some client -> info client (world st) = true ->
    postSend ext body st
    = (mkState (world st)
         (trace st ++ [Log (ErrorProcessingMedia Js.typeErrorConstAssign);
                       Respond 500 (MediaProcessingFailed
                                      (Some "Assignment to constant variable."))])
         (whatsappClient st) (tally st) (lastError st), Normal tt).
Proof.
  intros World ext client body st mime payload G H T C Hm Hc Hp Hd W I.
  assert (Content : Js.truthy (mediaContent body) = true) by now rewrite C.
  assert (R : sendResolveMedia ext body st
              = (mkState (world st)
                   (trace st ++ [Log (ErrorProcessingMedia Js.typeErrorConstAssign);
                                 Respond 500 (MediaProcessingFailed
                                                (Some "Assignment to constant variable."))])
                   (whatsappClient st) (tally st) (lastError st), Return)).
  { unfold sendResolveMedia. rewrite H, Content, T, C.
    cbn [Js.truthy Js.orEmpty negb andb String.eqb Ascii.eqb Bool.eqb].
    unfold tryCatch, sendBase64Media, bind.
    rewrite (matchDataUri_accepts mime payload Hm Hc Hp Hd), startsWith_append.
    unfold throw, log, respond, emit, return_.
    cbn [world trace whatsappClient tally lastError Js.messageOf Js.typeErrorConstAssign].
    now rewrite <- app_assoc. }
  unfold postSend. rewrite G, Content. cbn [negb]. rewrite andb_false_r. cbn [andb].
  apply call_return, tryCatch_return.
  erewrite bind_normal by (unfold getWhatsAppClient; rewrite W; reflexivity).
  cbv beta iota.
  erewrite bind_normal by (unfold readWorld; rewrite I; reflexivity).
  cbn [negb]. now apply bind_return.
Qed.

Lemma C8_send_jpeg_witness :
  postSend Scripted.ext (Scripted.base64To "g" "data:image/jpeg;base64,AAAA")
    (Scripted.ready Scripted.client [])
  = (mkState [] [Log (ErrorProcessingMedia Js.typeErrorConstAssign);
                 Respond 500 (MediaProcessingFailed
                                (Some "Assignment to constant variable."))]
       (Some Scripted.client) None None, Normal tt).
Proof.
  apply (C8_send_fails_on_a_matching_data_uri
           Scripted.World Scripted.ext Scripted.client
           (Scripted.base64To "g" "data:image/jpeg;base64,AAAA")
           (Scripted.ready Scripted.client []) "image/jpeg" "AAAA");
    first [reflexivity | discriminate].
Defined.

(** C9. [POST /send] with markup does not render the markup it was
    given: it passes the string itself to [htmlToImage], which reads the
    properties [htmlContent], [vh] and [vw] of its argument, so that the
    browser is handed [undefined] as content once, in a viewport of 800
    by 800 whatever [vw] and [vh] the request carries. *)
Theorem C9_send_renders_undefined_instead_of_the_markup :
  forall (World : Type) (ext : Externals World) (client : Client World)
         (body : MessageData) (st : State World),
    Js.truthy (groupId body) = true ->
    Js.truthy (html body) = true ->
    whatsappClient st = Some client -> info client (world st) = true ->
    rendered (since st (fst (postSend ext body st))) = [(None, 800, 800)].
Proof.
  intros World ext client body st G H W I.
  unfold postSend. rewrite G, H. cbn [negb]. rewrite andb_false_r. cbn [andb].
  unfold call, tryCatch at 1.
  erewrite bind_normal by (unfold getWhatsAppClient; rewrite W; reflexivity).
  cbv beta iota.
  erewrite bind_normal by (unfold readWorld; rewrite I; reflexivity).
  cbn [negb].
  unfold sendResolveMedia, htmlToImage, tryCatch, bind, invoke, log, respond,
    emit, return_, throw, ret.
  rewrite H.
  cbn [fst snd world trace whatsappClient tally lastError Js.orDefault].
  destruct (puppeteer ext None 800 800 (world st)) as [w1 [f|e1]];
    cbn [fst snd world trace whatsappClient tally lastError].
  - destruct (fromFilePath ext ("./" ++ filePath f) w1) as [w2 [m|e2]];
      cbn [fst snd world trace whatsappClient tally lastError].
    + destruct (sendMessage client _ _ _ w2) as [w3 [[]|e3]];
        cbn [fst snd world trace whatsappClient tally lastError];
        (erewrite since_app by (cbn [trace]; rewrite <- ?app_assoc; reflexivity));
        reflexivity.
    + erewrite since_app by (cbn [trace]; rewrite <- ?app_assoc; reflexivity).
      reflexivity.
  - erewrite since_app by (cbn [trace]; rewrite <- ?app_assoc; reflexivity).
    reflexivity.
Qed.

Lemma C9_send_markup_witness :
  rendered (since (Scripted.ready Scripted.client [])
              (fst (postSend Scripted.ext
                      (mkMessage (Some "g") None None None (Some "<b>Hello</b>")
                         (Some 600) (Some 400))
                      (Scripted.ready Scripted.client []))))
  = [(None, 800, 800)].
Proof.
  apply (C9_send_renders_undefined_instead_of_the_markup
           Scripted.World Scripted.ext Scripted.client
           (mkMessage (Some "g") None None None (Some "<b>Hello</b>")
              (Some 600) (Some 400))
           (Scripted.ready Scripted.client []));
    reflexivity.
Defined.

(** X19. The batch handler, for comparison, hands the browser the markup and
    the requested viewport, 800 standing in for a missing dimension. *)
Lemma batch_renders_the_markup (World : Type) (ext : Externals World) (n i : nat)
    (md : MessageData) (st : State World) :
  Js.truthy (html md) = true ->
  exists evs,
    trace (fst (batchResolveMedia ext n i md st))
    = (trace st ++ Puppeteer (html md) (Js.orDefault (vw md) 800)
                     (Js.orDefault (vh md) 800) :: evs)%list
    /\ rendered evs = [].
Proof.
  intros H.
  unfold batchResolveMedia, htmlToImage, tryCatch, bind, invoke, log, emit,
    incrFailure, setTally, continue, throw, ret.
  rewrite H. cbn [fst snd world trace whatsappClient tally lastError].
  destruct (puppeteer ext (html md) _ _ (world st)) as [w1 [f|e1]];
    cbn [fst snd world trace whatsappClient tally lastError].
  - destruct (fromFilePath ext ("./" ++ filePath f) w1) as [w2 [m|e2]];
      cbn [fst snd world trace whatsappClient tally lastError];
      eexists; (split; [rewrite <- ?app_assoc; reflexivity | reflexivity]).
  - eexists; (split; [rewrite <- ?app_assoc; reflexivity | reflexivity]).
Qed.

(** C10. Base64 content that starts with [data:] and whose MIME type,
    the text before [;base64,], has a character outside letters, [-],
    [+] and [/], is not matched by the pattern: both handlers build the
    media with the default type [image/png] and the whole content,
    prefix included, as its data. *)
Theorem C10_foreign_mime_keeps_default_and_prefix :
  forall (World : Type) (mime payload : string) (st : State World),
    DataUri.allChars DataUri.mimeChar mime = false ->
    Js.includes mime ";base64," = false ->
    let content := ("data:" ++ mime ++ ";base64," ++ payload)%string in
    DataUri.matchDataUri content = None
    /\ batchBase64Media content = mkMedia "image/png" content
    /\ sendBase64Media content st = (st, Normal (mkMedia "image/png" content)).
Proof.
  intros World mime payload st Hout Hmark content.
  assert (Hnone : DataUri.matchDataUri content = None).
  { subst content. unfold DataUri.matchDataUri. rewrite stripPrefix_append.
    destruct (split_at_first_outsider _ _ Hout) as (m1 & c & rest & -> & Hm1 & Hc).
    rewrite append_assoc.
    change ((String c rest ++ ";base64," ++ payload)%string)
      with (String c (rest ++ ";base64," ++ payload)%string).
    destruct (takeWhile_stops DataUri.mimeChar m1 c
                (rest ++ ";base64," ++ payload)%string Hm1 Hc) as [-> ->].
    destruct (m1 =? EmptyString)%string; [reflexivity|].
    destruct (DataUri.stripPrefix ";base64," _) as [r|] eqn:Hs; [|reflexivity].
    apply marker_inside in Hs.
    rewrite (includes_append_left m1 _ _ (includes_prefix _ _ Hs)) in Hmark.
    discriminate Hmark. }
  split; [exact Hnone|].
  unfold batchBase64Media, sendBase64Media. rewrite Hnone.
  destruct (Js.startsWith content "data:"); split; reflexivity.
Qed.

Lemma C10_video_mp4_witness :
  batchBase64Media "data:video/mp4;base64,AAAA"
  = mkMedia "image/png" "data:video/mp4;base64,AAAA".
Proof.
  exact (proj1 (proj2 (C10_foreign_mime_keeps_default_and_prefix
                         Scripted.World "video/mp4" "AAAA"
                         (Scripted.ready Scripted.client [])
                         eq_refl eq_refl))).
Defined.

(** * Further properties *)

(** ** The API key *)

(** X1. A request passes [apiKeyAuth] exactly when its [x-api-key] header is
    a non-empty string equal to the configured key. *)
Theorem apiKeyAuth_passes_iff (apiKey API_KEY : option string) :
  apiKeyAuth apiKey API_KEY = Next
  <-> exists key, key <> EmptyString /\ apiKey = Some key /\ API_KEY = Some key.
Proof.
  unfold apiKeyAuth, strictlyDiffers, Js.truthy. split.
  - destruct apiKey as [a|]; [|discriminate].
    destruct (String.eqb_spec a EmptyString) as [->|Hne]; [discriminate|].
    destruct API_KEY as [e|]; [|discriminate].
    destruct (String.eqb_spec a e) as [->|]; [|discriminate].
    intros _. now exists e.
  - intros (key & Hne & -> & ->).
    apply String.eqb_neq in Hne. now rewrite Hne, String.eqb_refl.
Qed.

(** X2. With no key configured, or with an empty one, every request is
    answered 401, whatever header it carries. *)
Theorem apiKeyAuth_without_a_configured_key (apiKey API_KEY : option string) :
  API_KEY = None \/ API_KEY = Some EmptyString ->
  apiKeyAuth apiKey API_KEY = Unauthorized.
Proof.
  intros [-> | ->]; unfold apiKeyAuth, strictlyDiffers, Js.truthy.
  - destruct apiKey as [a|]; [|reflexivity]. now rewrite orb_true_r.
  - destruct apiKey as [a|]; [|reflexivity].
    destruct (a =? EmptyString)%string; reflexivity.
Qed.

Lemma apiKeyAuth_unset_key_witness :
  apiKeyAuth (Some "undefined") None = Unauthorized.
Proof. apply apiKeyAuth_without_a_configured_key. now left. Defined.

(** ** [POST /send] *)

(** Runs a handler symbolically: unfolds the combinators and splits on
    every test and on every answer of a collaborator. *)
Ltac run_cases :=
  repeat (cbv beta iota zeta;
          cbn [fst snd world trace whatsappClient tally lastError];
          match goal with
          | |- context [match ?x with _ => _ end] =>
              lazymatch x with
              | context [match _ with _ => _ end] => fail
              | _ => destruct x eqn:?
              end
          end).


Ltac unfold_send :=
  cbv beta iota delta
    [postSend sendResolveMedia sendBase64Media htmlToImage call tryCatch bind
     getWhatsAppClient readWorld invoke log respond emit return_ throw ret].


(** X4. [POST /send] has no retry policy: in every run [client.sendMessage]
    is called at most once, [client.refreshState] never, and no timer is
    armed. The answer is 200 only when a message was handed to the
    client. *)
Theorem postSend_never_retries :
  forall (World : Type) (ext : Externals World) (body : MessageData)
         (st : State World),
    exists st' evs,
      postSend ext body st = (st', Normal tt)
      /\ trace st' = (trace st ++ evs)%list
      /\ (List.length (sends evs) <= 1)%nat
      /\ allTimers evs = []
      /\ refreshCalls evs = 0%nat
      /\ (forall reply, In (200, reply) (responses evs) ->
          List.length (sends evs) = 1%nat).
Proof.
  intros World ext body st. unfold_send.
  run_cases;
    (eexists; eexists; split; [reflexivity|];
     split; [cbn [fst trace]; rewrite <- ?app_assoc; reflexivity|];
     cbn; repeat split; auto;
     intros reply [H | []]; first [reflexivity | discriminate H]).
Qed.

(** X5. A body without a group id, or without any of [message],
    [mediaContent] and [html], is answered 400 before the session is
    looked at: nothing else happens, whether a session is stored or
    not. *)
Theorem postSend_rejects_an_incomplete_body :
  forall (World : Type) (ext : Externals World) (body : MessageData)
         (st : State World),
    Js.truthy (groupId body) = false
    \/ (Js.truthy (message body) = false /\ Js.truthy (mediaContent body) = false
        /\ Js.truthy (html body) = false) ->
    exists reply,
      (reply = GroupIdRequired \/ reply = ContentRequired)
      /\ postSend ext body st
         = (mkState (world st) (trace st ++ [Respond 400 reply]) (whatsappClient st)
              (tally st) (lastError st), Normal tt).
Proof.
  intros World ext body st Hbad. unfold_send.
  destruct (Js.truthy (groupId body)) eqn:G; cbn [negb].
  - destruct Hbad as [Hbad | (M & C & H)]; [discriminate|].
    rewrite M, C, H. cbn [negb andb]. exists ContentRequired. auto.
  - exists GroupIdRequired. auto.
Qed.

Lemma postSend_empty_body_witness :
  exists reply,
    (reply = GroupIdRequired \/ reply = ContentRequired)
    /\ postSend Steady.ext (mkMessage None None None None None None None)
         (processStart tt)
       = (mkState tt [Respond 400 reply] None None None, Normal tt).
Proof.
  apply (postSend_rejects_an_incomplete_body Steady.World Steady.ext
           (mkMessage None None None None None None None) (processStart tt)).
  left. reflexivity.
Defined.

(** X6. A complete body is answered 503 as long as no session is stored or
    the stored session has no [info]: nothing is rendered, fetched or
    sent, and the world is left as it was. *)
Theorem postSend_refuses_until_the_session_is_ready :
  forall (World : Type) (ext : Externals World) (body : MessageData)
         (st : State World),
    Js.truthy (groupId body) = true ->
    negb (Js.truthy (message body)) && negb (Js.truthy (mediaContent body))
    && negb (Js.truthy (html body)) = false ->
    match whatsappClient st with
    | Some client => info client (world st) = false
    | None => True
    end ->
    postSend ext body st
    = (mkState (world st)
         (trace st
          ++ match whatsappClient st with
             | Some _ => []
             | None => [Log WarnClientUndefined]
             end
          ++ [Respond 503 ClientNotReady])
         (whatsappClient st) (tally st) (lastError st), Normal tt).
Proof.
  intros World ext body st G C R. unfold_send. rewrite G, C. cbn [negb].
  destruct (whatsappClient st) as [client|] eqn:W.
  - cbn [fst snd world trace whatsappClient tally lastError]. rewrite R.
    cbn [negb fst snd world trace whatsappClient tally lastError app].
    now rewrite ?W.
  - cbn [fst snd world trace whatsappClient tally lastError app].
    now rewrite <- app_assoc, ?W.
Qed.

Lemma postSend_before_ready_witness :
  postSend Steady.ext (Scripted.textTo "g" "hello") (processStart tt)
  = (mkState tt [Log WarnClientUndefined; Respond 503 ClientNotReady]
       None None None, Normal tt).
Proof.
  apply (postSend_refuses_until_the_session_is_ready Steady.World Steady.ext
           (Scripted.textTo "g" "hello") (processStart tt));
    first [reflexivity | exact I].
Defined.



(** X8. A body whose media content comes with a type that is neither base64
    nor url is answered 400 'Invalid mediaType' once the session is
    ready, and nothing is sent, its text included. *)
Theorem postSend_rejects_an_unsupported_media_type :
  forall (World : Type) (ext : Externals World) (client : Client World)
         (body : MessageData) (st : State World) (g content type : string),
    groupId body = Some g -> g <> EmptyString ->
    Js.truthy (html body) = false ->
    mediaContent body = Some content -> content <> EmptyString ->
    mediaType body = Some type -> type <> EmptyString ->
    type <> "base64"%string -> type <> "url"%string ->
    whatsappClient st = Some client ->
    info client (world st) = true ->
    postSend ext body st
    = (mkState (world st) (trace st ++ [Respond 400 InvalidMediaType])
         (whatsappClient st) (tally st) (lastError st), Normal tt).
Proof.
  intros World ext client body st g content type
    G Gne H C Cne T Tne Tb Tu W I.
  apply String.eqb_neq in Gne, Cne, Tne, Tb, Tu.
  assert (Gt : Js.truthy (groupId body) = true)
    by (rewrite G; unfold Js.truthy; now rewrite Gne).
  assert (Ct : Js.truthy (mediaContent body) = true)
    by (rewrite C; unfold Js.truthy; now rewrite Cne).
  assert (Tt : Js.truthy (mediaType body) = true)
    by (rewrite T; unfold Js.truthy; now rewrite Tne).
  unfold_send. rewrite Gt, Ct, Tt, H. cbn [negb andb]. rewrite andb_false_r.
  cbn [andb]. rewrite W. cbv beta iota.
  cbn [negb fst snd world trace whatsappClient tally lastError]. rewrite I.
  cbv beta iota. rewrite T. cbn [Js.orEmpty]. rewrite Tb, Tu.
  cbn [negb fst snd world trace whatsappClient tally lastError].
  rewrite ?W. reflexivity.
Qed.

Lemma postSend_video_type_witness :
  postSend Steady.ext
    (mkMessage (Some "1203630@g.us") (Some "see the clip") (Some "video")
       (Some "AAAA") None None None)
    Steady.ready
  = (mkState tt [Respond 400 InvalidMediaType] (Some Steady.client) None None,
     Normal tt).
Proof.
  apply (postSend_rejects_an_unsupported_media_type Steady.World Steady.ext
           Steady.client
           (mkMessage (Some "1203630@g.us") (Some "see the clip") (Some "video")
              (Some "AAAA") None None None)
           Steady.ready "1203630@g.us" "AAAA" "video");
    first [reflexivity | discriminate].
Defined.

(** ** More on the retry policy *)

Section RetryShape.

Context {World : Type}.
Variable ext : Externals World.
Variable client : Client World.
Variables (g : string) (content : Content) (options : SendOptions).

Let turn (attempt : Z) : M World unit :=
  tryCatch (attemptSend ext client g content options)
    (onAttemptFailure ext client attempt).

(** What one turn of the loop records, by the way it completes: a
    return after a send, a normal completion after a failure and its
    backoff, or a break or a throw after a failure without backoff. *)
Lemma retry_turn_shape (attempt : Z) (st st' : State World) (r : Completion unit) :
  turn attempt st = (st', r) ->
  exists evs,
    trace st' = (trace st ++ evs)%list
    /\ ((timers Settle evs = [] /\ sends evs = [])
        \/ (timers Settle evs = [2000] /\ sends evs = [(g, content, options)]))
    /\ ((r = Return /\ failedAttempts evs = [] /\ timers Backoff evs = []
         /\ sends evs <> [])
        \/ (r = Normal tt /\ map fst (failedAttempts evs) = [attempt]
            /\ timers Backoff evs = [2 ^ attempt * 3000])
        \/ ((r = Break \/ exists e, r = Throw e)
            /\ map fst (failedAttempts evs) = [attempt]
            /\ timers Backoff evs = [])).
Proof.
  unfold turn, tryCatch.
  destruct (attemptSend ext client g content options st) as [s1 r1] eqn:A.
  destruct (attemptSend_cases _ _ _ _ _ _ _ _ A) as [[-> ->] | [Ta Hr]].
  - destruct (onAttemptFailure_transient ext client attempt
                "WhatsApp client not fully initialized" st eq_refl)
      as (s2 & evs & E & R & Tr & _ & _).
    destruct (retriedFailure_read client _ _ _ R) as (F & B & _ & Sn).
    destruct R as (refresh & Hrefresh & ->).
    rewrite E. intros H; inversion H; subst. eexists. split; [exact Tr|].
    split.
    + left. split; [|exact Sn]. cbn [timers]. unfold refreshEvents in Hrefresh.
      destruct (refreshState client); [destruct Hrefresh as [-> | [m ->]] | subst];
        reflexivity.
    + right; left. rewrite F, B. auto.
  - destruct Hr as [-> | [e ->]].
    + intros H; inversion H; subst. eexists. split; [exact Ta|].
      split; [now right|]. left. cbn. repeat split; discriminate.
    + destruct e as [msg|].
      * destruct (hasTransientMarker msg) eqn:T.
        -- destruct (onAttemptFailure_transient ext client attempt msg s1 T)
             as (s2 & evs & E & R & Tr & _ & _).
           destruct (retriedFailure_read client _ _ _ R) as (F & B & _ & Sn).
           destruct R as (refresh & Hrefresh & ->).
           rewrite E. intros H; inversion H; subst.
           eexists ([Sleep Settle 2000; SendMessage g content options] ++ _)%list.
           split; [rewrite Tr, Ta, <- app_assoc; reflexivity|].
           rewrite failedAttempts_app, !timers_app, sends_app, F, B, Sn.
           cbn [failedAttempts timers sends app].
           split; [|right; left; auto].
           right. split; [|reflexivity]. unfold refreshEvents in Hrefresh.
           destruct (refreshState client); [destruct Hrefresh as [-> | [m ->]] | subst];
             reflexivity.
        -- rewrite onAttemptFailure_permanent by exact T.
           intros H; inversion H; subst.
           eexists [Sleep Settle 2000; SendMessage g content options;
                    Log (WarnAttemptFailed attempt MAX_RETRIES (Some msg))].
           split; [cbn [trace]; rewrite Ta, <- app_assoc; reflexivity|].
           split; [now right|]. right; right. cbn. auto.
      * rewrite onAttemptFailure_not_an_error. intros H; inversion H; subst.
        eexists [Sleep Settle 2000; SendMessage g content options;
                 Log (WarnAttemptFailed attempt MAX_RETRIES None)].
        split; [cbn [trace]; rewrite Ta, <- app_assoc; reflexivity|].
        split; [now right|]. right; right. cbn. eauto.
Qed.

End RetryShape.

Section RetrySchedule.

Context {World : Type}.
Variable ext : Externals World.
Variable client : Client World.
Variables (g : string) (content : Content) (options : SendOptions).

(** The loop over a list of attempt numbers: [k] turns failed and were
    retried after their backoff, and the loop ended either by a return
    or by running out of attempts ([j = k]) or by one more failure that
    was not retried ([j = S k]); [a] attempts reached the client. *)
Lemma retryLoop_shape (ks : list Z) (st st' : State World) (r : Completion unit) :
  forEach (fun a => tryCatch (attemptSend ext client g content options)
                      (onAttemptFailure ext client a)) ks st = (st', r) ->
  exists evs k j a,
    trace st' = (trace st ++ evs)%list
    /\ (j = k \/ j = S k) /\ (j <= List.length ks)%nat
    /\ timers Backoff evs = map (fun a => 2 ^ a * 3000) (firstn k ks)
    /\ map fst (failedAttempts evs) = firstn j ks
    /\ (a <= List.length ks)%nat
    /\ timers Settle evs = repeat 2000 a
    /\ sends evs = repeat (g, content, options) a
    /\ (r = Return \/ r = Normal tt \/ exists e, r = Throw e)
    /\ (r = Return -> j = k /\ (k < List.length ks)%nat /\ (1 <= a)%nat).
Proof.
  revert st. induction ks as [|n ks IH]; intros st H; simpl in H.
  - inversion H; subst. exists [], 0%nat, 0%nat, 0%nat. rewrite app_nil_r. cbn.
    repeat split; auto. all: discriminate.
  - destruct (tryCatch _ _ st) as [s1 r1] eqn:B.
    destruct (retry_turn_shape _ _ _ _ _ _ _ _ _ B) as (e1 & T1 & Se & Hcase).
    assert (Sa : exists a1, (a1 <= 1)%nat /\ timers Settle e1 = repeat 2000 a1
                            /\ sends e1 = repeat (g, content, options) a1
                            /\ (sends e1 <> [] -> a1 = 1%nat)).
    { destruct Se as [[-> ->] | [-> ->]]; [exists 0%nat | exists 1%nat];
        cbn; repeat split; auto. congruence. }
    destruct Sa as (a1 & La1 & Q1 & N1 & One).
    destruct Hcase as [(-> & F & Bk & Sd)
                      | [(-> & F & Bk) | (Hr & F & Bk)]].
    + inversion H; subst. exists e1, 0%nat, 0%nat, a1. rewrite F, Bk, Q1, N1. cbn.
      specialize (One Sd). subst a1.
      repeat split; auto; try lia.
    + destruct (IH _ H)
        as (e2 & k & j & a2 & T2 & Hj & Lj & B2 & F2 & La2 & Q2 & N2 & R2 & Ret).
      exists (e1 ++ e2)%list, (S k), (S j), (a1 + a2)%nat.
      rewrite failedAttempts_app, map_app, !timers_app, sends_app, F, Bk, B2, F2, T2, T1,
        Q1, Q2, N1, N2, <- app_assoc, !repeat_app.
      cbn [app firstn map List.length].
      split; [reflexivity|]. split; [lia|]. split; [lia|].
      split; [reflexivity|]. split; [reflexivity|]. split; [lia|].
      split; [reflexivity|]. split; [reflexivity|]. split; [exact R2|].
      intros Hret. destruct (Ret Hret) as (-> & Lk & Sn).
      split; [reflexivity|]. split; lia.
    + assert (Hres : st' = s1 /\ (r = Normal tt \/ exists e, r = Throw e)).
      { destruct Hr as [-> | [e ->]]; inversion H; subst; eauto. }
      destruct Hres as [-> Hr'].
      exists e1, 0%nat, 1%nat, a1. rewrite F, Bk, Q1, N1. cbn.
      split; [exact T1|]. split; [auto|]. split; [lia|].
      split; [reflexivity|]. split; [reflexivity|]. split; [lia|].
      split; [reflexivity|]. split; [reflexivity|]. split; [auto|].
      intros ->. destruct Hr' as [? | [? ?]]; discriminate.
Qed.

End RetrySchedule.

(** X9. In every run of a send with retries the waits follow one schedule.
    The [a] attempts that reach the client, three at most, are each
    preceded by a settle delay of 2000 ms and hand over the same
    content and options; the backoffs slept are the first [k] of 6000,
    12000 and 24000 ms; the failures logged are numbered from 1 without
    a gap and are at most one more than the backoffs. The call returns
    normally only when fewer than three attempts failed and the client
    was reached. *)
Theorem sendMessageWithRetry_follows_the_backoff_schedule {World : Type}
    (ext : Externals World) (client : Client World) (g : string)
    (content : Content) (options : SendOptions) (st : State World) :
  exists st' r evs k j a,
    sendMessageWithRetry ext client g content options st = (st', r)
    /\ since st st' = evs
    /\ (j = k \/ j = S k) /\ (j <= 3)%nat
    /\ timers Backoff evs = firstn k [6000; 12000; 24000]
    /\ map fst (failedAttempts evs) = firstn j [1; 2; 3]
    /\ (a <= 3)%nat
    /\ timers Settle evs = repeat 2000 a
    /\ sends evs = repeat (g, content,
                           match options with
                           | OptionsUndefined => OptionsEmpty
                           | _ => options
                           end) a
    /\ (r = Normal tt -> j = k /\ (k <= 2)%nat /\ (1 <= a)%nat).
Proof.
  unfold sendMessageWithRetry, call, retryLoop. rewrite range_attempts.
  unfold bind at 1. cbn [setLastError]. unfold bind at 1.
  match goal with
  | |- context [forEach ?b ?l ?s] => destruct (forEach b l s) as [s1 r1] eqn:L
  end.
  destruct (retryLoop_shape _ _ _ _ _ _ _ _ _ L)
    as (evs & k & j & a & T & Hj & Lj & B & F & La & Q & N & R & Ret).
  cbn [trace List.length] in T, Lj, La.
  assert (Bk : timers Backoff evs = firstn k [6000; 12000; 24000]).
  { rewrite B. destruct k as [|[|[|k]]]; cbn [firstn map]; rewrite ?firstn_nil;
      reflexivity. }
  destruct R as [-> | [-> | [e ->]]].
  - destruct (Ret eq_refl) as (-> & Lk & Sn). cbn [List.length] in Lk.
    exists s1, (Normal tt), evs, k, k, a.
    split; [reflexivity|]. split; [apply since_app; exact T|].
    do 7 (split; [solve [auto]|]). intros _. split; [reflexivity|]. split; lia.
  - unfold bind, getLastError, throw.
    destruct (lastError s1) as [e|];
      (eexists s1, _, evs, k, j, a; split; [reflexivity|];
       split; [apply since_app; exact T|];
       do 7 (split; [solve [auto]|]); discriminate).
  - exists s1, (Throw e), evs, k, j, a. split; [reflexivity|].
    split; [apply since_app; exact T|].
    do 7 (split; [solve [auto]|]). discriminate.
Qed.

Section RetryEdges.

Context {World : Type}.
Variable ext : Externals World.
Variable client : Client World.
Variables (g : string) (content : Content).

(** An attempt on a session without a page or a browser throws before
    the settle delay. *)
Lemma attemptSend_uninitialised (options : SendOptions) (st : State World) :
  pupPage client (world st) && pupBrowser client (world st) = false ->
  attemptSend ext client g content options st
  = (st, Throw (Js.Error "WhatsApp client not fully initialized")).
Proof.
  intros H. unfold attemptSend, bind, readWorld, throw.
  destruct (pupPage client (world st)), (pupBrowser client (world st));
    try discriminate H; destruct st; reflexivity.
Qed.

(** An attempt on an initialised session whose send resolves. *)
Lemma attemptSend_resolves (options : SendOptions) (st : State World) :
  pupPage client (world st) = true ->
  pupBrowser client (world st) = true ->
  snd (sendMessage client g content options (elapse ext 2000 (world st))) = inl tt ->
  attemptSend ext client g content options st
  = (mkState (fst (sendMessage client g content options (elapse ext 2000 (world st))))
       (trace st ++ [Sleep Settle 2000; SendMessage g content options])
       (whatsappClient st) (tally st) (lastError st),
     Return).
Proof.
  intros P B S. unfold attemptSend, bind, readWorld, sleep, invoke, return_, throw, ret, emit.
  rewrite P, B. cbn.
  destruct (sendMessage client g content options (elapse ext 2000 (world st)))
    as [w [[]|e]]; [|discriminate S].
  cbn. now rewrite <- app_assoc.
Qed.

End RetryEdges.

(** X10. A send through a session that never has both a page and a
    browser is never handed to the client. The three attempts fail
    before their settle delay, the three backoffs of 6000, 12000 and
    24000 ms are slept all the same, and the call throws 'WhatsApp
    client not fully initialized'. *)
Theorem sendMessageWithRetry_never_reaches_an_uninitialised_session
    {World : Type} (ext : Externals World) (client : Client World)
    (g : string) (content : Content) (options : SendOptions) (st : State World) :
  (forall w, pupPage client w && pupBrowser client w = false) ->
  exists st',
    sendMessageWithRetry ext client g content options st
    = (st', Throw (Js.Error "WhatsApp client not fully initialized"))
    /\ sends (since st st') = []
    /\ timers Settle (since st st') = []
    /\ timers Backoff (since st st') = [6000; 12000; 24000]
    /\ failedAttempts (since st st')
       = [(1, Some "WhatsApp client not fully initialized");
          (2, Some "WhatsApp client not fully initialized");
          (3, Some "WhatsApp client not fully initialized")].
Proof.
  intros Hdown.
  set (msg := "WhatsApp client not fully initialized").
  assert (Turn : forall a s,
             exists s' evs,
               tryCatch (attemptSend ext client g content
                           match options with
                           | OptionsUndefined => OptionsEmpty
                           | _ => options
                           end)
                 (onAttemptFailure ext client a) s = (s', Normal tt)
               /\ trace s' = (trace s ++ evs)%list
               /\ sends evs = [] /\ timers Settle evs = []
               /\ timers Backoff evs = [2 ^ a * 3000]
               /\ failedAttempts evs = [(a, Some msg)]
               /\ lastError s' = Some (Js.Error msg)).
  { intros a s.
    destruct (onAttemptFailure_transient ext client a msg s eq_refl)
      as (s' & evs & E & R & Tr & _ & L).
    exists s', evs.
    split.
    { erewrite tryCatch_throw; [exact E|].
      apply attemptSend_uninitialised. apply Hdown. }
    destruct (retriedFailure_read client _ _ _ R) as (F & B & _ & S).
    repeat (split; [assumption|]).
    split; [|auto].
    destruct R as (refresh & Hr & ->). unfold refreshEvents in Hr.
    destruct (refreshState client); [destruct Hr as [-> | [m ->]] | subst];
      reflexivity. }
  unfold sendMessageWithRetry, call, retryLoop. rewrite range_attempts.
  unfold bind at 1. cbn [setLastError]. unfold bind at 1.
  match goal with
  | |- context [forEach _ _ ?s] => set (s0 := s)
  end.
  destruct (Turn 1 s0) as (s1 & e1 & E1 & T1 & S1 & Q1 & B1 & F1 & _).
  destruct (Turn 2 s1) as (s2 & e2 & E2 & T2 & S2 & Q2 & B2 & F2 & _).
  destruct (Turn 3 s2) as (s3 & e3 & E3 & T3 & S3 & Q3 & B3 & F3 & L3).
  erewrite forEach_next by exact E1.
  erewrite forEach_next by exact E2.
  erewrite forEach_next by exact E3.
  cbn [forEach ret]. unfold bind, getLastError. rewrite L3.
  exists s3. split; [reflexivity|].
  assert (Hs : since st s3 = (e1 ++ e2 ++ e3)%list).
  { apply since_app. rewrite T3, T2, T1. subst s0. cbn [trace].
    now rewrite <- !app_assoc. }
  rewrite Hs, !sends_app, !timers_app, !failedAttempts_app,
    S1, S2, S3, Q1, Q2, Q3, B1, B2, B3, F1, F2, F3.
  repeat split.
Qed.

Lemma sendMessageWithRetry_page_gone_witness :
  exists st',
    sendMessageWithRetry Down.ext Down.client "1203630@g.us" (Text "hello")
      OptionsUndefined Down.stored
    = (st', Throw (Js.Error "WhatsApp client not fully initialized"))
    /\ sends (since Down.stored st') = []
    /\ timers Settle (since Down.stored st') = []
    /\ timers Backoff (since Down.stored st') = [6000; 12000; 24000]
    /\ failedAttempts (since Down.stored st')
       = [(1, Some "WhatsApp client not fully initialized");
          (2, Some "WhatsApp client not fully initialized");
          (3, Some "WhatsApp client not fully initialized")].
Proof.
  apply (sendMessageWithRetry_never_reaches_an_uninitialised_session
           Down.ext Down.client "1203630@g.us" (Text "hello") OptionsUndefined
           Down.stored).
  intros w. reflexivity.
Defined.

(** X11. When the client rejects the first attempt with a value that has
    no message, the [catch] block itself fails on [error.message.includes]:
    the send ends with that [TypeError] after one attempt and one
    logged failure, without backoff, and the rejected value is lost. *)
Theorem sendMessageWithRetry_loses_a_rejection_without_message
    {World : Type} (ext : Externals World) (client : Client World)
    (g : string) (content : Content) (options : SendOptions)
    (st st1 : State World) :
  let sent := match options with
              | OptionsUndefined => OptionsEmpty
              | _ => options
              end in
  attemptSend ext client g content sent (fst (setLastError None st))
  = (st1, Throw Js.NotAnError) ->
  exists st',
    sendMessageWithRetry ext client g content options st
    = (st', Throw Js.typeErrorIncludes)
    /\ since st st' = [Sleep Settle 2000; SendMessage g content sent;
                       Log (WarnAttemptFailed 1 MAX_RETRIES None)].
Proof.
  intros sent A.
  unfold sendMessageWithRetry. fold sent. unfold call, retryLoop.
  rewrite range_attempts. unfold bind at 1. cbn [setLastError]. unfold bind at 1.
  cbn [fst setLastError] in A. cbn [forEach]. unfold tryCatch at 1. rewrite A.
  rewrite onAttemptFailure_not_an_error. eexists. split; [reflexivity|].
  apply since_app. cbn [trace].
  destruct (attemptSend_cases _ _ _ _ _ _ _ _ A) as [[_ Hr] | [Ht _]].
  - discriminate Hr.
  - rewrite Ht. cbn [trace]. now rewrite <- app_assoc.
Qed.

Lemma sendMessageWithRetry_rejected_string_witness :
  let st := Scripted.ready Scripted.client [inr Js.NotAnError] in
  exists st',
    sendMessageWithRetry Scripted.ext Scripted.client "1203630@g.us" (Text "hello")
      OptionsUndefined st
    = (st', Throw Js.typeErrorIncludes)
    /\ since st st' = [Sleep Settle 2000;
                       SendMessage "1203630@g.us" (Text "hello") OptionsEmpty;
                       Log (WarnAttemptFailed 1 MAX_RETRIES None)].
Proof.
  intros st.
  apply (sendMessageWithRetry_loses_a_rejection_without_message
           Scripted.ext Scripted.client "1203630@g.us" (Text "hello")
           OptionsUndefined st
           (fst (attemptSend Scripted.ext Scripted.client "1203630@g.us"
                   (Text "hello") OptionsEmpty (fst (setLastError None st))))).
  reflexivity.
Defined.

(** ** [POST /send-batch] *)

Lemma responses_app (a b : list Event) :
  responses (a ++ b) = (responses a ++ responses b)%list.
Proof.
  induction a as [|e a IH]; simpl; [reflexivity|].
  destruct e; simpl; now rewrite ?IH.
Qed.

Lemma responses_none (evs : list Event) :
  forallb notRespond evs = true -> responses evs = [].
Proof.
  induction evs as [|e evs IH]; simpl; [reflexivity|].
  intros H. apply andb_true_iff in H as [He H].
  destruct e; auto. discriminate He.
Qed.

Lemma allTimers_app (a b : list Event) :
  allTimers (a ++ b) = (allTimers a ++ allTimers b)%list.
Proof.
  induction a as [|e a IH]; simpl; [reflexivity|].
  destruct e; simpl; now rewrite ?IH.
Qed.

Lemma timers_cooldown_none (evs : list Event) :
  forallb notCooldown evs = true -> timers Cooldown evs = [].
Proof.
  induction evs as [|e evs IH]; simpl; [reflexivity|].
  intros H. apply andb_true_iff in H as [He H].
  destruct e; auto. destruct site; auto. discriminate He.
Qed.

Ltac unfold_batch :=
  unfold processMessage, batchResolveMedia, sendStage, afterSend, htmlToImage,
    sendMessageWithRetry, retryLoop, attemptSend, onAttemptFailure, isRetryable,
    backoffAndRefresh, log, respond.

Section BatchRuns.

Context {World : Type}.
Variable ext : Externals World.
Variable cfg : Config.
Variable client : Client World.

Lemma batchLoop_never_answers (n i : nat) (items : list (option MessageData)) :
  Preserves (appends notRespond)
    (forIndexed (processMessage ext cfg client n) i items).
Proof. unfold_batch. appends_only. Qed.

Lemma sendMessageWithRetry_no_cooldown (g : string) (content : Content)
    (options : SendOptions) :
  Preserves (appends notCooldown) (sendMessageWithRetry ext client g content options).
Proof.
  unfold sendMessageWithRetry, retryLoop, attemptSend, onAttemptFailure,
    isRetryable, backoffAndRefresh, log, respond.
  appends_only.
Qed.

(** The run of an accepted batch, step by step. *)
Lemma postSendBatch_accepted (items : list (option MessageData)) (st : State World) :
  items <> [] ->
  Z.of_nat (List.length items) <= MAX_BATCH_SIZE cfg ->
  whatsappClient st = Some client ->
  let n := List.length items in
  let st1 := mkState (world st)
               (trace st ++ [Respond 202 (Processing n (MESSAGE_DELAY_MS cfg))])
               (whatsappClient st) (Some (mkTally 0 0)) (lastError st) in
  let st2 := fst (forIndexed (processMessage ext cfg client n) 0 items st1) in
  exists t,
    tally st2 = Some t
    /\ (successCount t + failureCount t = n)%nat
    /\ postSendBatch ext cfg (ArrayOf items) st
       = (mkState (world st2)
            (trace st2 ++ [Log (InfoCompleted (successCount t) (failureCount t))])
            (whatsappClient st2) (tally st2) (lastError st2), Normal tt).
Proof.
  intros Hne Hmax W n st1 st2.
  destruct (batchLoop_outcome ext cfg client n items 0 st1 (mkTally 0 0) eq_refl)
    as (s2 & t & Run & Ht & Sum).
  assert (E : st2 = s2) by (subst st2; now rewrite Run). rewrite E. clear E st2.
  exists t. split; [exact Ht|]. split; [simpl in Sum; subst n; lia|].
  unfold postSendBatch. fold n.
  replace (n =? 0)%nat with false
    by (symmetry; apply Nat.eqb_neq; subst n; destruct items; [contradiction | discriminate]).
  replace (Z.of_nat n >? MAX_BATCH_SIZE cfg)
    with false by (symmetry; rewrite Z.gtb_ltb; apply Z.ltb_ge; exact Hmax).
  unfold call, tryCatch.
  erewrite bind_normal by (unfold getWhatsAppClient; rewrite W; reflexivity).
  cbv beta iota.
  erewrite bind_normal by reflexivity.
  erewrite bind_normal by reflexivity.
  erewrite bind_normal by exact Run.
  unfold bind, readTally, log, emit. now rewrite Ht.
Qed.

End BatchRuns.


Section BatchAnswers.

Context {World : Type}.
Variable ext : Externals World.
Variable cfg : Config.
Variable client : Client World.

(** An accepted batch is answered 202 and nothing else. *)
Lemma postSendBatch_accepted_answer (items : list (option MessageData))
    (st : State World) :
  items <> [] ->
  Z.of_nat (List.length items) <= MAX_BATCH_SIZE cfg ->
  whatsappClient st = Some client ->
  responses (since st (fst (postSendBatch ext cfg (ArrayOf items) st)))
  = [(202, Processing (List.length items) (MESSAGE_DELAY_MS cfg))].
Proof.
  intros Hne Hmax W.
  destruct (postSendBatch_accepted ext cfg client items st Hne Hmax W)
    as (t & _ & _ & Run).
  cbv zeta in Run. rewrite Run. cbn [fst].
  match goal with
  | |- context [forIndexed ?b 0 ?l ?s] =>
      destruct (forIndexed b 0 l s) as [s2 r2] eqn:Loop
  end.
  destruct (batchLoop_never_answers ext cfg client _ _ _ _ _ _ Loop)
    as (evs & Tr & Quiet).
  cbn [fst trace] in *.
  rewrite (since_app st _ (Respond 202 (Processing (List.length items)
                                          (MESSAGE_DELAY_MS cfg))
                           :: evs ++ [Log (InfoCompleted (successCount t)
                                             (failureCount t))])).
  - cbn [responses]. now rewrite responses_app, (responses_none _ Quiet).
  - cbn [trace]. rewrite Tr, <- !app_assoc. reflexivity.
Qed.

End BatchAnswers.

(** [POST /send] on a complete body while the stored session has no
    [info]. *)
Lemma postSend_answers_503_without_info {World : Type} (ext : Externals World)
    (client : Client World) (body : MessageData) (st : State World) :
  Js.truthy (groupId body) = true ->
  negb (Js.truthy (message body)) && negb (Js.truthy (mediaContent body))
  && negb (Js.truthy (html body)) = false ->
  whatsappClient st = Some client ->
  info client (world st) = false ->
  responses (since st (fst (postSend ext body st))) = [(503, ClientNotReady)].
Proof.
  intros G C W I.
  assert (T : trace (fst (postSend ext body st))
              = (trace st ++ [Respond 503 ClientNotReady])%list).
  { unfold postSend, call, tryCatch, bind, getWhatsAppClient, readWorld, respond, emit,
      return_.
    rewrite G, C. cbn [negb]. rewrite W. cbv beta iota.
    cbn [fst snd world trace]. rewrite I. reflexivity. }
  now rewrite (since_app _ _ _ T).
Qed.

(** X13. The two handlers do not ask the same of the session. While a
    session is stored whose [info] is not populated yet, [POST /send]
    answers 503 to a complete body, and [POST /send-batch] accepts the
    same body as a batch of one with 202. *)
Theorem batch_accepts_a_session_that_send_refuses :
  forall (World : Type) (ext : Externals World) (cfg : Config)
         (client : Client World) (body : MessageData) (st : State World),
    Js.truthy (groupId body) = true ->
    negb (Js.truthy (message body)) && negb (Js.truthy (mediaContent body))
    && negb (Js.truthy (html body)) = false ->
    1 <= MAX_BATCH_SIZE cfg ->
    whatsappClient st = Some client ->
    info client (world st) = false ->
    responses (since st (fst (postSend ext body st))) = [(503, ClientNotReady)]
    /\ responses (since st (fst (postSendBatch ext cfg (ArrayOf [Some body]) st)))
       = [(202, Processing 1 (MESSAGE_DELAY_MS cfg))].
Proof.
  intros World ext cfg client body st G C Max W I. split.
  - exact (postSend_answers_503_without_info ext client body st G C W I).
  - apply (postSendBatch_accepted_answer ext cfg client [Some body] st);
      [discriminate | exact Max | exact W].
Qed.

Lemma batch_accepts_a_session_without_info_witness :
  responses (since Down.stored
               (fst (postSend Down.ext (Scripted.textTo "g" "hello") Down.stored)))
  = [(503, ClientNotReady)]
  /\ responses (since Down.stored
                  (fst (postSendBatch Down.ext defaultConfig
                          (ArrayOf [Some (Scripted.textTo "g" "hello")]) Down.stored)))
     = [(202, Processing 1 5000)].
Proof.
  apply (batch_accepts_a_session_that_send_refuses Down.World Down.ext defaultConfig
           Down.client (Scripted.textTo "g" "hello") Down.stored);
    first [reflexivity | vm_compute; discriminate].
Defined.

(** X14. A batch is answered 503, and none of its messages is looked at,
    when no session is stored. *)
Theorem postSendBatch_refuses_without_a_session :
  forall (World : Type) (ext : Externals World) (cfg : Config)
         (items : list (option MessageData)) (st : State World),
    items <> [] ->
    Z.of_nat (List.length items) <= MAX_BATCH_SIZE cfg ->
    whatsappClient st = None ->
    postSendBatch ext cfg (ArrayOf items) st
    = (mkState (world st)
         (trace st ++ [Log WarnClientUndefined; Log ErrorClientNotReady;
                       Respond 503 ClientNotReady])
         (whatsappClient st) (tally st) (lastError st), Normal tt).
Proof.
  intros World ext cfg items st Hne Hmax W.
  unfold postSendBatch.
  replace (List.length items =? 0)%nat with false
    by (symmetry; apply Nat.eqb_neq; destruct items; [contradiction | discriminate]).
  replace (Z.of_nat (List.length items) >? MAX_BATCH_SIZE cfg)
    with false by (symmetry; rewrite Z.gtb_ltb; apply Z.ltb_ge; exact Hmax).
  unfold call, tryCatch, getWhatsAppClient, log, respond, emit, return_, ret, bind.
  rewrite W. cbv beta iota.
  cbn [fst snd world trace whatsappClient tally lastError].
  rewrite <- ?app_assoc, ?W. reflexivity.
Qed.

Lemma postSendBatch_before_ready_witness :
  postSendBatch Steady.ext defaultConfig
    (ArrayOf [Some (Scripted.textTo "g" "hello")]) (processStart tt)
  = (mkState tt [Log WarnClientUndefined; Log ErrorClientNotReady;
                 Respond 503 ClientNotReady] None None None, Normal tt).
Proof.
  apply (postSendBatch_refuses_without_a_session Steady.World Steady.ext
           defaultConfig [Some (Scripted.textTo "g" "hello")] (processStart tt));
    first [reflexivity | discriminate | vm_compute; discriminate].
Defined.

(** X15. A message of a batch that carries media content of an unsupported
    type is dropped as a whole, its text included: one failure is
    counted, one warning is logged, nothing is sent and no timer is
    armed, not even the delay before the next message. *)
Theorem batch_drops_a_message_with_an_unsupported_media_type :
  forall (World : Type) (ext : Externals World) (cfg : Config)
         (client : Client World) (n i : nat) (md : MessageData)
         (st : State World) (t : Tally) (g content type : string),
    groupId md = Some g -> g <> EmptyString ->
    Js.truthy (html md) = false ->
    mediaContent md = Some content -> content <> EmptyString ->
    mediaType md = Some type -> type <> EmptyString ->
    type <> "base64"%string -> type <> "url"%string ->
    tally st = Some t ->
    processMessage ext cfg client n i (Some md) st
    = (mkState (world st)
         (trace st ++ [Log (WarnInvalidMediaType (S i) n g type)])
         (whatsappClient st)
         (Some (mkTally (successCount t) (S (failureCount t))))
         (lastError st),
       Continue).
Proof.
  intros World ext cfg client n i md st t g content type
    G Gne H C Cne T Tne Tb Tu Ht.
  apply String.eqb_neq in Gne, Cne, Tne, Tb, Tu.
  assert (Gt : Js.truthy (groupId md) = true)
    by (rewrite G; unfold Js.truthy; now rewrite Gne).
  assert (Ct : Js.truthy (mediaContent md) = true)
    by (rewrite C; unfold Js.truthy; now rewrite Cne).
  assert (Tt : Js.truthy (mediaType md) = true)
    by (rewrite T; unfold Js.truthy; now rewrite Tne).
  unfold processMessage. rewrite Gt, Ct. cbn [negb]. rewrite andb_false_r.
  cbn [andb].
  apply tryCatch_continue. apply bind_continue.
  unfold batchResolveMedia. rewrite H, Ct, Tt. cbn [andb].
  rewrite G, T. cbn [Js.orEmpty]. rewrite Tb, Tu.
  apply tryCatch_continue. apply skip_run. exact Ht.
Qed.

Lemma batch_video_type_witness :
  let md := mkMessage (Some "1203630@g.us") (Some "see the clip") (Some "video")
              (Some "AAAA") None None None in
  processMessage Steady.ext defaultConfig Steady.client 2 0 (Some md)
    (fst (setTally (Some (mkTally 0 0)) Steady.ready))
  = (mkState tt [Log (WarnInvalidMediaType 1 2 "1203630@g.us" "video")]
       (Some Steady.client) (Some (mkTally 0 1)) None,
     Continue).
Proof.
  intros md.
  apply (batch_drops_a_message_with_an_unsupported_media_type Steady.World Steady.ext
           defaultConfig Steady.client 2 0 md
           (fst (setTally (Some (mkTally 0 0)) Steady.ready)) (mkTally 0 0)
           "1203630@g.us" "AAAA" "video");
    first [reflexivity | discriminate].
Defined.


(** ** The send stage of a batch *)

(** X16. When the retries of a message of the batch end with an error, the
    batch sleeps one cooldown of twice [MESSAGE_DELAY_MS] if the message
    of that error contains "WidFactory", and none otherwise; a message
    that was sent is followed by no cooldown. *)
Theorem sendStage_cools_down_after_a_WidFactory_failure :
  forall (World : Type) (ext : Externals World) (cfg : Config)
         (client : Client World) (n i : nat) (g captionText : string)
         (media : option MessageMedia) (st s1 : State World)
         (res : Completion unit),
    let content := match media with
                   | Some m => Media m
                   | None => Text captionText
                   end in
    let options := match media with
                   | Some _ => OptionsMedia captionText false
                   | None => OptionsUndefined
                   end in
    sendMessageWithRetry ext client g content options st = (s1, res) ->
    timers Cooldown (since st (fst (sendStage ext cfg client n i g captionText media st)))
    = match res with
      | Throw (Js.Error msg) =>
          if Js.includes msg "WidFactory" then [MESSAGE_DELAY_MS cfg * 2] else []
      | _ => []
      end.
Proof.
  intros World ext cfg client n i g captionText media st s1 res content options E.
  destruct (sendMessageWithRetry_no_cooldown ext client g content options _ _ _ E)
    as (evs & T & Q).
  apply timers_cooldown_none in Q.
  destruct (sendMessageWithRetry_outcome _ _ _ _ _ _ _ _ E) as [-> | [msg ->]].
  - assert (X : exists line,
               trace (fst (sendStage ext cfg client n i g captionText media st))
               = (trace st ++ evs ++ [Log line])%list).
    { unfold sendStage, tryCatch. subst content options.
      destruct media as [m|]; unfold bind at 1 2; rewrite E;
        unfold log, emit, incrSuccess, setTally; cbn [fst trace];
        rewrite T, <- app_assoc; eauto. }
    destruct X as (line & X). rewrite (since_app _ _ _ X), timers_app, Q. reflexivity.
  - assert (X : trace (fst (sendStage ext cfg client n i g captionText media st))
               = (trace st ++ evs
                  ++ Log (ErrorAllRetriesFailed (S i) n (Js.Error msg))
                     :: (if Js.includes msg "WidFactory"
                         then [Log InfoIncreasingDelay;
                               Sleep Cooldown (MESSAGE_DELAY_MS cfg * 2)]
                         else []))%list).
    { unfold sendStage, tryCatch. subst content options.
      destruct media as [m|]; unfold bind at 1 2; rewrite E;
        unfold bind, incrFailure, setTally, log, emit, ret, sleep;
        destruct (Js.includes msg "WidFactory"); cbn [fst trace];
        rewrite T, <- ?app_assoc; reflexivity. }
    rewrite (since_app _ _ _ X), timers_app, Q.
    destruct (Js.includes msg "WidFactory"); reflexivity.
Qed.

Lemma sendStage_cooldown_witness :
  let st := fst (setTally (Some (mkTally 0 0))
                   (Scripted.ready Scripted.client
                      [inr (Js.Error "Evaluation failed: WidFactory");
                       inr (Js.Error "Evaluation failed: WidFactory");
                       inr (Js.Error "Evaluation failed: WidFactory")])) in
  timers Cooldown
    (since st (fst (sendStage Scripted.ext defaultConfig Scripted.client 2 0
                      "1203630@g.us" "hello" None st)))
  = [10000].
Proof.
  intros st.
  apply (sendStage_cools_down_after_a_WidFactory_failure Scripted.World Scripted.ext
           defaultConfig Scripted.client 2 0 "1203630@g.us" "hello" None st
           (fst (sendMessageWithRetry Scripted.ext Scripted.client "1203630@g.us"
                   (Text "hello") OptionsUndefined st))
           (Throw (Js.Error "Evaluation failed: WidFactory"))).
  vm_compute. reflexivity.
Defined.

(** ** A batch of texts through a healthy session *)

Section HealthySession.

Context {World : Type}.
Variable ext : Externals World.
Variable cfg : Config.
Variable client : Client World.

Hypothesis page_up : forall w, pupPage client w = true.
Hypothesis browser_up : forall w, pupBrowser client w = true.
Hypothesis send_resolves :
  forall g content options w, snd (sendMessage client g content options w) = inl tt.

(** The send with retries returns from its first attempt. *)
Lemma sendMessageWithRetry_first_attempt (g : string) (content : Content)
    (options : SendOptions) (st : State World) :
  let sent := match options with
              | OptionsUndefined => OptionsEmpty
              | _ => options
              end in
  exists st',
    sendMessageWithRetry ext client g content options st = (st', Normal tt)
    /\ tally st' = tally st
    /\ trace st' = (trace st ++ [Sleep Settle 2000; SendMessage g content sent])%list.
Proof.
  intros sent. unfold sendMessageWithRetry. fold sent. unfold retryLoop.
  rewrite range_attempts. eexists. split.
  - apply call_return.
    erewrite bind_normal by reflexivity.
    apply bind_return. cbn [forEach].
    erewrite tryCatch_return; [reflexivity|].
    apply attemptSend_resolves; auto.
  - cbn [fst setLastError tally trace world]. auto.
Qed.

(** One text of the batch: a settle delay, one send, the counter of
    successes, then the delay before the next message unless it is the
    last. *)
Lemma processMessage_plain_text (n i : nat) (md : MessageData)
    (st : State World) (t : Tally) :
  plainText md = true ->
  tally st = Some t ->
  let g := Js.orEmpty (groupId md) in
  exists st',
    processMessage ext cfg client n i (Some md) st = (st', Normal tt)
    /\ tally st' = Some (mkTally (S (successCount t)) (failureCount t))
    /\ trace st'
       = (trace st
          ++ [Sleep Settle 2000;
              SendMessage g (Text (Js.orEmpty (message md))) OptionsEmpty;
              Log (InfoBatchTextSent (S i) n g)]
          ++ (if Z.of_nat i <? Z.of_nat n - 1
              then [Log (InfoWaitingBeforeNext (MESSAGE_DELAY_MS cfg));
                    Sleep InterMessage (MESSAGE_DELAY_MS cfg)]
              else [])
          ++ [Log (InfoProgress (S i) n (S (successCount t)) (failureCount t))])%list.
Proof.
  intros P Ht g. unfold plainText in P.
  apply andb_true_iff in P as [P Med]. apply andb_true_iff in P as [P H].
  apply andb_true_iff in P as [G M].
  apply negb_true_iff in H. apply negb_true_iff in Med.
  destruct (sendMessageWithRetry_first_attempt g (Text (Js.orEmpty (message md)))
              OptionsUndefined st) as (s1 & Run & T1 & Tr1).
  set (s2 := mkState (world s1)
               (trace s1 ++ [Log (InfoBatchTextSent (S i) n g)])
               (whatsappClient s1)
               (Some (mkTally (S (successCount t)) (failureCount t)))
               (lastError s1)).
  destruct (afterSend_run ext cfg n i s2) as (s3 & After & T3 & Tr3).
  exists s3. split; [|split].
  - unfold processMessage. rewrite G, M. cbn [negb andb].
    apply tryCatch_normal.
    erewrite bind_normal
      by (unfold batchResolveMedia; rewrite H, Med; reflexivity).
    erewrite bind_normal; [exact After|].
    unfold sendStage. apply tryCatch_normal.
    erewrite bind_normal
      by (erewrite bind_normal by exact Run; reflexivity).
    fold g. rewrite incrSuccess_run with (t := t)
      by (cbn [tally]; rewrite T1; exact Ht).
    reflexivity.
  - rewrite T3. reflexivity.
  - rewrite Tr3. subst s2. cbn [trace tally successCount failureCount].
    rewrite Tr1, <- !app_assoc. reflexivity.
Qed.

(** The loop over the last messages of a batch of [n], all of them
    texts. *)
Lemma batchLoop_plain_texts (n : nat) (mds : list MessageData) (i : nat)
    (st : State World) (t : Tally) :
  forallb plainText mds = true ->
  (i + List.length mds = n)%nat ->
  tally st = Some t ->
  exists st' evs,
    forIndexed (processMessage ext cfg client n) i (map Some mds) st = (st', Normal tt)
    /\ tally st'
       = Some (mkTally (successCount t + List.length mds) (failureCount t))
    /\ trace st' = (trace st ++ evs)%list
    /\ sends evs
       = map (fun md => (Js.orEmpty (groupId md),
                         Text (Js.orEmpty (message md)), OptionsEmpty)) mds
    /\ allTimers evs
       = flat_map (fun k => (Settle, 2000)
                            :: (if Z.of_nat k <? Z.of_nat n - 1
                                then [(InterMessage, MESSAGE_DELAY_MS cfg)]
                                else []))
           (seq i (List.length mds)).
Proof.
  revert i st t. induction mds as [|md mds IH]; intros i st t P Hn Ht.
  - exists st, []. cbn. rewrite Nat.add_0_r, app_nil_r. destruct t; auto.
  - cbn [forallb] in P. apply andb_true_iff in P as [Pmd P].
    destruct (processMessage_plain_text n i md st t Pmd Ht)
      as (s1 & Run & T1 & Tr1).
    cbn [List.length] in Hn.
    destruct (IH (S i) s1 _ P ltac:(lia) T1) as (s2 & evs & Loop & T2 & Tr2 & Sn & Tm).
    eexists s2, _. split; [|split; [|split; [|split]]].
    + cbn [map forIndexed]. rewrite Run. exact Loop.
    + rewrite T2. cbn [successCount failureCount List.length]. do 2 f_equal. lia.
    + rewrite Tr2, Tr1, <- !app_assoc. reflexivity.
    + rewrite !sends_app, Sn.
      destruct (Z.of_nat i <? Z.of_nat n - 1); reflexivity.
    + rewrite !allTimers_app, Tm. cbn [List.length seq flat_map].
      destruct (Z.of_nat i <? Z.of_nat n - 1); reflexivity.
Qed.

End HealthySession.

(** X17. Through a session that stays initialised and whose sends resolve,
    a batch of texts is delivered in full and in order: each message is
    handed to the client once, as a text without options, after a
    settle delay of 2000 ms; [MESSAGE_DELAY_MS] is slept after each
    message but the last, and no other timer is armed; the counters end
    at [n] successes and no failure. *)
Theorem postSendBatch_delivers_texts_in_order :
  forall (World : Type) (ext : Externals World) (cfg : Config)
         (client : Client World) (mds : list MessageData) (st : State World),
    (forall w, pupPage client w = true) ->
    (forall w, pupBrowser client w = true) ->
    (forall g content options w,
        snd (sendMessage client g content options w) = inl tt) ->
    forallb plainText mds = true ->
    mds <> [] ->
    Z.of_nat (List.length mds) <= MAX_BATCH_SIZE cfg ->
    whatsappClient st = Some client ->
    let n := List.length mds in
    exists st' evs,
      postSendBatch ext cfg (ArrayOf (map Some mds)) st = (st', Normal tt)
      /\ since st st' = evs
      /\ tally st' = Some (mkTally n 0)
      /\ sends evs
         = map (fun md => (Js.orEmpty (groupId md),
                           Text (Js.orEmpty (message md)), OptionsEmpty)) mds
      /\ allTimers evs
         = flat_map (fun k => (Settle, 2000)
                              :: (if (S k <? n)%nat
                                  then [(InterMessage, MESSAGE_DELAY_MS cfg)]
                                  else []))
             (seq 0 n).
Proof.
  intros World ext cfg client mds st Hp Hb Hs P Hne Hmax W n.
  assert (Hne' : map Some mds <> []) by (destruct mds; [contradiction | discriminate]).
  assert (Hmax' : Z.of_nat (List.length (map Some mds)) <= MAX_BATCH_SIZE cfg)
    by (rewrite length_map; exact Hmax).
  destruct (postSendBatch_accepted ext cfg client (map Some mds) st Hne' Hmax' W)
    as (t & Ht & _ & Run).
  cbv zeta in Run, Ht. rewrite length_map in Run, Ht. fold n in Run, Ht.
  set (st1 := mkState (world st)
                (trace st ++ [Respond 202 (Processing n (MESSAGE_DELAY_MS cfg))])
                (whatsappClient st) (Some (mkTally 0 0)) (lastError st)) in *.
  destruct (batchLoop_plain_texts ext cfg client Hp Hb Hs n mds 0 st1 (mkTally 0 0)
              P eq_refl eq_refl) as (s2 & evs & Loop & T2 & Tr2 & Sn & Tm).
  rewrite Loop in Run, Ht. cbn [fst] in Run, Ht.
  rewrite Run. eexists _, _. split; [reflexivity|].
  split; [apply since_app; cbn [trace]; rewrite Tr2; subst st1; cbn [trace];
          rewrite <- !app_assoc; reflexivity|].
  cbn [tally]. split; [exact T2|].
  cbn [app sends allTimers]. rewrite sends_app, allTimers_app, Sn, Tm.
  cbn [sends allTimers]. rewrite !app_nil_r. split; [reflexivity|].
  apply flat_map_ext. intros k. f_equal.
  destruct (Nat.ltb_spec (S k) n), (Z.ltb_spec (Z.of_nat k) (Z.of_nat n - 1));
    first [reflexivity | lia].
Qed.

Lemma postSendBatch_three_texts_witness :
  let mds := [Scripted.textTo "a@g.us" "one"; Scripted.textTo "b@g.us" "two";
              Scripted.textTo "a@g.us" "three"] in
  exists st' evs,
    postSendBatch Steady.ext defaultConfig (ArrayOf (map Some mds)) Steady.ready
    = (st', Normal tt)
    /\ since Steady.ready st' = evs
    /\ tally st' = Some (mkTally 3 0)
    /\ sends evs
       = [("a@g.us", Text "one", OptionsEmpty); ("b@g.us", Text "two", OptionsEmpty);
          ("a@g.us", Text "three", OptionsEmpty)]
    /\ allTimers evs
       = [(Settle, 2000); (InterMessage, 5000); (Settle, 2000); (InterMessage, 5000);
          (Settle, 2000)].
Proof.
  intros mds.
  apply (postSendBatch_delivers_texts_in_order Steady.World Steady.ext defaultConfig
           Steady.client mds Steady.ready);
    first [reflexivity | discriminate | vm_compute; discriminate].
Defined.

(** ** Two runs of the earlier lemmas *)

Lemma postSendBatch_counts_two_messages_witness :
  exists st' t evs,
    postSendBatch Steady.ext defaultConfig
      (ArrayOf [Some (Scripted.textTo "a@g.us" "one"); None]) Steady.ready
    = (st', Normal tt)
    /\ tally st' = Some t
    /\ (successCount t + failureCount t = 2)%nat
    /\ trace st'
       = (trace Steady.ready
          ++ Respond 202 (Processing 2 5000)
             :: evs
          ++ [Log (InfoCompleted (successCount t) (failureCount t))])%list.
Proof.
  apply (postSendBatch_counts_every_message Steady.World Steady.ext defaultConfig
           Steady.client [Some (Scripted.textTo "a@g.us" "one"); None] Steady.ready);
    first [reflexivity | discriminate | vm_compute; discriminate].
Defined.

Lemma batch_renders_a_card_witness :
  let md := Scripted.htmlTo "a@g.us" "<b>Menu</b>" in
  exists evs,
    trace (fst (batchResolveMedia Steady.ext 1 0 md Steady.ready))
    = (trace Steady.ready ++ Puppeteer (Some "<b>Menu</b>") 800 800 :: evs)%list
    /\ rendered evs = [].
Proof.
  apply (batch_renders_the_markup Steady.World Steady.ext 1 0
           (Scripted.htmlTo "a@g.us" "<b>Menu</b>") Steady.ready).
  reflexivity.
Defined.

(** ** The data-URI pattern, in full *)

(** X20. What the pattern matches and what it captures: the content is
    [data:], a non-empty MIME type made of letters, [-], [+] and [/],
    [;base64,], and a non-empty payload without a line terminator, and
    the two groups are that MIME type and that payload. *)
Theorem matchDataUri_iff (s mime payload : string) :
  DataUri.matchDataUri s = Some (mime, payload)
  <-> s = ("data:" ++ mime ++ ";base64," ++ payload)%string
      /\ mime <> EmptyString /\ DataUri.allChars DataUri.mimeChar mime = true
      /\ payload <> EmptyString /\ DataUri.allChars DataUri.dotChar payload = true.
Proof.
  split.
  - apply matchDataUri_only.
  - intros (-> & Hm & Hc & Hp & Hd). now apply matchDataUri_accepts.
Qed.

(** X21. The media [POST /send-batch] builds from base64 content loses
    nothing: it is the whole content under the default type [image/png],
    or its type and data are the two parts of the data URI the content
    is, and the content can be rebuilt from them. *)
Theorem batchBase64Media_keeps_or_splits (content : string) :
  batchBase64Media content = mkMedia "image/png" content
  \/ (content = ("data:" ++ mimetype (batchBase64Media content) ++ ";base64,"
                 ++ data (batchBase64Media content))%string
      /\ mimetype (batchBase64Media content) <> EmptyString
      /\ data (batchBase64Media content) <> EmptyString).
Proof.
  unfold batchBase64Media.
  destruct (Js.startsWith content "data:"); [|now left].
  destruct (DataUri.matchDataUri content) as [[mime payload]|] eqn:E; [|now left].
  right. apply matchDataUri_only in E as (-> & Hm & _ & Hp & _). cbn. auto.
Qed.

Lemma allChars_app (p : ascii -> bool) (a b : string) :
  DataUri.allChars p (a ++ b) = DataUri.allChars p a && DataUri.allChars p b.
Proof.
  induction a as [|c a IH]; simpl; [reflexivity|].
  now rewrite IH, andb_assoc.
Qed.

Lemma allChars_weaken (p q : ascii -> bool) (s : string) :
  (forall c, p c = true -> q c = true) ->
  DataUri.allChars p s = true -> DataUri.allChars q s = true.
Proof.
  intros Hpq. induction s as [|c s IH]; simpl; [reflexivity|].
  intros H. apply andb_true_iff in H as [Hc Hs].
  now rewrite (Hpq c Hc), IH.
Qed.

Lemma mimeChar_is_dotChar (c : ascii) :
  DataUri.mimeChar c = true -> DataUri.dotChar c = true.
Proof.
  intros H. unfold DataUri.dotChar.
  destruct (Ascii.eqb_spec c "010") as [->|]; [discriminate H|].
  destruct (Ascii.eqb_spec c "013") as [->|]; [discriminate H|].
  reflexivity.
Qed.

(** X22. Base64 content with a line break anywhere in it, as when the
    payload is wrapped into lines, is not matched by the pattern, even
    when it is a data URI otherwise: both handlers build the media with
    the default type [image/png] and the whole content, prefix included,
    as its data. *)
Theorem wrapped_payload_keeps_default_and_prefix :
  forall (World : Type) (before after : string) (c : ascii) (st : State World),
    DataUri.dotChar c = false ->
    let content := (before ++ String c after)%string in
    DataUri.matchDataUri content = None
    /\ batchBase64Media content = mkMedia "image/png" content
    /\ sendBase64Media content st = (st, Normal (mkMedia "image/png" content)).
Proof.
  intros World before after c st Hc content.
  assert (N : DataUri.matchDataUri content = None).
  { destruct (DataUri.matchDataUri content) as [[mime payload]|] eqn:E; [|reflexivity].
    apply matchDataUri_only in E as (E & _ & Hm & _ & Hp).
    assert (A : DataUri.allChars DataUri.dotChar content = true).
    { rewrite E, !allChars_app, Hp.
      rewrite (allChars_weaken _ _ _ mimeChar_is_dotChar Hm). reflexivity. }
    subst content. rewrite allChars_app in A. cbn [DataUri.allChars] in A.
    rewrite Hc, andb_false_r in A. discriminate A. }
  split; [exact N|].
  unfold batchBase64Media, sendBase64Media. rewrite N.
  destruct (Js.startsWith content "data:"); auto.
Qed.

Lemma wrapped_payload_witness :
  let content :=
    ("data:image/png;base64,iVBORw0KGgo" ++ String "010" "AAAANSUhEUg==")%string in
  DataUri.matchDataUri content = None
  /\ batchBase64Media content = mkMedia "image/png" content
  /\ sendBase64Media content (processStart tt)
     = (processStart tt, Normal (mkMedia "image/png" content)).
Proof.
  apply (wrapped_payload_keeps_default_and_prefix unit
           "data:image/png;base64,iVBORw0KGgo" "AAAANSUhEUg==" "010"
           (processStart tt)).
  reflexivity.
Defined.

(** ** [GET /api/status] *)

(** X23. [GET /api/status] answers 200 as soon as a session is stored,
    without looking at it: while the info of that session is missing, a
    complete body is still answered 503 by [POST /send]. Before a
    session is stored it answers 503, after the warning of
    [getWhatsAppClient]. *)
Theorem getApiStatus_is_ready_before_postSend_is :
  forall (World : Type) (ext : Externals World) (body : MessageData)
         (st : State World),
    Js.truthy (groupId body) = true ->
    negb (Js.truthy (message body)) && negb (Js.truthy (mediaContent body))
    && negb (Js.truthy (html body)) = false ->
    match whatsappClient st with
    | Some client =>
        info client (world st) = false ->
        getApiStatus st = (st, Normal StatusReady)
        /\ responses (since st (fst (postSend ext body st))) = [(503, ClientNotReady)]
    | None =>
        snd (getApiStatus st) = Normal StatusNotReady
        /\ since st (fst (getApiStatus st)) = [Log WarnClientUndefined]
    end.
Proof.
  intros World ext body st G C.
  destruct (whatsappClient st) as [client|] eqn:W.
  - intros I. split.
    + unfold getApiStatus, bind, getWhatsAppClient. now rewrite W.
    + exact (postSend_answers_503_without_info ext client body st G C W I).
  - unfold getApiStatus, bind, getWhatsAppClient, log, emit, ret. rewrite W.
    cbn [fst snd]. split; [reflexivity|].
    now apply since_app.
Qed.

Lemma getApiStatus_stored_session_witness :
  getApiStatus Down.stored = (Down.stored, Normal StatusReady)
  /\ responses (since Down.stored
                  (fst (postSend Down.ext (Scripted.textTo "g" "hello") Down.stored)))
     = [(503, ClientNotReady)].
Proof.
  apply (getApiStatus_is_ready_before_postSend_is Down.World Down.ext
           (Scripted.textTo "g" "hello") Down.stored); reflexivity.
Defined.

(** ** The image cleanup *)

Module CleanupFacts.

Import Cleanup.






Lemma statted_app (a b : list FsEvent) :
  statted (a ++ b) = (statted a ++ statted b)%list.
Proof. induction a as [|e a IH]; simpl; [reflexivity|]. destruct e; simpl; now rewrite ?IH. Qed.

Lemma unlinked_app (a b : list FsEvent) :
  unlinked (a ++ b) = (unlinked a ++ unlinked b)%list.
Proof. induction a as [|e a IH]; simpl; [reflexivity|]. destruct e; simpl; now rewrite ?IH. Qed.

Lemma lines_app (a b : list FsEvent) :
  lines (a ++ b) = (lines a ++ lines b)%list.
Proof. induction a as [|e a IH]; simpl; [reflexivity|]. destruct e; simpl; now rewrite ?IH. Qed.

Section Loop.

Context {World : Type}.
Variable files : Files World.
Variable retention : option Z.
Variable now : Z.

Let visit (file : string) : Job World unit :=
  (let filePath := pathJoin files file in
   mtime <- perform (Stat filePath) (statMtime files filePath) ;;
   if oldEnough retention now mtime then
     perform (Unlink filePath) (unlink files filePath) ;;
     note (InfoDeletedOldImage filePath)
   else pure tt)%job.

Lemma forOf_app {A : Type} (body : A -> Job World unit)
    (before after : list A) (st : Run World) :
  forOf body (before ++ after) st
  = andThen (forOf body before) (fun _ => forOf body after) st.
Proof.
  revert st. induction before as [|x before IH]; intros st; cbn [app forOf].
  - reflexivity.
  - unfold andThen. destruct (body x st) as [s1 [[]|e]]; [|reflexivity].
    rewrite IH. reflexivity.
Qed.

(** The loop over files that can all be looked at and deleted. *)
Lemma visit_all (mtimeOf : string -> Z) (names : list string) (st : Run World) :
  (forall f, In f names ->
             forall w, snd (statMtime files (pathJoin files f) w) = inl (mtimeOf f)) ->
  (forall f, In f names ->
             forall w, snd (unlink files (pathJoin files f) w) = inl tt) ->
  let old := filter (fun f => oldEnough retention now (mtimeOf f)) names in
  exists st' evs,
    forOf visit names st = (st', inl tt)
    /\ journal st' = (journal st ++ evs)%list
    /\ statted evs = map (pathJoin files) names
    /\ unlinked evs = map (pathJoin files) old
    /\ lines evs = map (fun f => InfoDeletedOldImage (pathJoin files f)) old.
Proof.
  revert st. induction names as [|f names IH]; intros st Hs Hu old; subst old.
  - exists st, []. cbn. rewrite app_nil_r. auto.
  - assert (Hs' : forall g, In g names ->
                   forall w, snd (statMtime files (pathJoin files g) w) = inl (mtimeOf g))
      by (intros g Hg; apply Hs; now right).
    assert (Hu' : forall g, In g names ->
                   forall w, snd (unlink files (pathJoin files g) w) = inl tt)
      by (intros g Hg; apply Hu; now right).
    pose proof (Hs f (or_introl eq_refl) (disk st)) as S1.
    cbn [forOf filter]. unfold andThen at 1. unfold visit at 1.
    unfold andThen at 1. unfold perform at 1.
    destruct (statMtime files (pathJoin files f) (disk st)) as [w1 a1].
    cbn [snd] in S1. subst a1. cbn [disk journal].
    destruct (oldEnough retention now (mtimeOf f)).
    + unfold andThen at 1. unfold perform at 1. cbn [disk journal].
      pose proof (Hu f (or_introl eq_refl) w1) as U1.
      destruct (unlink files (pathJoin files f) w1) as [w2 a2].
      cbn [snd] in U1. subst a2. unfold note. cbn [disk journal].
      match goal with
      | |- context [forOf visit names ?s] =>
          destruct (IH s Hs' Hu') as (st' & evs & Run & J & St & Un & Ln)
      end.
      cbn [journal] in J.
      exists st'. eexists. split; [exact Run|].
      split; [rewrite J, <- !app_assoc; reflexivity|].
      cbn [app statted unlinked lines map]. rewrite St, Un, Ln. auto.
    + unfold pure.
      match goal with
      | |- context [forOf visit names ?s] =>
          destruct (IH s Hs' Hu') as (st' & evs & Run & J & St & Un & Ln)
      end.
      cbn [journal] in J.
      exists st'. eexists. split; [exact Run|].
      split; [rewrite J, <- !app_assoc; reflexivity|].
      cbn [app statted unlinked lines map]. rewrite St, Un, Ln. auto.
Qed.

(** The visit of an old file that cannot be deleted. *)
Lemma visit_refused (mtime : Z) (file : string) (e : Js.Thrown) (st : Run World) :
  (forall w, snd (statMtime files (pathJoin files file) w) = inl mtime) ->
  oldEnough retention now mtime = true ->
  (forall w, snd (unlink files (pathJoin files file) w) = inr e) ->
  exists w,
    visit file st
    = (mkRun w (journal st ++ [Stat (pathJoin files file); Unlink (pathJoin files file)]),
       inr e).
Proof.
  intros Hs Hold Hu. unfold visit, andThen, perform.
  pose proof (Hs (disk st)) as S1.
  destruct (statMtime files (pathJoin files file) (disk st)) as [w1 a1].
  cbn [snd] in S1. subst a1. rewrite Hold. cbn [disk journal].
  pose proof (Hu w1) as U1.
  destruct (unlink files (pathJoin files file) w1) as [w2 a2].
  cbn [snd] in U1. subst a2. exists w2. now rewrite <- app_assoc.
Qed.

End Loop.

(** X25. When every listed file can be looked at and deleted, the cleanup
    completes; it looks at each file once, in the order of the listing,
    and deletes exactly the files that are at least [retention] days
    old at the time the cleanup started, a file of exactly that age
    included. *)
Theorem cleanupOldImages_deletes_exactly_the_old_images :
  forall (World : Type) (files : Files World) (days : Z)
         (mtimeOf : string -> Z) (names : list string) (st : Run World) (w : World),
    readdir files (disk st) = (w, inl names) ->
    (forall f, In f names ->
               forall w', snd (statMtime files (pathJoin files f) w') = inl (mtimeOf f)) ->
    (forall f, In f names ->
               forall w', snd (unlink files (pathJoin files f) w') = inl tt) ->
    let old := filter (fun f => days * 86400000 <=? dateNow files w - mtimeOf f) names in
    exists st' evs,
      cleanupOldImages files (Some days) st = (st', inl tt)
      /\ journal st' = (journal st ++ evs)%list
      /\ statted evs = map (pathJoin files) names
      /\ unlinked evs = map (pathJoin files) old
      /\ lines evs = (map (fun f => InfoDeletedOldImage (pathJoin files f)) old
                      ++ [InfoCleanupCompleted])%list.
Proof.
  intros World files days mtimeOf names st w R Hs Hu old.
  unfold cleanupOldImages, attempt.
  unfold andThen at 1. unfold perform at 1. rewrite R.
  unfold andThen at 1. unfold observe at 1. cbn [disk journal].
  unfold andThen at 1.
  match goal with
  | |- context [forOf ?b names ?s] =>
      destruct (visit_all files (Some days) (dateNow files w) mtimeOf names s Hs Hu)
        as (s1 & evs & Run & J & St & Un & Ln)
  end.
  cbv zeta in Run. rewrite Run. unfold note. cbn [journal] in J.
  eexists _, _. split; [reflexivity|]. cbn [journal].
  split; [rewrite J, <- !app_assoc; reflexivity|].
  cbn [app statted unlinked lines].
  rewrite !statted_app, !unlinked_app, !lines_app, St, Un, Ln. cbn.
  rewrite !app_nil_r. auto.
Qed.

Lemma cleanupOldImages_three_images_witness :
  let listing := [("a.png", 0); ("b.png", 86400000); ("c.png", 86400001)] in
  let files := Shelf.files listing 172800000 (fun _ => false) in
  exists st' evs,
    cleanupOldImages files (Some 1) Shelf.start = (st', inl tt)
    /\ journal st' = (journal Shelf.start ++ evs)%list
    /\ statted evs = ["images/a.png"; "images/b.png"; "images/c.png"]
    /\ unlinked evs = ["images/a.png"; "images/b.png"]
    /\ lines evs = [InfoDeletedOldImage "images/a.png";
                    InfoDeletedOldImage "images/b.png"; InfoCleanupCompleted].
Proof.
  intros listing files.
  apply (cleanupOldImages_deletes_exactly_the_old_images Shelf.World files 1
           (fun f => match Shelf.lookup listing ("images/" ++ f) with
                     | Some m => m
                     | None => 0
                     end)
           ["a.png"; "b.png"; "c.png"] Shelf.start []).
  - reflexivity.
  - intros f [<- | [<- | [<- | []]]] w'; reflexivity.
  - intros f _ w'. reflexivity.
Defined.


(** X26. The cleanup stops at the first file it cannot delete, a
    sub-directory of the image directory for instance: the files listed
    after it are not looked at, however old they are, and the cleanup
    rejects with the error of [unlink] after logging it. *)
Theorem cleanupOldImages_stops_at_the_first_failure :
  forall (World : Type) (files : Files World) (days : Z)
         (mtimeOf : string -> Z) (before after : list string) (file : string)
         (e : Js.Thrown) (st : Run World) (w : World),
    readdir files (disk st) = (w, inl (before ++ file :: after)%list) ->
    (forall f, In f (before ++ [file]) ->
               forall w', snd (statMtime files (pathJoin files f) w') = inl (mtimeOf f)) ->
    (forall f, In f before ->
               forall w', snd (unlink files (pathJoin files f) w') = inl tt) ->
    days * 86400000 <= dateNow files w - mtimeOf file ->
    (forall w', snd (unlink files (pathJoin files file) w') = inr e) ->
    exists st' evs,
      cleanupOldImages files (Some days) st = (st', inr e)
      /\ journal st' = (journal st ++ evs ++ [Logged (ErrorCleaningUp e)])%list
      /\ statted evs = map (pathJoin files) (before ++ [file])
      /\ lines evs
         = map (fun f => InfoDeletedOldImage (pathJoin files f))
             (filter (fun f => days * 86400000 <=? dateNow files w - mtimeOf f) before).
Proof.
  intros World files days mtimeOf before after file e st w R Hs Hu Hold Hrefused.
  assert (Hs' : forall f, In f before ->
                 forall w', snd (statMtime files (pathJoin files f) w') = inl (mtimeOf f))
    by (intros f Hf; apply Hs, in_or_app; now left).
  assert (Hfile : forall w', snd (statMtime files (pathJoin files file) w')
                             = inl (mtimeOf file))
    by (apply Hs, in_or_app; right; now left).
  unfold cleanupOldImages, attempt.
  unfold andThen at 1. unfold perform at 1. rewrite R.
  unfold andThen at 1. unfold observe at 1. cbn [disk journal].
  unfold andThen at 1.
  rewrite forOf_app. unfold andThen at 1.
  match goal with
  | |- context [forOf ?b before ?s] =>
      destruct (visit_all files (Some days) (dateNow files w) mtimeOf before s Hs' Hu)
        as (s1 & evs & Run & J & St & _ & Ln)
  end.
  cbv zeta in Run. rewrite Run. cbn [forOf]. unfold andThen at 1.
  destruct (visit_refused files (Some days) (dateNow files w) (mtimeOf file) file e s1
              Hfile ltac:(apply Z.leb_le; exact Hold) Hrefused) as (w2 & V).
  cbv zeta in V. rewrite V. unfold andThen, note, raise. cbn [journal disk] in *.
  eexists _, (Readdir :: evs ++ [Stat (pathJoin files file); Unlink (pathJoin files file)])%list.
  split; [reflexivity|]. cbn [journal].
  split; [rewrite J, <- !app_assoc; cbn [app]; rewrite <- ?app_assoc; reflexivity|].
  cbn [app statted lines].
  rewrite !statted_app, !lines_app, map_app, St, Ln. cbn.
  rewrite app_nil_r. auto.
Qed.

Lemma cleanupOldImages_sub_directory_witness :
  let listing := [("a.png", 0); ("thumbs", 0); ("b.png", 0)] in
  let files := Shelf.files listing 172800000 (String.eqb "images/thumbs") in
  let e := Js.Error "EISDIR: illegal operation on a directory" in
  exists st' evs,
    cleanupOldImages files (Some 1) Shelf.start = (st', inr e)
    /\ journal st' = (journal Shelf.start ++ evs ++ [Logged (ErrorCleaningUp e)])%list
    /\ statted evs = ["images/a.png"; "images/thumbs"]
    /\ lines evs = [InfoDeletedOldImage "images/a.png"].
Proof.
  intros listing files e.
  apply (cleanupOldImages_stops_at_the_first_failure Shelf.World files 1
           (fun _ => 0) ["a.png"] ["b.png"] "thumbs" e Shelf.start []).
  - reflexivity.
  - intros f [<- | [<- | []]] w'; reflexivity.
  - intros f [<- | []] w'. reflexivity.
  - vm_compute. discriminate.
  - intros w'. reflexivity.
Defined.

Lemma adds_andThen {World A B : Type} (Q : FsEvent -> bool) (m : Job World A)
    (k : A -> Job World B) :
  adds Q m -> (forall a, adds Q (k a)) -> adds Q (andThen m k).
Proof.
  intros Hm Hk st st' r. unfold andThen.
  destruct (m st) as [s1 [a|e]] eqn:E; intros H.
  - destruct (Hm _ _ _ E) as (e1 & J1 & Q1). destruct (Hk a _ _ _ H) as (e2 & J2 & Q2).
    exists (e1 ++ e2)%list. split; [now rewrite J2, J1, <- app_assoc|].
    now rewrite forallb_app, Q1, Q2.
  - inversion H; subst. exact (Hm _ _ _ E).
Qed.

Lemma adds_attempt {World A : Type} (Q : FsEvent -> bool) (m : Job World A)
    (h : Js.Thrown -> Job World A) :
  adds Q m -> (forall e, adds Q (h e)) -> adds Q (attempt m h).
Proof.
  intros Hm Hh st st' r. unfold attempt.
  destruct (m st) as [s1 [a|e]] eqn:E; intros H.
  - inversion H; subst. exact (Hm _ _ _ E).
  - destruct (Hm _ _ _ E) as (e1 & J1 & Q1). destruct (Hh e _ _ _ H) as (e2 & J2 & Q2).
    exists (e1 ++ e2)%list. split; [now rewrite J2, J1, <- app_assoc|].
    now rewrite forallb_app, Q1, Q2.
Qed.

Lemma adds_perform {World A : Type} (Q : FsEvent -> bool) (e : FsEvent)
    (f : World -> World * (A + Js.Thrown)) :
  Q e = true -> adds Q (perform e f).
Proof.
  intros He st st' r. unfold perform. destruct (f (disk st)) as [w a].
  intros H; inversion H; subst. exists [e]. cbn. now rewrite He.
Qed.

Lemma adds_note {World : Type} (Q : FsEvent -> bool) (line : CleanupLine) :
  Q (Logged line) = true -> adds Q (@note World line).
Proof.
  intros He st st' r H. inversion H; subst. exists [Logged line]. cbn. now rewrite He.
Qed.

Lemma adds_nothing {World A : Type} (Q : FsEvent -> bool) (m : Job World A) :
  (forall st, fst (m st) = st) -> adds Q m.
Proof.
  intros Hm st st' r H. exists []. rewrite app_nil_r.
  specialize (Hm st). rewrite H in Hm. cbn in Hm. subst. auto.
Qed.

Lemma adds_forOf {World A : Type} (Q : FsEvent -> bool) (body : A -> Job World unit)
    (l : list A) :
  (forall x, adds Q (body x)) -> adds Q (forOf body l).
Proof.
  intros Hb. induction l as [|x l IH]; cbn [forOf].
  - now apply adds_nothing.
  - apply adds_andThen; auto.
Qed.

Lemma unlinked_none (evs : list FsEvent) :
  forallb notUnlink evs = true -> unlinked evs = [].
Proof.
  induction evs as [|e evs IH]; cbn; [reflexivity|].
  intros H. apply andb_true_iff in H as [He H]. destruct e; auto. discriminate He.
Qed.

(** The cleanup always ends by logging: the completion when it
    resolves, the error when it rejects. *)
Lemma cleanupOldImages_ends_with_a_line {World : Type} (files : Files World)
    (retention : option Z) (st : Run World) :
  exists st' evs,
    journal st' = (journal st ++ evs)%list
    /\ ((cleanupOldImages files retention st = (st', inl tt)
         /\ exists before, evs = (before ++ [Logged InfoCleanupCompleted])%list)
        \/ exists e before,
             cleanupOldImages files retention st = (st', inr e)
             /\ evs = (before ++ [Logged (ErrorCleaningUp e)])%list).
Proof.
  unfold cleanupOldImages, attempt.
  match goal with
  | |- context [match andThen ?m ?k st with _ => _ end] =>
      set (listing := m);
      match k with
      | (fun names => andThen ?n (fun now => andThen (@?loop names now) ?done)) =>
          set (visits := loop)
      end
  end.
  assert (G : adds (fun _ => true)
                (andThen listing
                   (fun names => andThen (observe (dateNow files))
                                   (fun now => visits names now)))).
  { apply adds_andThen; [now apply adds_perform|]. intros names.
    apply adds_andThen; [now apply adds_nothing|].
    intros now. subst visits. cbv beta. apply adds_forOf. intros file.
    apply adds_andThen; [now apply adds_perform|]. intros mtime.
    destruct (oldEnough retention now mtime); [|now apply adds_nothing].
    apply adds_andThen; [now apply adds_perform|]. intros _. now apply adds_note. }
  assert (Shape : forall s,
             andThen listing
               (fun names => andThen (observe (dateNow files))
                               (fun now => andThen (visits names now)
                                             (fun _ => note InfoCleanupCompleted))) s
             = match andThen listing
                       (fun names => andThen (observe (dateNow files))
                                       (fun now => visits names now)) s with
               | (s1, inl _) => note InfoCleanupCompleted s1
               | (s1, inr e) => (s1, inr e)
               end).
  { intros s. unfold andThen, observe. destruct (listing s) as [s1 [names|e]]; [|reflexivity].
    destruct (visits names (dateNow files (disk s1)) s1) as [s2 [[]|e]]; reflexivity. }
  rewrite Shape.
  destruct (andThen listing _ st) as [s1 [[]|e]] eqn:E;
    destruct (G _ _ _ E) as (evs & J & _).
  - unfold note.
    exists (mkRun (disk s1) (journal s1 ++ [Logged InfoCleanupCompleted])),
      (evs ++ [Logged InfoCleanupCompleted])%list.
    cbn [journal]. split; [now rewrite J, <- app_assoc|]. left. eauto.
  - unfold andThen, note, raise.
    exists (mkRun (disk s1) (journal s1 ++ [Logged (ErrorCleaningUp e)])),
      (evs ++ [Logged (ErrorCleaningUp e)])%list.
    cbn [journal]. split; [now rewrite J, <- app_assoc|]. right. eauto.
Qed.

(** X27. The nightly job never fails, whatever the file system does: an
    error of the cleanup is logged by the cleanup and once more by the
    job, and goes no further. *)
Theorem scheduledCleanup_never_throws :
  forall (World : Type) (files : Files World) (retention : option Z)
         (st : Run World),
    exists st' evs,
      scheduledCleanup files retention st = (st', inl tt)
      /\ journal st' = (journal st ++ Logged InfoRunningCleanup :: evs)%list
      /\ ((exists before, evs = (before ++ [Logged InfoCleanupCompleted])%list)
          \/ exists e before,
               evs = (before ++ [Logged (ErrorCleaningUp e);
                                 Logged (ErrorScheduledCleanup e)])%list).
Proof.
  intros World files retention st.
  unfold scheduledCleanup, attempt. unfold andThen at 1. unfold note at 1.
  match goal with
  | |- context [cleanupOldImages files retention ?s] =>
      destruct (cleanupOldImages_ends_with_a_line files retention s)
        as (s1 & evs & J & [[Run [before ->]] | (e & before & Run & ->)])
  end; rewrite Run; cbn [journal] in J.
  - exists s1, (before ++ [Logged InfoCleanupCompleted])%list.
    split; [reflexivity|].
    split; [rewrite J, <- app_assoc; reflexivity|]. left. eauto.
  - unfold note.
    exists (mkRun (disk s1) (journal s1 ++ [Logged (ErrorScheduledCleanup e)])),
      (before ++ [Logged (ErrorCleaningUp e); Logged (ErrorScheduledCleanup e)])%list.
    split; [reflexivity|]. cbn [journal].
    split; [rewrite J, <- !app_assoc; reflexivity|].
    right. eauto.
Qed.

(** X28. Without a number for the retention, as when IMAGE_RETENTION_DAYS
    holds no digit, the cleanup looks at the files and deletes none,
    whatever their age. *)
Theorem cleanupOldImages_deletes_nothing_without_a_number :
  forall (World : Type) (files : Files World) (st st' : Run World)
         (r : unit + Js.Thrown),
    cleanupOldImages files None st = (st', r) ->
    exists evs,
      journal st' = (journal st ++ evs)%list /\ unlinked evs = [].
Proof.
  intros World files st st' r H.
  assert (A : adds notUnlink (cleanupOldImages files None)).
  { unfold cleanupOldImages.
    apply adds_attempt.
    - apply adds_andThen; [now apply adds_perform|]. intros names.
      apply adds_andThen; [now apply adds_nothing|]. intros now.
      apply adds_andThen; [|intros _; now apply adds_note].
      apply adds_forOf. intros file.
      apply adds_andThen; [now apply adds_perform|]. intros mtime.
      cbn [oldEnough]. now apply adds_nothing.
    - intros e. apply adds_andThen; [now apply adds_note|].
      intros _. now apply adds_nothing. }
  destruct (A _ _ _ H) as (evs & J & Q).
  exists evs. split; [exact J|]. now apply unlinked_none.
Qed.

Lemma cleanupOldImages_no_digit_witness :
  let files := Shelf.files [("a.png", 0)] 172800000 (fun _ => false) in
  IMAGE_RETENTION_DAYS (Some "one day") = None
  /\ exists evs,
       journal (fst (cleanupOldImages files (IMAGE_RETENTION_DAYS (Some "one day"))
                       Shelf.start))
       = (journal Shelf.start ++ evs)%list
       /\ unlinked evs = [].
Proof.
  intros files. split; [reflexivity|].
  apply (cleanupOldImages_deletes_nothing_without_a_number Shelf.World files
           Shelf.start
           (fst (cleanupOldImages files None Shelf.start))
           (snd (cleanupOldImages files None Shelf.start))).
  reflexivity.
Defined.

End CleanupFacts.

(** ** The start of the process *)

Module BootFacts.

Import Boot.

Lemma initializations_app (a b : list BootEvent) :
  initializations (a ++ b) = (initializations a + initializations b)%nat.
Proof.
  induction a as [|e a IH]; simpl; [reflexivity|].
  destruct e as [[]| | |]; simpl; now rewrite ?IH.
Qed.

Lemma delays_app (a b : list BootEvent) :
  delays (a ++ b) = (delays a ++ delays b)%list.
Proof.
  induction a as [|e a IH]; simpl; [reflexivity|].
  destruct e; simpl; now rewrite ?IH.
Qed.

Section Facts.

Context {World : Type}.
Variable initialize : World -> World * (unit + Js.Thrown).

(** Once the counter is at its maximum, a call of [initializeClient]
    only logs that it gives up. *)
Lemma startInitializeClient_exhausted (p : Process World) :
  initAttempts p = maxInitAttempts ->
  startInitializeClient initialize p = noted ErrorMaxInitAttempts p.
Proof.
  intros H. unfold startInitializeClient, initializeClient. now rewrite H.
Qed.


(** A call of [initializeClient] whose [client.initialize()] rejects
    with an error, while attempts are left. *)
Lemma startInitializeClient_fails (p : Process World) (w : World) (msg : string) :
  initAttempts p < maxInitAttempts ->
  initialize (session p) = (w, inr (Js.Error msg)) ->
  let delay := if Js.includes msg "ERR_INTERNET_DISCONNECTED" then 30000 else 15000 in
  startInitializeClient initialize p
  = mkProcess w (initAttempts p + 1)
      (armed p ++ [(delay, RetryInitialization delay)])
      (history p
       ++ [Noted (InfoInitAttempt (initAttempts p + 1) maxInitAttempts);
           Initialize ByInitializeClient;
           Noted (ErrorInitFailed (initAttempts p + 1) (Some msg));
           SetTimeout delay (RetryInitialization delay)]).
Proof.
  intros Hlt Hinit delay. unfold startInitializeClient, initializeClient.
  replace (maxInitAttempts <=? initAttempts p) with false
    by (symmetry; apply Z.leb_gt; exact Hlt).
  unfold callInitialize. cbn [session noted setInitAttempts]. rewrite Hinit.
  cbn [noted setTimeout session initAttempts armed history Js.messageOf].
  fold delay. unfold setTimeout, noted, setInitAttempts.
  cbn [session initAttempts armed history]. now rewrite <- !app_assoc.
Qed.

End Facts.



(** X30. When every [client.initialize()] rejects with an error, the process
    makes five attempts, the first when it starts and one each time the
    retry timer fires, 15 s after a failure or 30 s when the error is
    ERR_INTERNET_DISCONNECTED. The timer armed after the fifth failure
    still fires, and its call of [initializeClient] gives up: no timer
    is left and nothing will initialise the client any more. *)
Theorem boot_gives_up_after_five_failed_attempts :
  forall (World : Type) (initialize : World -> World * (unit + Js.Thrown))
         (w : World),
    (forall w', exists msg, snd (initialize w') = inr (Js.Error msg)) ->
    let p := handleAll initialize (repeat (Fires 0) 5) (boot initialize w) in
    initAttempts p = maxInitAttempts
    /\ armed p = []
    /\ initializations (history p) = 5%nat
    /\ List.length (delays (history p)) = 5%nat
    /\ Forall (fun d => d = 15000 \/ d = 30000) (delays (history p))
    /\ exists before, history p = (before ++ [Noted ErrorMaxInitAttempts])%list.
Proof.
  intros World initialize w Hfail p. subst p.
  assert (Attempt : forall q : Process World,
             initAttempts q < maxInitAttempts -> armed q = [] ->
             exists w' d evs,
               startInitializeClient initialize q
               = mkProcess w' (initAttempts q + 1) [(d, RetryInitialization d)]
                   (history q ++ evs)
               /\ (d = 15000 \/ d = 30000)
               /\ initializations evs = 1%nat /\ delays evs = [d]).
  { intros q Hlt Harmed. destruct (Hfail (session q)) as (msg & Hm).
    destruct (initialize (session q)) as [w' a] eqn:E. cbn [snd] in Hm. subst a.
    rewrite (startInitializeClient_fails initialize q w' msg Hlt E), Harmed.
    eexists w', _, _. split; [reflexivity|].
    split; [destruct (Js.includes msg "ERR_INTERNET_DISCONNECTED"); auto|].
    split; reflexivity. }
  assert (Retry : forall (q : Process World) w' n d evs0,
             q = mkProcess w' n [(d, RetryInitialization d)] evs0 ->
             n < maxInitAttempts ->
             exists w'' d' evs,
               handle initialize (Fires 0) q
               = mkProcess w'' (n + 1) [(d', RetryInitialization d')] (evs0 ++ evs)
               /\ (d' = 15000 \/ d' = 30000)
               /\ initializations evs = 1%nat /\ delays evs = [d']).
  { intros q w' n d evs0 -> Hlt. cbn [handle armed nth_error removeNth runCallback].
    cbn [session initAttempts history].
    destruct (Attempt (noted (InfoRetrying (d / 1000)) (mkProcess w' n [] evs0)) Hlt eq_refl)
      as (w'' & d' & evs & Run & Hd & Ni & Dl).
    rewrite Run. unfold noted. cbn [initAttempts history].
    exists w'', d', (Noted (InfoRetrying (d / 1000)) :: evs).
    split; [now rewrite <- app_assoc|]. cbn. auto. }
  unfold boot.
  destruct (Attempt (mkProcess w 0 [] []) ltac:(reflexivity) eq_refl)
    as (w1 & d1 & e1 & R1 & D1 & N1 & L1).
  cbn [initAttempts history app] in R1.
  destruct (Retry _ _ _ _ _ R1 ltac:(reflexivity)) as (w2 & d2 & e2 & R2 & D2 & N2 & L2).
  destruct (Retry _ _ _ _ _ R2 ltac:(reflexivity)) as (w3 & d3 & e3 & R3 & D3 & N3 & L3).
  destruct (Retry _ _ _ _ _ R3 ltac:(reflexivity)) as (w4 & d4 & e4 & R4 & D4 & N4 & L4).
  destruct (Retry _ _ _ _ _ R4 ltac:(reflexivity)) as (w5 & d5 & e5 & R5 & D5 & N5 & L5).
  unfold handleAll. cbn [repeat fold_left]. fold (boot initialize w). unfold boot.
  rewrite R5.
  cbn [handle armed nth_error removeNth runCallback].
  rewrite startInitializeClient_exhausted by reflexivity.
  unfold noted. cbn [initAttempts armed history session].
  split; [reflexivity|]. split; [reflexivity|].
  rewrite !initializations_app, !delays_app, N1, N2, N3, N4, N5, L1, L2, L3, L4, L5.
  split; [reflexivity|]. split; [reflexivity|].
  split; [cbn [app]; repeat (apply Forall_cons; [assumption|]); apply Forall_nil|].
  eexists. reflexivity.
Qed.

Lemma boot_offline_witness :
  let initialize :=
    fun w : unit =>
      (w, @inr unit Js.Thrown (Js.Error "net::ERR_INTERNET_DISCONNECTED at https://web.whatsapp.com")) in
  let p := handleAll initialize (repeat (Fires 0) 5) (boot initialize tt) in
  initAttempts p = maxInitAttempts
  /\ armed p = []
  /\ initializations (history p) = 5%nat
  /\ List.length (delays (history p)) = 5%nat
  /\ Forall (fun d => d = 15000 \/ d = 30000) (delays (history p))
  /\ exists before, history p = (before ++ [Noted ErrorMaxInitAttempts])%list.
Proof.
  intros initialize.
  apply (boot_gives_up_after_five_failed_attempts unit initialize tt).
  intros w'. eexists. reflexivity.
Defined.

End BootFacts.
